(** * patch_faulty_filter.py: a shallow embedding and its verification

    The script repairs HTML reports in place: [patch_report] recomputes the
    percentage breakdown and caps the efficiency figures, [rename_titles]
    relabels the page title and heading, [process_directory] walks one
    directory and [main] drives it from the command line.

    Conventions of the embedding:
    - a Python [str] is a [list ascii]; a character is a code point below
      256, so [\d] is [0-9] and [\s] is the white space of that range;
    - a Python [float] is an IEEE 754 binary64 number, taken from
      [SpecFloat] with precision 53 and maximal exponent 1024;
    - an exception is a value of [exn]; a call that may raise returns a
      [result];
    - a directory is a finite map from file names to file contents. *)

From Stdlib Require Import ZArith List Ascii String DecimalString Lia.
From Stdlib Require Import Floats.SpecFloat.
From Stdlib Require Import DecimalN.
From stdpp Require Import base option list gmap strings sorting.

Local Open Scope Z_scope.

(** ** Text *)

Abbreviation text := (list ascii).

(** A string literal as a text. *)
Definition txt (s : string) : text := list_ascii_of_string s.

(** The double quote, code point 34. *)
Definition dq : ascii := ascii_of_nat 34.

Module Text.

(** [s.startswith(p)], returning what follows the prefix. *)
Fixpoint strip_prefix (p s : text) : option text :=
  match p, s with
  | [], _ => Some s
  | _ :: _, [] => None
  | a :: p', b :: s' => if Ascii.eqb a b then strip_prefix p' s' else None
  end.

Definition startswith (p s : text) : bool :=
  match strip_prefix p s with Some _ => true | None => false end.

(** [p in s] *)
Fixpoint contains (p s : text) : bool :=
  startswith p s ||
  match s with
  | [] => false
  | _ :: s' => contains p s'
  end.

(** The scan of [s.replace(old, new)] for a non-empty [old]: [skip]
    characters of a match just replaced are still to be passed over. *)
Fixpoint replace_from (old new : text) (skip : nat) (s : text) : text :=
  match s with
  | [] => []
  | c :: s' =>
      match skip with
      | S k => replace_from old new k s'
      | O =>
          if startswith old s
          then new ++ replace_from old new (length old - 1) s'
          else c :: replace_from old new 0 s'
      end
  end.

(** Replacing the empty string puts [new] before every character and at the end. *)
Fixpoint intersperse (new s : text) : text :=
  match s with
  | [] => new
  | c :: s' => new ++ c :: intersperse new s'
  end.

(** [s.replace(old, new)]: every occurrence of [old], found from left to
    right without overlap, becomes [new]. *)
Definition replace (old new s : text) : text :=
  match old with
  | [] => intersperse new s
  | _ :: _ => replace_from old new 0 s
  end.

(** [sep.join(parts)] for a non-empty list of parts. *)
Fixpoint join (sep : text) (parts : list text) : text :=
  match parts with
  | [] => []
  | [p] => p
  | p :: ps => p ++ sep ++ join sep ps
  end.

(** The line feed and the carriage return, code points 10 and 13. *)
Definition lf : ascii := ascii_of_nat 10.
Definition cr : ascii := ascii_of_nat 13.

(** What a file opened in text mode, with the default [newline=None],
    gives for its content: a carriage return with the line feed that
    follows it, and a carriage return alone, are read as one line feed. *)
Fixpoint universal_newlines (s : text) : text :=
  match s with
  | [] => []
  | c :: s' =>
      if Ascii.eqb c cr then
        lf :: match s' with
              | d :: s'' =>
                  if Ascii.eqb d lf then universal_newlines s''
                  else universal_newlines s'
              | [] => []
              end
      else c :: universal_newlines s'
  end.

End Text.

(** ** Regular expressions

    Every pattern of the script is a sequence of literals and of greedy
    repetitions of one character class, so this is the fragment that is
    embedded, with the backtracking order of Python's [re]: a repetition
    first takes as many characters as it can and gives them back one by one
    while the rest of the pattern fails. *)

Module Re.

Inductive item : Type :=
  | Lit (s : text)
  | Many (c : ascii -> bool)      (* [c]* *)
  | Many1 (c : ascii -> bool).    (* [c]+ *)

(** A match is the list of the pieces of text taken by the items, in order. *)
Abbreviation pieces := (list text).

Definition is_digit (c : ascii) : bool :=
  let n := nat_of_ascii c in (48 <=? n)%nat && (n <=? 57)%nat.

(** [[\d.]] *)
Definition digit_or_dot (c : ascii) : bool :=
  is_digit c || Ascii.eqb c "."%char.

(** [\s] on a [str]: tab to carriage return, the four separators 28 to 31,
    space, NEL and the no-break space. *)
Definition is_space (c : ascii) : bool :=
  let n := nat_of_ascii c in
  ((9 <=? n)%nat && (n <=? 13)%nat) || ((28 <=? n)%nat && (n <=? 32)%nat)
  || (n =? 133)%nat || (n =? 160)%nat.

(** Any character but the double quote; any character but [>]. *)
Definition not_quote (c : ascii) : bool := negb (Ascii.eqb c dq).
Definition not_gt (c : ascii) : bool := negb (Ascii.eqb c ">"%char).

Section Matcher.
Context {R : Type}.

(** [c*] followed by the continuation [k], longest repetition first. *)
Fixpoint greedy (c : ascii -> bool) (k : text -> option R) (s : text)
  : option (text * R) :=
  let stop := r ← k s; Some ([], r) in
  match s with
  | [] => stop
  | a :: s' =>
      if c a then
        match greedy c k s' with
        | Some (cap, r) => Some (a :: cap, r)
        | None => stop
        end
      else stop
  end.
End Matcher.

(** Match the items at the start of [s]: the pieces and the text that
    follows the match. *)
Fixpoint match_here (p : list item) (s : text) : option (pieces * text) :=
  match p with
  | [] => Some ([], s)
  | Lit l :: p' =>
      s' ← Text.strip_prefix l s;
      '(caps, r) ← match_here p' s';
      Some (l :: caps, r)
  | Many c :: p' =>
      '(cap, (caps, r)) ← greedy c (match_here p') s;
      Some (cap :: caps, r)
  | Many1 c :: p' =>
      match s with
      | a :: s' =>
          if c a then
            '(cap, (caps, r)) ← greedy c (match_here p') s';
            Some ((a :: cap) :: caps, r)
          else None
      | [] => None
      end
  end.

(** [re.search(p, s)]: the match at the leftmost position that has one,
    with the text before it and the text after it. *)
Fixpoint search (p : list item) (s : text) : option (text * pieces * text) :=
  match match_here p s with
  | Some (caps, r) => Some ([], caps, r)
  | None =>
      match s with
      | [] => None
      | a :: s' =>
          '(pre, caps, r) ← search p s';
          Some (a :: pre, caps, r)
      end
  end.

(** [m.group(0)] *)
Definition whole (caps : pieces) : text := concat caps.

(** The group that spans the items [i], ..., [i + n - 1]. *)
Definition span (i n : nat) (caps : pieces) : text :=
  concat (take n (drop i caps)).

End Re.

(** ** Exceptions *)

Inductive exn : Type :=
  | ValueError                 (* [float] on a text that is not a number *)
  | OSError                    (* a file that cannot be opened *)
  | SystemExit (code : Z).     (* [sys.exit(code)] *)

Inductive result (A : Type) : Type :=
  | Ok (a : A)
  | Raise (e : exn).
Arguments Ok {A} a.
Arguments Raise {A} e.

#[global] Instance result_ret : MRet result := fun A a => Ok a.
#[global] Instance result_bind : MBind result := fun A B f m =>
  match m with
  | Ok a => f a
  | Raise e => Raise e
  end.

(** ** Floating-point numbers *)

Module PyFloat.

Definition float : Type := spec_float.
Definition prec : Z := 53.
Definition emax : Z := 1024.

Definition add : float -> float -> float := SFadd prec emax.
Definition sub : float -> float -> float := SFsub prec emax.
Definition mul : float -> float -> float := SFmul prec emax.
Definition div : float -> float -> float := SFdiv prec emax.
Definition abs : float -> float := SFabs.
(** [x < y]; [x > y] is [lt y x]. Both are [False] on a NaN. *)
Definition lt : float -> float -> bool := SFltb.

(** The float nearest to [n / d] (ties to even), with sign [s]. *)
Definition of_ratio (s : bool) (n d : positive) : float :=
  SFdiv prec emax (S754_finite s n 0) (S754_finite false d 0).

(** The float nearest to [m / 10^k]: what [float] makes of a decimal
    numeral with [k] digits after the point. *)
Definition of_decimal (m : N) (k : nat) : float :=
  match m with
  | N0 => S754_zero false
  | Npos p => of_ratio false p (Z.to_pos (10 ^ Z.of_nat k))
  end.

(** The literals [100.0], [0.5] and the integers [0] and [100] in a
    floating-point operation. *)
Definition f100 : float := Eval cbv in of_decimal 100 0.
Definition fhalf : float := Eval cbv in of_decimal 5 1.
Definition fzero : float := S754_zero false.

Definition digit_val (c : ascii) : option N :=
  if Re.is_digit c then Some (N.of_nat (nat_of_ascii c - 48)) else None.

(** The value of a run of digits read after [acc]; the empty run reads as
    [acc]. *)
Fixpoint digits_val (acc : N) (s : text) : option N :=
  match s with
  | [] => Some acc
  | c :: s' => d ← digit_val c; digits_val (10 * acc + d)%N s'
  end.

(** The text before the first dot and, when there is a dot, the text after
    it. *)
Fixpoint cut_at_dot (s : text) : text * option text :=
  match s with
  | [] => ([], None)
  | c :: s' =>
      if Ascii.eqb c "."%char then ([], Some s')
      else let '(i, f) := cut_at_dot s' in (c :: i, f)
  end.

(** [float(s)] for a text of digits and dots, the only texts the script
    converts: digits with at most one dot and at least one digit give the
    nearest float, anything else raises [ValueError]. *)
Definition of_text (s : text) : result float :=
  let '(ip, f) := cut_at_dot s in
  let fp := default [] f in
  match ip ++ fp with
  | [] => Raise ValueError
  | _ :: _ =>
      match digits_val 0 (ip ++ fp) with
      | Some m => Ok (of_decimal m (length fp))
      | None => Raise ValueError
      end
  end.

(** [|x| * 10] rounded to the nearest integer, ties to even, for the finite
    float of mantissa [m] and exponent [e]: the decimal digits that
    correctly rounded conversion to one decimal place produces. *)
Definition tenths (m : positive) (e : Z) : N :=
  match e with
  | Zneg p =>
      let d := Z.pow 2 (Zpos p) in
      let n := 10 * Zpos m in
      let q := n / d in
      let r := n mod d in
      Z.to_N (match 2 * r ?= d with
              | Lt => q
              | Gt => q + 1
              | Eq => if Z.even q then q else q + 1
              end)
  | _ => Z.to_N (10 * Zpos m * 2 ^ e)
  end.

(** [round(x, 1)]: the decimal with one place nearest to [x], read back as
    a float; infinities and NaN round to themselves, and the sign of [x] is
    kept even when the result is zero. *)
Definition round1 (x : float) : float :=
  match x with
  | S754_finite s m e =>
      match tenths m e with
      | N0 => S754_zero s
      | Npos n => of_ratio s n 10
      end
  | _ => x
  end.

Definition decimal (n : N) : text :=
  txt (NilEmpty.string_of_uint (N.to_uint n)).

(** [f'{x:.1f}'] *)
Definition fmt1 (x : float) : text :=
  let sign (s : bool) : text := if s then txt "-" else [] in
  match x with
  | S754_nan => txt "nan"
  | S754_infinity s => sign s ++ txt "inf"
  | S754_zero s => sign s ++ txt "0.0"
  | S754_finite s m e =>
      let n := tenths m e in
      sign s ++ decimal (n / 10) ++ txt "." ++ decimal (n mod 10)
  end.

(** [min(x, y)]: the second argument only when it is smaller. *)
Definition min (x y : float) : float := if lt y x then y else x.

End PyFloat.

(** ** [_parse_float]

    Lines 20 to 23; no other function of the script calls it. *)

Definition _parse_float (t : text) : result PyFloat.float :=
  match Re.search [Re.Many1 Re.digit_or_dot] t with
  | Some (_, m, _) => PyFloat.of_text (Re.span 0 1 m)
  | None => Ok PyFloat.fzero
  end.

(** ** [re.sub] with a function *)

Module ReSub.

Section Sub.
Variable p : list Re.item.
Variable f : Re.pieces -> result text.

(** The scan of [re.sub(p, f, s)]: at each position not inside the last
    match, a match is replaced by what [f] returns for it and the scan
    goes on after it; without a match the character is copied. The
    patterns of the script never match the empty text. *)
Fixpoint sub_from (skip : nat) (s : text) : result text :=
  match s with
  | [] => Ok []
  | c :: s' =>
      match skip with
      | S k => sub_from k s'
      | O =>
          match Re.match_here p s with
          | Some (caps, _) =>
              rep ← f caps;
              rest ← sub_from (length (Re.whole caps) - 1) s';
              Ok (rep ++ rest)
          | None =>
              rest ← sub_from 0 s';
              Ok (c :: rest)
          end
      end
  end.

Definition sub (s : text) : result text := sub_from 0 s.
End Sub.

End ReSub.

(** ** The patterns of [patch_report] *)

Definition formula_pattern : list Re.item :=
  [ Re.Lit (txt "<span style=" ++ dq :: txt "color:");
    Re.Many Re.not_quote;
    Re.Lit (txt ";" ++ dq :: txt ">Explained (");
    Re.Many1 Re.digit_or_dot;
    Re.Lit (txt "%)</span> +");
    Re.Many Re.is_space;
    Re.Lit (txt "<span style=" ++ dq :: txt "color:");
    Re.Many Re.not_quote;
    Re.Lit (txt ";" ++ dq :: txt ">Background (");
    Re.Many1 Re.digit_or_dot;
    Re.Lit (txt "%)</span> +");
    Re.Many Re.is_space;
    Re.Lit (txt "<span style=" ++ dq :: txt "color:");
    Re.Many Re.not_quote;
    Re.Lit (txt ";" ++ dq :: txt ">Unmatched (");
    Re.Many1 Re.digit_or_dot;
    Re.Lit (txt "%)</span>");
    Re.Many Re.is_space;
    Re.Lit (txt "= 100%") ].

(** Groups 2, 4 and 6 of [formula_pattern]. *)
Definition formula_explained (m : Re.pieces) : text := Re.span 3 1 m.
Definition formula_background (m : Re.pieces) : text := Re.span 9 1 m.
Definition formula_unmatched (m : Re.pieces) : text := Re.span 15 1 m.

(** The part of the formula bar before the label of Unmatched, and the
    part after it. *)
Definition formula_head (m : Re.pieces) : text :=
  Re.span 0 14 m ++ txt ";" ++ dq :: txt ">".
Definition formula_tail (m : Re.pieces) : text :=
  txt "</span>" ++ Re.span 17 2 m.

Definition eff_formula_pattern : list Re.item :=
  [ Re.Lit (txt "<strong>Efficiency</strong> = ");
    Re.Many1 Re.digit_or_dot;
    Re.Lit (txt "% / ");
    Re.Many1 Re.digit_or_dot;
    Re.Lit (txt "% = <strong style=" ++ dq :: txt "color:");
    Re.Many Re.not_quote;
    Re.Lit (txt ";" ++ dq :: txt ">");
    Re.Many1 Re.digit_or_dot;
    Re.Lit (txt "%</strong>") ].

(** Groups 2 and 3 of [eff_formula_pattern]; the colour of the result and
    the part of the match that precedes the result. *)
Definition eff_targetable (m : Re.pieces) : text := Re.span 3 1 m.
Definition eff_result (m : Re.pieces) : text := Re.span 7 1 m.
Definition eff_colour (m : Re.pieces) : text := Re.span 5 1 m.
Definition eff_head (m : Re.pieces) : text := Re.span 0 7 m.

Definition hero_pattern : list Re.item :=
  [ Re.Lit (txt "<div style=" ++ dq ::
            txt "font-size: 2.8em; font-weight: bold; color: ");
    Re.Many Re.not_quote;
    Re.Lit (txt ";" ++ dq :: txt ">");
    Re.Many1 Re.digit_or_dot;
    Re.Lit (txt "%</div>");
    Re.Many Re.is_space;
    Re.Lit (txt "<div");
    Re.Many Re.not_gt;
    Re.Lit (txt ">Detection Efficiency</div>") ].

(** Groups 1, 2 and 3 of [hero_pattern]. *)
Definition hero_open (m : Re.pieces) : text := Re.span 0 3 m.
Definition hero_value (m : Re.pieces) : text := Re.span 3 1 m.
Definition hero_close (m : Re.pieces) : text := Re.span 4 5 m.

Definition expl_pattern : list Re.item :=
  [ Re.Lit (txt "Of non-background power (");
    Re.Many1 Re.digit_or_dot;
    Re.Lit (txt "%), <strong>");
    Re.Many1 Re.digit_or_dot;
    Re.Lit (txt "%</strong> matched to devices.") ].

(** Groups 1, 2 and 3 of [expl_pattern]. *)
Definition expl_open (m : Re.pieces) : text := Re.span 0 3 m.
Definition expl_value (m : Re.pieces) : text := Re.span 3 1 m.
Definition expl_close (m : Re.pieces) : text := Re.span 4 1 m.

Definition donut_pattern : list Re.item :=
  [ Re.Lit (dq :: txt "values" ++ dq :: txt ": [");
    Re.Many1 Re.digit_or_dot;
    Re.Lit (txt ", ");
    Re.Many1 Re.digit_or_dot;
    Re.Lit (txt "]") ].

Definition donut_value (m : Re.pieces) : text := Re.span 1 1 m.

Definition annotation_pattern : list Re.item :=
  [ Re.Lit (dq :: txt "text" ++ dq :: txt ": " ++ [dq]);
    Re.Many1 Re.is_digit;
    Re.Lit (txt "%" ++ [dq]) ].

(** Groups 1, 2 and 3 of [annotation_pattern]. *)
Definition annotation_open (m : Re.pieces) : text := Re.span 0 1 m.
Definition annotation_value (m : Re.pieces) : text := Re.span 1 1 m.
Definition annotation_close (m : Re.pieces) : text := Re.span 2 1 m.

(** ** [patch_report] *)

(** Lines 46 and 47: [abs(total - 100.0) < 0.5]. *)
Definition already_correct
    (explained_pct background_pct old_unmatched_pct : PyFloat.float) : bool :=
  let total :=
    PyFloat.add (PyFloat.add explained_pct background_pct)
                old_unmatched_pct in
  PyFloat.lt (PyFloat.abs (PyFloat.sub total PyFloat.f100)) PyFloat.fhalf.

(** Lines 51 to 53: the recomputed Unmatched share. *)
Definition new_unmatched (explained_pct background_pct : PyFloat.float)
  : PyFloat.float :=
  let r := PyFloat.round1
             (PyFloat.sub (PyFloat.sub PyFloat.f100 explained_pct)
                          background_pct) in
  if PyFloat.lt r PyFloat.fzero then PyFloat.fzero else r.

(** Lines 71 to 75: the recomputed efficiency. *)
Definition new_efficiency (explained_pct targetable_pct : PyFloat.float)
  : PyFloat.float :=
  if PyFloat.lt PyFloat.fzero targetable_pct then
    PyFloat.min
      (PyFloat.round1
         (PyFloat.mul (PyFloat.div explained_pct targetable_pct)
                      PyFloat.f100))
      PyFloat.f100
  else PyFloat.fzero.

Definition unmatched_label (x : PyFloat.float) : text :=
  txt "Unmatched (" ++ PyFloat.fmt1 x ++ txt "%)".

Definition eff_label (x : PyFloat.float) : text :=
  PyFloat.fmt1 x ++ txt "%</strong>".

(** Section 2 of [patch_report], lines 61 to 84. *)
Definition fix_eff_formula (explained_pct : PyFloat.float) (html : text)
  : result text :=
  match Re.search eff_formula_pattern html with
  | None => Ok html
  | Some (_, m, _) =>
      old_eff_in_formula ← PyFloat.of_text (eff_result m);
      targetable_pct ← PyFloat.of_text (eff_targetable m);
      let new_eff := new_efficiency explained_pct targetable_pct in
      let old_eff_str := eff_label old_eff_in_formula in
      let new_eff_str := eff_label new_eff in
      Ok (Text.replace (Re.whole m)
            (Text.replace old_eff_str new_eff_str (Re.whole m)) html)
  end.

(** Section 3, lines 86 to 100. *)
Definition fix_hero (html : text) : result text :=
  match Re.search hero_pattern html with
  | None => Ok html
  | Some (_, m, _) =>
      old_hero_eff ← PyFloat.of_text (hero_value m);
      if PyFloat.lt PyFloat.f100 old_hero_eff then
        let new_hero_eff := PyFloat.min old_hero_eff PyFloat.f100 in
        Ok (Text.replace (Re.whole m)
              (hero_open m ++ PyFloat.fmt1 new_hero_eff ++ hero_close m) html)
      else Ok html
  end.

(** Section 4, lines 102 to 115. *)
Definition fix_explanation (html : text) : result text :=
  match Re.search expl_pattern html with
  | None => Ok html
  | Some (_, m, _) =>
      old_expl_eff ← PyFloat.of_text (expl_value m);
      if PyFloat.lt PyFloat.f100 old_expl_eff then
        Ok (Text.replace (Re.whole m)
              (expl_open m
               ++ PyFloat.fmt1 (PyFloat.min old_expl_eff PyFloat.f100)
               ++ expl_close m) html)
      else Ok html
  end.

(** Section 5: the two callbacks, lines 120 to 124 and 133 to 139. *)
Definition fix_donut (m : Re.pieces) : result text :=
  eff_val ← PyFloat.of_text (donut_value m);
  if PyFloat.lt PyFloat.f100 eff_val
  then Ok (dq :: txt "values" ++ dq :: txt ": [100.0, 0]")
  else Ok (Re.whole m).

Definition fix_donut_annotation (m : Re.pieces) : result text :=
  let prefix := annotation_open m in
  eff_val ← PyFloat.of_text (annotation_value m);
  let suffix := annotation_close m in
  if PyFloat.lt PyFloat.f100 eff_val
  then Ok (prefix ++ txt "100" ++ suffix)
  else Ok (Re.whole m).

(** Sections 3 to 5 in sequence: the displays that are capped at 100. *)
Definition fix_capped (html : text) : result text :=
  html ← fix_hero html;
  html ← fix_explanation html;
  html ← ReSub.sub donut_pattern fix_donut html;
  ReSub.sub annotation_pattern fix_donut_annotation html.

(** Sections 2 to 5 in sequence: what [patch_report] does to the document
    once the formula bar has been rewritten. *)
Definition fix_displays (explained_pct : PyFloat.float) (html : text)
  : result text :=
  html ← fix_eff_formula explained_pct html;
  fix_capped html.

Definition patch_report (html : text) : result text :=
  match Re.search formula_pattern html with
  | None => Ok html
  | Some (_, formula_match, _) =>
      explained_pct ← PyFloat.of_text (formula_explained formula_match);
      background_pct ← PyFloat.of_text (formula_background formula_match);
      old_unmatched_pct ← PyFloat.of_text (formula_unmatched formula_match);
      if already_correct explained_pct background_pct old_unmatched_pct
      then Ok html
      else
        let new_unmatched_pct := new_unmatched explained_pct background_pct in
        let html := Text.replace (unmatched_label old_unmatched_pct)
                                 (unmatched_label new_unmatched_pct) html in
        fix_displays explained_pct html
  end.

(** ** [rename_titles] *)

Definition NAN_TITLE_PREFIX : text := txt "Dynamic Threshold NaN Filled".

(** [dynamic_report_(\d+)] *)
Definition house_pattern : list Re.item :=
  [ Re.Lit (txt "dynamic_report_"); Re.Many1 Re.is_digit ].

(** The house identifier in a file name, when it has one: group 1 of
    [house_pattern]. *)
Definition house_of (filename : text) : option text :=
  '(_, m, _) ← Re.search house_pattern filename;
  Some (Re.span 1 1 m).

Definition house_title_old (house_id : text) : text :=
  txt "<title>Dynamic Threshold Report - House " ++ house_id ++ txt "</title>".
Definition house_title_new (house_id : text) : text :=
  txt "<title>" ++ NAN_TITLE_PREFIX ++ txt " - House " ++ house_id
  ++ txt "</title>".
Definition house_h1_old (house_id : text) : text :=
  txt "<h1>Dynamic Threshold Analysis - House " ++ house_id ++ txt "</h1>".
Definition house_h1_new (house_id : text) : text :=
  txt "<h1>" ++ NAN_TITLE_PREFIX ++ txt " - House " ++ house_id ++ txt "</h1>".

Definition aggregate_title_old : text :=
  txt "<title>Dynamic Threshold - Aggregate Report</title>".
Definition aggregate_title_new : text :=
  txt "<title>" ++ NAN_TITLE_PREFIX ++ txt " - Aggregate Report</title>".
Definition aggregate_h1_old : text :=
  txt "<h1>Dynamic Threshold - Aggregate Report</h1>".
Definition aggregate_h1_new : text :=
  txt "<h1>" ++ NAN_TITLE_PREFIX ++ txt " - Aggregate Report</h1>".

Definition rename_titles (html filename : text) : text :=
  match house_of filename with
  | Some house_id =>
      let html :=
        Text.replace (house_title_old house_id) (house_title_new house_id)
                     html in
      Text.replace (house_h1_old house_id) (house_h1_new house_id) html
  | None =>
      let html := Text.replace aggregate_title_old aggregate_title_new html in
      Text.replace aggregate_h1_old aggregate_h1_new html
  end.

(** ** Files and the console

    A file system maps the path of a directory to the directory, and a
    directory maps the name of a regular file to its content. A program is
    a function of the file system and of the lines printed so far; it ends
    with a value or with an exception, and what it wrote before an
    exception stays written.

    A path is taken as it is written: two paths that name one directory
    are not related here, and a statement below that needs the listing of
    a directory says that its path holds no character that [glob] reads as
    a pattern. *)

Record world : Type := World {
  fs : gmap string (gmap string text);
  stdout : list text
}.

Definition io (A : Type) : Type := world -> world * result A.

#[global] Instance io_ret : MRet io := fun A a w => (w, Ok a).
#[global] Instance io_bind : MBind io := fun A B f m w =>
  match m w with
  | (w', Ok a) => f a w'
  | (w', Raise e) => (w', Raise e)
  end.

Module IO.

Definition raise {A : Type} (e : exn) : io A := fun w => (w, Raise e).

Definition lift {A : Type} (r : result A) : io A := fun w => (w, r).

(** [print(line)] *)
Definition print (line : text) : io unit := fun w =>
  (World (fs w) (stdout w ++ [line]), Ok tt).

(** The files of a directory; a path that is not a directory has none. *)
Definition files_of (w : world) (directory : string) : gmap string text :=
  default ∅ (fs w !! directory).

(** [os.path.isdir(d)] *)
Definition isdir (d : string) : io bool := fun w =>
  (w, Ok (bool_decide (is_Some (fs w !! d)))).

(** [os.path.isfile(os.path.join(directory, name))] *)
Definition isfile (directory name : string) : io bool := fun w =>
  (w, Ok (bool_decide (is_Some (files_of w directory !! name)))).

(** [open(path, 'r').read()]: the file is opened in text mode, so what is
    read is the content with its line ends as line feeds. *)
Definition read (directory name : string) : io text := fun w =>
  match files_of w directory !! name with
  | Some content => (w, Ok (Text.universal_newlines content))
  | None => (w, Raise OSError)
  end.

(** [open(path, 'w').write(content)], where the line separator of the
    system is the line feed: the text is stored as it is. *)
Definition write (directory name : string) (content : text) : io unit :=
  fun w =>
  match fs w !! directory with
  | Some files =>
      (World (<[directory := <[name := content]> files]> (fs w)) (stdout w),
       Ok tt)
  | None => (w, Raise OSError)
  end.

(** A name that [dynamic_report_*.html] matches. *)
Definition per_house_name (name : string) : bool :=
  match Text.strip_prefix (txt "dynamic_report_") (txt name) with
  | Some rest => Text.startswith (rev (txt ".html")) (rev rest)
  | None => false
  end.


(** [sorted(glob.glob(os.path.join(directory, 'dynamic_report_*.html')))],
    as file names, for a [directory] without [has_magic]: the files of
    that directory whose name the pattern matches. *)
Definition glob_per_house (directory : string) : io (list string) := fun w =>
  (w, Ok (merge_sort String.le
            (filter (fun name => per_house_name name = true)
                    (elements (dom (files_of w directory)))))).

End IO.

(** ** [process_directory] *)

(** The body of the first loop, lines 191 to 212, for one file; the result
    is the new value of [modified]. *)
Definition patch_per_house (directory : string) (dry_run : bool)
    (name : string) (modified : nat) : io nat :=
  original ← IO.read directory name;
  patched ←
    (if Text.contains (txt "Detection Efficiency") original
     then IO.lift (patch_report original)
     else mret original);
  let patched := rename_titles patched (txt name) in
  if bool_decide (patched = original) then mret modified
  else
    let house_id := default (txt "?") (house_of (txt name)) in
    (if dry_run
     then IO.print (txt "  [DRY RUN] house " ++ house_id ++ txt ": would patch")
     else
       _ ← IO.write directory name patched;
       IO.print (txt "  house " ++ house_id ++ txt ": patched"));;
    mret (S modified).

(** The body of the second loop, lines 216 to 235, for one name. *)
Definition patch_aggregate (directory : string) (dry_run : bool)
    (name : string) (modified : nat) : io nat :=
  present ← IO.isfile directory name;
  if negb present then mret modified
  else
    original ← IO.read directory name;
    let patched := rename_titles original (txt name) in
    if bool_decide (patched = original) then mret modified
    else
      (if dry_run
       then IO.print (txt "  [DRY RUN] " ++ txt name ++ txt ": would rename title")
       else
         _ ← IO.write directory name patched;
         IO.print (txt "  " ++ txt name ++ txt ": renamed title"));;
      mret (S modified).

(** A [for] loop that threads the counter through its body. *)
Fixpoint for_each (body : string -> nat -> io nat) (names : list string)
    (modified : nat) : io nat :=
  match names with
  | [] => mret modified
  | name :: rest =>
      modified ← body name modified;
      for_each body rest modified
  end.

Definition process_directory (directory : string) (dry_run : bool) : io nat :=
  files ← IO.glob_per_house directory;
  modified ← for_each (patch_per_house directory dry_run) files 0%nat;
  modified ← for_each (patch_aggregate directory dry_run)
               ["report.html"; "nan_comparison.html"] modified;
  (if bool_decide (modified = 0%nat)
   then IO.print (txt "  No changes needed in " ++ txt directory)
   else mret tt);;
  mret modified.

(** ** [main] *)

Definition usage : text :=
  txt "Usage: python patch_efficiency_cap.py [--dry-run] <dir1> [dir2] ...".

(** The loop of [main], lines 252 to 257. *)
Fixpoint process_all (dry_run : bool) (dirs : list string) (total : nat)
  : io nat :=
  match dirs with
  | [] => mret total
  | d :: rest =>
      ok ← IO.isdir d;
      if negb ok then
        _ ← IO.print (txt "Warning: " ++ txt d
                      ++ txt " is not a directory, skipping");
        process_all dry_run rest total
      else
        _ ← IO.print (txt "Processing: " ++ txt d);
        n ← process_directory d dry_run;
        process_all dry_run rest (total + n)%nat
  end.

(** The directory arguments: [[a for a in sys.argv[1:] if a != '--dry-run']]. *)
Definition dirs_of (argv : list string) : list string :=
  filter (fun a => a ≠ "--dry-run") (drop 1 argv).

Definition main (argv : list string) : io unit :=
  if bool_decide (length argv < 2)%nat then
    _ ← IO.print usage;
    IO.raise (SystemExit 1)
  else
    let dry_run := bool_decide ("--dry-run" ∈ argv) in
    let dirs := dirs_of argv in
    total ← process_all dry_run dirs 0%nat;
    IO.print (ascii_of_nat 10 :: txt "Done. Patched "
              ++ PyFloat.decimal (N.of_nat total) ++ txt " files."
              ++ (if dry_run then txt " (dry run)" else [])).


(** ** Sample documents

    In the samples a backquote stands for the double quote of the markup. *)

Module Sample.

Definition markup (s : string) : text :=
  map (fun c => if Ascii.eqb c "`"%char then dq else c) (txt s).

(** A formula bar showing the three shares. *)
Definition bar (explained background unmatched : string) : text :=
  markup "<span style=`color:#28a745;`>Explained ("
  ++ txt explained
  ++ markup "%)</span> + <span style=`color:#6c757d;`>Background ("
  ++ txt background
  ++ markup "%)</span> + <span style=`color:#dc3545;`>Unmatched ("
  ++ txt unmatched
  ++ markup "%)</span> = 100%".

(** An efficiency equation. *)
Definition equation (a b c : string) : text :=
  txt "<strong>Efficiency</strong> = " ++ txt a ++ txt "% / " ++ txt b
  ++ markup "% = <strong style=`color:#dc3545;`>" ++ txt c
  ++ txt "%</strong>".

(** A hero card. *)
Definition hero (value : string) : text :=
  markup "<div style=`font-size: 2.8em; font-weight: bold; color: #dc3545;`>"
  ++ txt value
  ++ markup "%</div> <div style=`color: #666;`>Detection Efficiency</div>".

(** The sentence under the hero card. *)
Definition sentence (p q : string) : text :=
  txt "Of non-background power (" ++ txt p ++ txt "%), <strong>" ++ txt q
  ++ txt "%</strong> matched to devices.".

(** The data of a donut chart and its annotation. *)
Definition donut (v r : string) : text :=
  markup "`values`: [" ++ txt v ++ txt ", " ++ txt r ++ txt "]".
Definition annotation (n : string) : text :=
  markup "`text`: `" ++ txt n ++ markup "%`".

(** A report of the faulty run: 40 + 30 + 45 is not 100 and the efficiency
    is above 100 everywhere. *)
Definition faulty_report : text :=
  bar "40.0" "30.0" "45.0" ++ equation "40.0" "70.0" "114.3"
  ++ hero "114.3" ++ sentence "70.0" "114.3"
  ++ donut "114.3" "0" ++ annotation "114".

Definition patched_report : text :=
  bar "40.0" "30.0" "30.0" ++ equation "40.0" "70.0" "57.1"
  ++ hero "100.0" ++ sentence "70.0" "100.0"
  ++ donut "100.0" "0" ++ annotation "100".

(** A report whose shares add up although its displays are above 100. *)
Definition consistent_report : text :=
  bar "40.0" "30.0" "30.0" ++ equation "40.0" "70.0" "114.3"
  ++ hero "114.3" ++ annotation "114".

(** Shares that exceed 100 before Unmatched is counted. *)
Definition over_report : text := bar "80.0" "30.0" "5.0".
Definition over_patched : text := bar "80.0" "30.0" "0.0".

(** A report without formula bar. *)
Definition bare_report : text := hero "114.3".

(** An efficiency result written without decimals. *)
Definition terse_report : text :=
  bar "40.0" "30.0" "45.0" ++ equation "40.0" "70.0" "114".
Definition terse_patched : text :=
  bar "40.0" "30.0" "30.0" ++ equation "40.0" "70.0" "114".

(** A chart whose remainder is negative, as it is when the efficiency is
    above 100. *)
Definition negative_donut_report : text :=
  bar "40.0" "30.0" "45.0" ++ donut "114.3" "-14.3".
Definition negative_donut_patched : text :=
  bar "40.0" "30.0" "30.0" ++ donut "114.3" "-14.3".

(** Two formula bars, the first with shares that add to 100 before
    Unmatched is counted. *)
Definition two_bars : text :=
  bar "64.4" "35.6" "12.0" ++ bar "10.0" "20.0" "7.0".
Definition two_bars_once : text :=
  bar "64.4" "35.6" "-0.0" ++ bar "10.0" "20.0" "7.0".
Definition two_bars_twice : text :=
  bar "64.4" "35.6" "-0.0" ++ bar "10.0" "20.0" "70.0".

(** A share that is not a number. *)
Definition malformed_report : text := bar "1.2.3" "30.0" "45.0".

(** A machine with one empty report directory. *)
Definition empty_directory : world := World {[ "reports" := ∅ ]} [].


End Sample.

(** ** What a match is

    The pieces a pattern can take, item by item; the matcher is sound and
    complete for it. *)

Definition item_ok (it : Re.item) (cap : text) : Prop :=
  match it with
  | Re.Lit l => cap = l
  | Re.Many c => forallb c cap = true
  | Re.Many1 c => cap <> [] /\ forallb c cap = true
  end.

Definition matches (p : list Re.item) (caps : Re.pieces) : Prop :=
  Forall2 item_ok p caps.

(** ** Observers used in the statements *)

(** The sum of the three shares the first formula bar of a document shows. *)
Definition shown_total (html : text) : option PyFloat.float :=
  '(_, m, _) ← Re.search formula_pattern html;
  match PyFloat.of_text (formula_explained m),
        PyFloat.of_text (formula_background m),
        PyFloat.of_text (formula_unmatched m) with
  | Ok e, Ok b, Ok u => Some (PyFloat.add (PyFloat.add e b) u)
  | _, _, _ => None
  end.

(** The value the first hero card of a document shows. *)
Definition shown_hero (html : text) : option PyFloat.float :=
  '(_, m, _) ← Re.search hero_pattern html;
  match PyFloat.of_text (hero_value m) with
  | Ok v => Some v
  | Raise _ => None
  end.

(** ** The exact value of a float *)

(** Every finite binary64 number is a whole number of units of [2^-1100];
    [units x] is that number, the exact value of [x] on that scale. *)
Definition scale : Z := 1100.

Definition units (x : PyFloat.float) : Z :=
  match x with
  | S754_finite s m e => cond_Zopp s (Zpos m) * 2 ^ (e + scale)
  | _ => 0
  end.

(** The floats [units] measures: the zeros and the finite numbers, whose
    exponent is at least -1074. *)
Definition has_units (x : PyFloat.float) : Prop :=
  match x with
  | S754_zero _ => True
  | S754_finite _ _ e => -1074 <= e
  | _ => False
  end.

(** The unit in the last place of a float between 64 and 128, in
    [units]: [2^-46]. *)
Definition ulp7 : Z := 2 ^ (scale - 46).

(** A call that raises nothing but [ValueError]. *)
Definition only_value_error {A : Type} (r : result A) : Prop :=
  forall e, r = Raise e -> e = ValueError.


(** The dry run and the real run see the same content in every file of
    [directory] that is not in [written]. *)
Definition same_view (directory : string) (written : list string)
    (dry real : world) : Prop :=
  forall name, name ∉ written ->
    IO.files_of dry directory !! name = IO.files_of real directory !! name.

(** ** What [re.sub] does, without the counter

    [rewritten p f s out]: going through [s] from left to right, each match
    of [p] that starts where the scan stands has been replaced by what [f]
    returns for it, and every other character has been copied. *)

Inductive rewritten (p : list Re.item) (f : Re.pieces -> result text)
  : text -> text -> Prop :=
  | rewritten_end : rewritten p f [] []
  | rewritten_copy c s out :
      Re.match_here p (c :: s) = None ->
      rewritten p f s out ->
      rewritten p f (c :: s) (c :: out)
  | rewritten_match m r rep out :
      Re.match_here p (Re.whole m ++ r) = Some (m, r) ->
      Re.whole m <> [] ->
      f m = Ok rep ->
      rewritten p f r out ->
      rewritten p f (Re.whole m ++ r) (rep ++ out).

(** The hero card and the sentence with the value 100.0. *)
Definition hero_capped (m : Re.pieces) : text :=
  hero_open m ++ txt "100.0" ++ hero_close m.
Definition expl_capped (m : Re.pieces) : text :=
  expl_open m ++ txt "100.0" ++ expl_close m.

(** ** The numbers [patch_report] converts *)

(** The matches that the scan of [re.sub(p, f, s)] hands to [f], from left
    to right: the scan of [ReSub.sub_from] without the replacement. *)
Fixpoint scanned_from (p : list Re.item) (skip : nat) (s : text)
  : list Re.pieces :=
  match s with
  | [] => []
  | c :: s' =>
      match skip with
      | S k => scanned_from p k s'
      | O =>
          match Re.match_here p s with
          | Some (caps, _) =>
              caps :: scanned_from p (length (Re.whole caps) - 1) s'
          | None => scanned_from p 0 s'
          end
      end
  end.

Definition scanned (p : list Re.item) (s : text) : list Re.pieces :=
  scanned_from p 0 s.

(** The texts that sections 2, 3 and 4 and the pass over the chart data
    hand to [float] in the document they are given. *)
Definition eff_numbers (html : text) : list text :=
  match Re.search eff_formula_pattern html with
  | Some (_, m, _) => [eff_result m; eff_targetable m]
  | None => []
  end.

Definition hero_numbers (html : text) : list text :=
  match Re.search hero_pattern html with
  | Some (_, m, _) => [hero_value m]
  | None => []
  end.

Definition expl_numbers (html : text) : list text :=
  match Re.search expl_pattern html with
  | Some (_, m, _) => [expl_value m]
  | None => []
  end.

Definition donut_numbers (html : text) : list text :=
  map donut_value (scanned donut_pattern html).

(** The texts that [patch_report] hands to [float] on the document [html],
    section by section, each section in the document as the sections
    before it left it. The numbers of a fragment are all listed, those
    that come after one that [float] rejects too; the numbers of the
    annotations are left out, which are runs of digits. *)
Definition converted_displays (explained_pct : PyFloat.float) (html : text)
  : list text :=
  eff_numbers html
  ++ match fix_eff_formula explained_pct html with
     | Ok html =>
         hero_numbers html
         ++ match fix_hero html with
            | Ok html =>
                expl_numbers html
                ++ match fix_explanation html with
                   | Ok html => donut_numbers html
                   | Raise _ => []
                   end
            | Raise _ => []
            end
     | Raise _ => []
     end.

Definition converted (html : text) : list text :=
  match Re.search formula_pattern html with
  | None => []
  | Some (_, m, _) =>
      [formula_explained m; formula_background m; formula_unmatched m]
      ++ match PyFloat.of_text (formula_explained m),
               PyFloat.of_text (formula_background m),
               PyFloat.of_text (formula_unmatched m) with
         | Ok e, Ok b, Ok u =>
             if already_correct e b u then []
             else converted_displays e
                    (Text.replace (unmatched_label u)
                       (unmatched_label (new_unmatched e b)) html)
         | _, _, _ => []
         end
  end.

(** ** File names and house identifiers *)

(** [dynamic_report_] and a digit stand at the start of [s]. *)
Definition house_at (s : text) : Prop :=
  exists c t, s = txt "dynamic_report_" ++ c :: t /\ Re.is_digit c = true.

(** The file name holds [dynamic_report_<digits>], and the digits of the
    first such place are [house_id]: all the digits that stand there. *)
Definition names_house (filename house_id : text) : Prop :=
  exists pre rest,
    filename = pre ++ txt "dynamic_report_" ++ house_id ++ rest
    /\ house_id <> []
    /\ forallb Re.is_digit house_id = true
    /\ match rest with [] => True | c :: _ => Re.is_digit c = false end
    /\ forall i, (i < length pre)%nat -> ~ house_at (drop i filename).

(** The file name holds no [dynamic_report_<digits>]. *)
Definition names_no_house (filename : text) : Prop :=
  forall i, ~ house_at (drop i filename).

(** ** Texts that cannot overlap

    Two texts that start with the same character [c] are [apart] when every
    later [c] of one is followed by a character that is not the second
    character of the other, and they differ at a position both have. No
    occurrence of one can then share a character with an occurrence of the
    other. *)

Fixpoint followed_ok (c d : ascii) (s : text) : bool :=
  match s with
  | [] => true
  | a :: s' =>
      (if Ascii.eqb a c
       then match s' with b :: _ => negb (Ascii.eqb b d) | [] => false end
       else true)
      && followed_ok c d s'
  end.

Fixpoint differ (s t : text) : bool :=
  match s, t with
  | a :: s', b :: t' => negb (Ascii.eqb a b) || differ s' t'
  | _, _ => false
  end.

Definition apart (old w : text) : bool :=
  match old, w with
  | c :: d :: old', c' :: d' :: w' =>
      Ascii.eqb c c' && followed_ok c d' (d :: old')
      && followed_ok c d (d' :: w') && differ old w
  | _, _ => false
  end.

(** A text in which no occurrence of itself can start inside another: its
    first character is nowhere else followed by its second. *)
Definition self_apart (old : text) : bool :=
  match old with
  | c :: d :: old' => followed_ok c d (d :: old')
  | _ => false
  end.

(** ** What a run makes of one file *)

(** The names of the second loop of [process_directory], line 215. *)
Definition aggregate_names : list string :=
  ["report.html"; "nan_comparison.html"].

(** The content [process_directory] computes for the file [name] of the
    directory, from the text [original] read in it: lines 194 to 197 for a
    name that [dynamic_report_*.html] matches, line 223 for the two
    aggregate names; any other file is not looked at. *)
Definition renewed (name : string) (original : text) : result text :=
  if IO.per_house_name name then
    patched ← (if Text.contains (txt "Detection Efficiency") original
               then patch_report original else Ok original);
    Ok (rename_titles patched (txt name))
  else if bool_decide (name ∈ aggregate_names) then
    Ok (rename_titles original (txt name))
  else Ok original.

(** What a file holds after a run that made [content] of what it read in
    it: the file is written only when [content] is not what was read, and
    is otherwise left as it is stored. *)
Definition kept (stored content : text) : text :=
  if bool_decide (content = Text.universal_newlines stored) then stored
  else content.

(** The files of [directory] that a run would change, or did: those whose
    content, as it is read, is not what [renewed] makes of it. *)
Definition to_change (w : world) (directory : string) (name : string)
  : bool :=
  match IO.files_of w directory !! name with
  | Some content =>
      let original := Text.universal_newlines content in
      match renewed name original with
      | Ok patched => bool_decide (patched <> original)
      | Raise _ => false
      end
  | None => false
  end.



(** ** A sample machine *)

Module Machine.

(** One directory with the report of house 7 from the faulty run, the
    aggregate report and a file the script has no business with. *)
Definition report_7 : text :=
  house_title_old (txt "7") ++ Sample.faulty_report.

Definition reports : world :=
  World {[ "reports" :=
             {[ "dynamic_report_7.html" := report_7;
                "report.html" := aggregate_h1_old;
                "notes.txt" := txt "keep" ]} ]} [].


End Machine.

(** * Properties *)

(** Take a match of a given pattern apart, item by item. *)
Ltac invert_matches H :=
  unfold matches in H;
  repeat match goal with
         | H : Forall2 item_ok (_ :: _) _ |- _ =>
             inversion H; clear H; subst
         | H : Forall2 item_ok [] _ |- _ => inversion H; clear H; subst
         | H : item_ok (Re.Lit _) _ |- _ => cbn [item_ok] in H; subst
         | H : item_ok (Re.Many _) _ |- _ => cbn [item_ok] in H
         | H : item_ok (Re.Many1 _) _ |- _ => cbn [item_ok] in H; destruct H
         end.

(** ** Facts about texts *)

Section TextFacts.
Implicit Types (p s r old new a b w : text) (c : ascii).

Lemma strip_prefix_app p r : Text.strip_prefix p (p ++ r) = Some r.
Proof.
  induction p as [|c p IH]; simpl; [done|].
  by rewrite Ascii.eqb_refl.
Qed.

Lemma strip_prefix_Some p s r :
  Text.strip_prefix p s = Some r -> s = p ++ r.
Proof.
  revert s; induction p as [|c p IH]; intros [|d s] H; simplify_eq/=; try done.
  destruct (Ascii.eqb_spec c d) as [->|]; [|done].
  f_equal. by apply IH.
Qed.

Lemma startswith_app p r : Text.startswith p (p ++ r) = true.
Proof. unfold Text.startswith. by rewrite strip_prefix_app. Qed.

Lemma startswith_true p s :
  Text.startswith p s = true <-> exists r, s = p ++ r.
Proof.
  unfold Text.startswith. split.
  - destruct (Text.strip_prefix p s) as [r|] eqn:H; [|done].
    intros _. exists r. by apply strip_prefix_Some.
  - intros [r ->]. by rewrite strip_prefix_app.
Qed.

Lemma startswith_false p s :
  Text.startswith p s = false <-> forall r, s <> p ++ r.
Proof.
  rewrite <- not_true_iff_false, startswith_true. split.
  - intros H r E. apply H. by exists r.
  - intros H [r E]. by apply (H r).
Qed.

(** A prefix that fits in the first part of a text is a prefix of that
    part. *)
Lemma startswith_app_short p a b :
  (length p <= length a)%nat ->
  Text.startswith p (a ++ b) = Text.startswith p a.
Proof.
  revert a; induction p as [|c p IH]; intros [|d a] Hlen; simpl in *;
    try done; try lia.
  unfold Text.startswith in *. simpl.
  destruct (Ascii.eqb c d); [|done]. apply IH. lia.
Qed.

Lemma startswith_app_l p a b :
  Text.startswith p a = true -> Text.startswith p (a ++ b) = true.
Proof.
  rewrite !startswith_true. intros [r ->]. exists (r ++ b).
  by rewrite <- app_assoc.
Qed.

Lemma contains_true p s :
  Text.contains p s = true <->
  exists i, Text.startswith p (drop i s) = true.
Proof.
  induction s as [|c s IH]; simpl.
  - rewrite orb_false_r. split.
    + intros H. by exists 0%nat.
    + intros [i H]. by rewrite drop_nil in H.
  - rewrite orb_true_iff, IH. split.
    + intros [H|[i H]]; [by exists 0%nat|by exists (S i)].
    + intros [[|i] H]; [by left|right; by exists i].
Qed.

Lemma replace_nonempty old new s :
  old <> [] -> Text.replace old new s = Text.replace_from old new 0 s.
Proof. by destruct old. Qed.

Lemma replace_from_skip old new a r :
  Text.replace_from old new (length a) (a ++ r)
  = Text.replace_from old new 0 r.
Proof. induction a as [|c a IH]; simpl; [by destruct r|done]. Qed.

Lemma replace_from_hit old new r :
  old <> [] ->
  Text.replace_from old new 0 (old ++ r)
  = new ++ Text.replace_from old new 0 r.
Proof.
  destruct old as [|c old]; [done|intros _].
  change ((c :: old) ++ r) with (c :: (old ++ r)).
  cbn [Text.replace_from].
  change (c :: old ++ r) with ((c :: old) ++ r).
  rewrite startswith_app.
  replace (length (c :: old) - 1)%nat with (length old) by (simpl; lia).
  by rewrite replace_from_skip.
Qed.

Lemma replace_from_miss old new c s :
  Text.startswith old (c :: s) = false ->
  Text.replace_from old new 0 (c :: s)
  = c :: Text.replace_from old new 0 s.
Proof. intros H. cbn [Text.replace_from]. by rewrite H. Qed.

(** No occurrence starts in [w]: the scan copies [w]. *)
Lemma replace_from_inert old new w b :
  (forall i, (i < length w)%nat ->
             Text.startswith old (drop i (w ++ b)) = false) ->
  Text.replace_from old new 0 (w ++ b)
  = w ++ Text.replace_from old new 0 b.
Proof.
  induction w as [|c w IH]; intros H; [done|].
  change ((c :: w) ++ b) with (c :: (w ++ b)).
  rewrite replace_from_miss.
  - simpl. f_equal. apply IH. intros i Hi. apply (H (S i)). simpl. lia.
  - apply (H 0%nat). simpl. lia.
Qed.

(** Every occurrence that starts in [a] ends in [a]: the scan of
    [a ++ r] is the scan of [a] followed by the scan of [r]. *)
Lemma replace_from_app old new a r k :
  old <> [] ->
  (forall i, (i < length a)%nat ->
             Text.startswith old (drop i (a ++ r)) = true ->
             (i + length old <= length a)%nat) ->
  (k <= length a)%nat ->
  Text.replace_from old new k (a ++ r)
  = Text.replace_from old new k a ++ Text.replace_from old new 0 r.
Proof.
  intros Hold. revert k.
  induction a as [|c a IH]; intros k H Hk.
  - simpl in Hk. assert (k = 0%nat) as -> by lia. by destruct r.
  - assert (forall i, (i < length a)%nat ->
              Text.startswith old (drop i (a ++ r)) = true ->
              (i + length old <= length a)%nat) as H'.
    { intros i Hi Hs. specialize (H (S i)). simpl in H. 
      specialize (H ltac:(lia) Hs). lia. }
    change ((c :: a) ++ r) with (c :: (a ++ r)).
    destruct k as [|k]; cbn [Text.replace_from].
    + destruct (Text.startswith old (c :: a ++ r)) eqn:Hs.
      * pose proof (H 0%nat ltac:(simpl; lia) Hs) as Hlen. simpl in Hlen.
        change (c :: a ++ r) with ((c :: a) ++ r) in Hs.
        rewrite startswith_app_short in Hs by (simpl; lia). rewrite Hs.
        rewrite <- app_assoc. f_equal. apply IH; [done|].
        destruct old; [done|]. simpl in *. lia.
      * assert (Text.startswith old (c :: a) = false) as ->.
        { apply not_true_iff_false. intros Ht.
          apply (startswith_app_l _ _ r) in Ht. simpl in Ht. congruence. }
        simpl. f_equal. apply IH; [done|lia].
    + apply IH; [done|]. simpl in Hk. lia.
Qed.

(** [s.replace(old, new)] is [new.join(s.split(old))]: the result
    differs from [s] only in that occurrences of [old] became [new]. *)
Lemma replace_from_join old new s k :
  old <> [] ->
  exists parts, parts <> []
    /\ drop k s = Text.join old parts
    /\ Text.replace_from old new k s = Text.join new parts.
Proof.
  intros Hold. revert k.
  induction s as [|c s IH]; intros k.
  - exists [[]]. by rewrite drop_nil.
  - destruct k as [|k]; cbn [Text.replace_from].
    + destruct (Text.startswith old (c :: s)) eqn:Hs.
      * apply startswith_true in Hs as [r Hs].
        destruct old as [|d old]; [done|]. simplify_eq/=.
        destruct (IH (length old)) as (parts & Hne & Hd & Hr).
        exists ([] :: parts). split; [done|].
        rewrite drop_app_length in Hd. rewrite Nat.sub_0_r, Hr.
        destruct parts; [done|]. simpl. split; [|done].
        by rewrite Hd.
      * destruct (IH 0%nat) as (parts & Hne & Hd & Hr).
        destruct parts as [|p ps]; [done|].
        exists ((c :: p) :: ps). split; [done|].
        rewrite Hr. rewrite drop_0 in *. rewrite Hd.
        by destruct ps.
    + destruct (IH k) as (parts & Hne & Hd & Hr).
      exists parts. by rewrite skipn_cons.
Qed.

Lemma replace_join old new s :
  old <> [] ->
  exists parts, s = Text.join old parts
    /\ Text.replace old new s = Text.join new parts.
Proof.
  intros Hold. destruct (replace_from_join old new s 0 Hold)
    as (parts & _ & Hd & Hr).
  exists parts. destruct old; [done|]. by rewrite drop_0 in Hd.
Qed.

Lemma replace_absent old new s :
  old <> [] -> Text.contains old s = false ->
  Text.replace old new s = s.
Proof.
  intros Hold H. destruct old as [|d old]; [done|]. unfold Text.replace.
  rewrite <- (app_nil_r s) at 1. rewrite replace_from_inert.
  - by rewrite app_nil_r.
  - intros i _. rewrite app_nil_r. apply not_true_iff_false. intros Hs.
    apply not_true_iff_false in H. apply H, contains_true. by exists i.
Qed.

Lemma replace_same old s : old <> [] -> Text.replace old old s = s.
Proof.
  intros Hold. destruct (replace_join old old s Hold) as (parts & H1 & H2).
  congruence.
Qed.

(** The first occurrence of [old] is replaced where it stands. *)
Lemma replace_first old new a b :
  old <> [] ->
  (forall i, (i < length a)%nat ->
             Text.startswith old (drop i (a ++ old ++ b)) = false) ->
  Text.replace old new (a ++ old ++ b)
  = a ++ new ++ Text.replace old new b.
Proof.
  intros Hold H. rewrite !replace_nonempty by done.
  by rewrite replace_from_inert, replace_from_hit.
Qed.

End TextFacts.

(** ** Facts about the matcher *)

Section ReFacts.
Implicit Types (p : list Re.item) (s r pre post : text) (caps m : Re.pieces).

Lemma greedy_sound {R} (c : ascii -> bool) (k : text -> option R) s cap x :
  Re.greedy c k s = Some (cap, x) ->
  forallb c cap = true /\ exists s', s = cap ++ s' /\ k s' = Some x.
Proof.
  revert cap x. induction s as [|a s IH]; intros cap x; simpl.
  - destruct (k []) as [y|] eqn:Hk; intros; simplify_eq/=. eauto.
  - destruct (c a) eqn:Hc.
    + destruct (Re.greedy c k s) as [[cap' y]|] eqn:Hg.
      * intros; simplify_eq/=. destruct (IH _ _ eq_refl) as (Hall & s' & -> & Hk).
        rewrite Hc, Hall. eauto.
      * destruct (k (a :: s)) as [y|] eqn:Hk; intros; simplify_eq/=. eauto.
    + destruct (k (a :: s)) as [y|] eqn:Hk; intros; simplify_eq/=. eauto.
Qed.

Lemma greedy_stop {R} (c : ascii -> bool) (k : text -> option R) s :
  is_Some (k s) -> is_Some (Re.greedy c k s).
Proof.
  intros [x Hk]. destruct s as [|a s]; simpl; rewrite ?Hk; simpl; [done|].
  destruct (c a); [|done]. by destruct (Re.greedy c k s) as [[]|].
Qed.

Lemma greedy_complete {R} (c : ascii -> bool) (k : text -> option R) cap s :
  forallb c cap = true -> is_Some (k s) -> is_Some (Re.greedy c k (cap ++ s)).
Proof.
  intros Hall Hk. induction cap as [|a cap IH]; simpl in *.
  - by apply greedy_stop.
  - apply andb_true_iff in Hall as [-> Hall].
    destruct (IH Hall) as [[cap' y] ->]. done.
Qed.

Lemma match_here_sound p s caps r :
  Re.match_here p s = Some (caps, r) ->
  matches p caps /\ s = concat caps ++ r.
Proof.
  revert s caps. induction p as [|it p IH]; intros s caps H; simpl in H.
  - simplify_eq. split; [constructor|done].
  - destruct it as [l|c|c].
    + destruct (Text.strip_prefix l s) as [s'|] eqn:Hl; simplify_eq/=.
      destruct (Re.match_here p s') as [[caps' r']|] eqn:Hm; simplify_eq/=.
      apply strip_prefix_Some in Hl as ->.
      destruct (IH _ _ Hm) as [? ->].
      split; [by constructor|by rewrite <- app_assoc].
    + destruct (Re.greedy c (Re.match_here p) s) as [[cap [caps' r']]|] eqn:Hg;
        simplify_eq/=.
      apply greedy_sound in Hg as (Hall & s' & -> & Hm).
      destruct (IH _ _ Hm) as [? ->].
      split; [by constructor|by rewrite <- app_assoc].
    + destruct s as [|a s]; [done|]. destruct (c a) eqn:Hc; [|done].
      destruct (Re.greedy c (Re.match_here p) s) as [[cap [caps' r']]|] eqn:Hg;
        simplify_eq/=.
      apply greedy_sound in Hg as (Hall & s' & -> & Hm).
      destruct (IH _ _ Hm) as [? ->].
      split; [constructor; [|done]|by rewrite <- app_assoc].
      split; [done|]. simpl. by rewrite Hc.
Qed.

Lemma match_here_complete p caps r :
  matches p caps -> is_Some (Re.match_here p (concat caps ++ r)).
Proof.
  induction 1 as [|it cap p caps Hit _ IH]; simpl; [done|].
  rewrite <- app_assoc. destruct it as [l|c|c]; simpl in Hit.
  - subst. rewrite strip_prefix_app. simpl. by destruct IH as [[] ->].
  - destruct (greedy_complete c _ cap _ Hit IH) as [[cap' [caps' r']] ->].
    done.
  - destruct Hit as [Hne Hall]. destruct cap as [|a cap]; [done|].
    simpl in *. apply andb_true_iff in Hall as [-> Hall].
    destruct (greedy_complete c _ cap _ Hall IH) as [[cap' [caps' r']] ->].
    done.
Qed.

Lemma search_sound p s pre m post :
  Re.search p s = Some (pre, m, post) ->
  s = pre ++ Re.whole m ++ post
  /\ Re.match_here p (Re.whole m ++ post) = Some (m, post)
  /\ forall i, (i < length pre)%nat -> Re.match_here p (drop i s) = None.
Proof.
  revert pre. induction s as [|a s IH]; intros pre; simpl.
  - destruct (Re.match_here p []) as [[caps r]|] eqn:Hm; intros; simplify_eq/=.
    destruct (match_here_sound _ _ _ _ Hm) as [_ E]. unfold Re.whole.
    rewrite <- E. repeat split; [done|]. intros; lia.
  - destruct (Re.match_here p (a :: s)) as [[caps r]|] eqn:Hm.
    + intros; simplify_eq/=.
      destruct (match_here_sound _ _ _ _ Hm) as [_ E]. unfold Re.whole.
      rewrite <- E. repeat split; [done|]. intros; lia.
    + destruct (Re.search p s) as [[[pre' caps] r]|] eqn:Hs; intros;
        simplify_eq/=.
      destruct (IH _ eq_refl) as (-> & Hhere & Hbefore).
      repeat split; [done|]. intros [|i] Hi; [done|].
      apply Hbefore. simpl in Hi. lia.
Qed.

Lemma search_None p s i :
  Re.search p s = None -> Re.match_here p (drop i s) = None.
Proof.
  revert i. induction s as [|a s IH]; intros i; simpl.
  - rewrite drop_nil. by destruct (Re.match_here p []) as [[]|].
  - destruct (Re.match_here p (a :: s)) as [[caps r]|] eqn:Hm; [done|].
    destruct (Re.search p s) as [[[pre' caps] r]|] eqn:Hs; [done|].
    intros _. destruct i; [done|]. by apply IH.
Qed.

Lemma search_matches p s pre m post :
  Re.search p s = Some (pre, m, post) -> matches p m.
Proof.
  intros H. apply search_sound in H as (_ & H & _).
  by apply match_here_sound in H as [? _].
Qed.

(** The text of the match found by [search] does not occur before the
    match. *)
Lemma search_leftmost p s pre m post i :
  Re.search p s = Some (pre, m, post) -> (i < length pre)%nat ->
  Text.startswith (Re.whole m) (drop i s) = false.
Proof.
  intros H Hi. pose proof (search_matches _ _ _ _ _ H) as Hm.
  apply search_sound in H as (_ & _ & Hbefore).
  apply not_true_iff_false. intros [r E]%startswith_true.
  specialize (Hbefore i Hi). rewrite E in Hbefore.
  destruct (match_here_complete p m r Hm) as [? Hs]. unfold Re.whole in *.
  congruence.
Qed.

(** [s.replace(m.group(0), new)] after [m = re.search(p, s)]: the match
    is replaced where it was found, the text before it is kept, and the
    text after it is scanned for more copies of the match. *)
Lemma replace_found p s pre m post new :
  Re.search p s = Some (pre, m, post) -> Re.whole m <> [] ->
  Text.replace (Re.whole m) new s
  = pre ++ new ++ Text.replace (Re.whole m) new post.
Proof.
  intros H Hne. pose proof (search_sound _ _ _ _ _ H) as (E & _ & _).
  rewrite E at 1. apply replace_first; [done|].
  intros i Hi. rewrite <- E. by eapply search_leftmost.
Qed.

End ReFacts.

(** ** The directory walker *)

Section Walker.
Implicit Types (w dry real : world) (directory name : string).

Lemma io_bind_run {A B} (f : A -> io B) (m : io A) w :
  (m ≫= f) w
  = match m w with
    | (w', Ok a) => f a w'
    | (w', Raise e) => (w', Raise e)
    end.
Proof. done. Qed.


Lemma same_view_print directory written dry real l1 l2 :
  same_view directory written dry real ->
  same_view directory written (IO.print l1 dry).1 (IO.print l2 real).1.
Proof. done. Qed.







End Walker.

Section WalkerClaims.
Implicit Types (w : world) (directory : string).


(** The scenario of the specification: a directory without matching file. *)
Example process_directory_nothing_to_do :
  process_directory "reports" false Sample.empty_directory
  = (World {[ "reports" := ∅ ]} [txt "  No changes needed in reports"],
     Ok 0%nat).
Proof. vm_compute. reflexivity. Qed.

End WalkerClaims.

(** ** What [patch_report] can raise *)

Section Raises.
#[local] Arguments txt : simpl never.

Lemma of_text_raises s : only_value_error (PyFloat.of_text s).
Proof.
  unfold only_value_error, PyFloat.of_text. intros e.
  destruct (PyFloat.cut_at_dot s) as [ip f].
  destruct (ip ++ default [] f); [congruence|].
  destruct (PyFloat.digits_val 0 _); congruence.
Qed.

Lemma bind_raises {A B} (m : result A) (f : A -> result B) :
  only_value_error m -> (forall a, only_value_error (f a)) ->
  only_value_error (m ≫= f).
Proof.
  intros Hm Hf e. destruct m as [a|e']; simpl.
  - apply Hf.
  - intros; simplify_eq. by apply Hm.
Qed.

Lemma ok_raises {A} (a : A) : only_value_error (Ok a).
Proof. by intros e. Qed.

Lemma sub_from_raises p f skip s :
  (forall m, only_value_error (f m)) ->
  only_value_error (ReSub.sub_from p f skip s).
Proof.
  intros Hf. revert skip. induction s as [|c s IH]; intros skip; simpl.
  - apply ok_raises.
  - destruct skip; [|apply IH].
    destruct (Re.match_here p (c :: s)) as [[caps r]|].
    + apply bind_raises; [apply Hf|]. intros rep.
      apply bind_raises; [apply IH|]. intros; apply ok_raises.
    + apply bind_raises; [apply IH|]. intros; apply ok_raises.
Qed.

Lemma fix_displays_raises explained_pct html :
  only_value_error (fix_displays explained_pct html).
Proof.
  unfold fix_displays.
  apply bind_raises.
  { unfold fix_eff_formula. destruct (Re.search _ _) as [[[? m] ?]|];
      [|apply ok_raises].
    repeat (apply bind_raises; [apply of_text_raises|intros ?]).
    apply ok_raises. }
  intros ?. unfold fix_capped. apply bind_raises.
  { unfold fix_hero. destruct (Re.search _ _) as [[[? m] ?]|];
      [|apply ok_raises].
    apply bind_raises; [apply of_text_raises|intros ?].
    destruct (PyFloat.lt _ _); apply ok_raises. }
  intros ?. apply bind_raises.
  { unfold fix_explanation. destruct (Re.search _ _) as [[[? m] ?]|];
      [|apply ok_raises].
    apply bind_raises; [apply of_text_raises|intros ?].
    destruct (PyFloat.lt _ _); apply ok_raises. }
  intros ?. apply bind_raises.
  { apply sub_from_raises. intros m. unfold fix_donut.
    apply bind_raises; [apply of_text_raises|intros ?].
    destruct (PyFloat.lt _ _); apply ok_raises. }
  intros ?. apply sub_from_raises. intros m. unfold fix_donut_annotation.
  apply bind_raises; [apply of_text_raises|intros ?].
  destruct (PyFloat.lt _ _); apply ok_raises.
Qed.

Lemma patch_report_raises html : only_value_error (patch_report html).
Proof.
  unfold patch_report. destruct (Re.search _ _) as [[[? m] ?]|];
    [|apply ok_raises].
  repeat (apply bind_raises; [apply of_text_raises|intros ?]).
  destruct (already_correct _ _ _); [apply ok_raises|].
  apply fix_displays_raises.
Qed.

End Raises.

(** ** The command driver *)

Section Driver.
Implicit Types (w : world) (argv dirs : list string).











End Driver.

Section DriverClaims.
Implicit Types (w : world) (argv : list string).




End DriverClaims.

Section Corrector.
#[local] Arguments txt : simpl never.
Implicit Types (html pre post : text) (m : Re.pieces).

(** What [patch_report] does once the formula bar is found with shares
    that do not add up: the label is replaced, then the displays are
    fixed. *)
Lemma patch_report_corrects html pre m post e b u :
  Re.search formula_pattern html = Some (pre, m, post) ->
  PyFloat.of_text (formula_explained m) = Ok e ->
  PyFloat.of_text (formula_background m) = Ok b ->
  PyFloat.of_text (formula_unmatched m) = Ok u ->
  already_correct e b u = false ->
  patch_report html
  = fix_displays e
      (Text.replace (unmatched_label u) (unmatched_label (new_unmatched e b))
                    html).
Proof.
  intros Hs He Hb Hu Hoff. unfold patch_report.
  rewrite Hs, He. simpl. rewrite Hb. simpl. rewrite Hu. simpl.
  by rewrite Hoff.
Qed.

(** C6. A document whose formula bar is found and whose three shares add to
    100 within 0.5 is returned as it is: no other fragment is looked at. *)
Theorem patch_report_already_correct html pre m post e b u :
  Re.search formula_pattern html = Some (pre, m, post) ->
  PyFloat.of_text (formula_explained m) = Ok e ->
  PyFloat.of_text (formula_background m) = Ok b ->
  PyFloat.of_text (formula_unmatched m) = Ok u ->
  already_correct e b u = true ->
  patch_report html = Ok html.
Proof.
  intros Hs He Hb Hu Hoff. unfold patch_report.
  rewrite Hs, He. simpl. rewrite Hb. simpl. rewrite Hu. simpl.
  by rewrite Hoff.
Qed.

(** The no-op on a report whose displays are all above 100. *)
Lemma patch_report_already_correct_witness :
  patch_report Sample.consistent_report = Ok Sample.consistent_report.
Proof.
  eapply patch_report_already_correct.
  - vm_compute. reflexivity.
  - vm_compute. reflexivity.
  - vm_compute. reflexivity.
  - vm_compute. reflexivity.
  - vm_compute. reflexivity.
Defined.

(** C4 at the chart of a report above 100: the remainder is negative, the
    pattern wants digits and dots there, and the pair is left as it was
    while the formula bar of the same document is rewritten. *)
Theorem donut_negative_remainder_untouched :
  patch_report Sample.negative_donut_report
  = Ok Sample.negative_donut_patched
  /\ Re.search donut_pattern Sample.negative_donut_report = None.
Proof. split; vm_compute; reflexivity. Qed.

(** C5 at a document with two formula bars: the first pass writes a
    negative zero into the first bar, which the pattern then no longer
    matches, and the second pass rewrites the second bar. *)
Theorem patch_report_twice_differs :
  patch_report Sample.two_bars = Ok Sample.two_bars_once
  /\ patch_report Sample.two_bars_once = Ok Sample.two_bars_twice
  /\ Sample.two_bars_once <> Sample.two_bars_twice.
Proof. split_and!; [vm_compute; reflexivity..|]. vm_compute. discriminate. Qed.

End Corrector.

(** ** Occurrences that cannot overlap *)

Section Apart.
Implicit Types (s t r old new w x y : text) (c d : ascii).

Lemma followed_ok_spec c d s j :
  followed_ok c d s = true -> s !! j = Some c ->
  exists e, s !! S j = Some e /\ e <> d.
Proof.
  revert j. induction s as [|a s IH]; intros j H Hj; [done|].
  simpl in H. apply andb_true_iff in H as [Ha Hs].
  destruct j as [|j]; simpl in *.
  - simplify_eq. rewrite Ascii.eqb_refl in Ha. destruct s as [|b s]; [done|].
    exists b. split; [done|]. intros ->. by rewrite Ascii.eqb_refl in Ha.
  - by apply IH.
Qed.

Lemma followed_ok_app c d s t :
  followed_ok c d s = true -> followed_ok c d t = true ->
  followed_ok c d (s ++ t) = true.
Proof.
  intros Hs Ht. induction s as [|a s IH]; [done|].
  simpl in *. apply andb_true_iff in Hs as [Ha Hs].
  rewrite IH by done. rewrite andb_true_r.
  destruct (Ascii.eqb a c); [|done]. by destruct s.
Qed.

Lemma followed_ok_without c d s :
  forallb (fun a => negb (Ascii.eqb a c)) s = true ->
  followed_ok c d s = true.
Proof.
  induction s as [|a s IH]; [done|]. simpl.
  intros [Ha Hs]%andb_true_iff. rewrite IH by done.
  by destruct (Ascii.eqb a c).
Qed.

Lemma differ_spec s t :
  differ s t = true ->
  exists k a b, s !! k = Some a /\ t !! k = Some b /\ a <> b.
Proof.
  revert t. induction s as [|a s IH]; intros [|b t] H; try done.
  simpl in H. apply orb_true_iff in H as [H|H].
  - exists 0%nat, a, b. repeat split. intros ->.
    by rewrite Ascii.eqb_refl in H.
  - destruct (IH _ H) as (k & a' & b' & ? & ? & ?).
    by exists (S k), a', b'.
Qed.

Lemma differ_app_l s r t : differ s t = true -> differ (s ++ r) t = true.
Proof.
  revert t. induction s as [|a s IH]; intros [|b t] H; try done.
  simpl in *. apply orb_true_iff in H as [->|H]; [done|].
  rewrite IH by done. apply orb_true_r.
Qed.

(** The characters of an occurrence. *)
Lemma startswith_lookup old s i k a :
  Text.startswith old (drop i s) = true -> old !! k = Some a ->
  s !! (i + k)%nat = Some a.
Proof.
  intros [r E]%startswith_true Hk.
  rewrite <- lookup_drop, E. by apply lookup_app_l_Some.
Qed.

Lemma apart_no_overlap old w x y i :
  apart old w = true ->
  (i < length x + length w)%nat -> (length x < i + length old)%nat ->
  Text.startswith old (drop i (x ++ w ++ y)) = false.
Proof.
  intros Hap Hi Hx. apply not_true_iff_false. intros Hocc.
  destruct old as [|c [|d old]]; try done.
  destruct w as [|c' [|d' w]]; try done.
  unfold apart in Hap.
  apply andb_true_iff in Hap as [Hap Hdiff].
  apply andb_true_iff in Hap as [Hap Hw].
  apply andb_true_iff in Hap as [Hc Hold].
  apply Ascii.eqb_eq in Hc as <-.
  set (o := c :: d :: old) in *. set (v := c :: d' :: w) in *.
  assert (forall k a, v !! k = Some a ->
            (x ++ v ++ y) !! (length x + k)%nat = Some a) as Hv.
  { intros k a Hk. rewrite lookup_app_r by lia.
    replace (length x + k - length x)%nat with k by lia.
    by apply lookup_app_l_Some. }
  destruct (decide (i = length x)) as [->|Hne].
  - apply differ_spec in Hdiff as (k & a & b & Ha & Hb & Hab).
    pose proof (startswith_lookup _ _ _ _ _ Hocc Ha).
    pose proof (Hv _ _ Hb). congruence.
  - destruct (decide (i < length x)%nat) as [Hlt|Hge].
    + (* the occurrence starts before [w] and runs into it *)
      remember (length x - i)%nat as j0 eqn:Ej.
      assert (is_Some (o !! j0)) as [a Ha].
      { apply lookup_lt_is_Some. lia. }
      pose proof (startswith_lookup _ _ _ _ _ Hocc Ha) as H1.
      replace (i + j0)%nat with (length x + 0)%nat in H1 by lia.
      rewrite (Hv 0%nat c eq_refl) in H1.
      assert (a = c) as -> by congruence. clear H1.
      destruct j0 as [|j]; [lia|].
      destruct (followed_ok_spec _ _ _ j Hold Ha) as (e & He & Hed).
      pose proof (startswith_lookup o _ _ (S (S j)) e Hocc He) as H2.
      replace (i + S (S j))%nat with (length x + 1)%nat in H2 by lia.
      rewrite (Hv 1%nat d' eq_refl) in H2. congruence.
    + (* the occurrence starts inside [w] *)
      remember (i - length x)%nat as j0 eqn:Ej.
      assert (is_Some (v !! j0)) as [a Ha].
      { apply lookup_lt_is_Some. simpl in *. lia. }
      pose proof (Hv _ _ Ha) as H1.
      replace (length x + j0)%nat with (i + 0)%nat in H1 by lia.
      rewrite (startswith_lookup o _ _ 0%nat c Hocc eq_refl) in H1.
      assert (a = c) as -> by congruence. clear H1.
      destruct j0 as [|j]; [lia|].
      destruct (followed_ok_spec _ _ _ j Hw Ha) as (e & He & Hed).
      pose proof (Hv (S (S j)) e He) as H2.
      replace (length x + S (S j))%nat with (i + 1)%nat in H2 by lia.
      rewrite (startswith_lookup o _ _ 1%nat d Hocc eq_refl) in H2.
      congruence.
Qed.

(** A text that is [apart] from [old] is copied by the replacement of
    [old], whatever stands around it. *)
Lemma replace_apart old new w a b :
  apart old w = true ->
  Text.replace old new (a ++ w ++ b)
  = Text.replace old new a ++ w ++ Text.replace old new b.
Proof.
  intros Hap. assert (old <> []) as Hold by (by destruct old).
  rewrite !replace_nonempty by done.
  rewrite replace_from_app; [|done| |lia].
  - f_equal. apply replace_from_inert. intros i Hi.
    apply (apart_no_overlap old w [] b i Hap); simpl; [lia|].
    destruct old; [done|simpl; lia].
  - intros i Hi Hocc.
    destruct (decide (i + length old <= length a)%nat); [done|].
    rewrite (apart_no_overlap old w a b i Hap) in Hocc; [done|lia|lia].
Qed.

End Apart.

(** ** [rename_titles] *)

Section Titles.
Implicit Types (html filename house_id a b : text).

Lemma house_of_digits filename house_id :
  house_of filename = Some house_id ->
  forallb Re.is_digit house_id = true.
Proof.
  unfold house_of. destruct (Re.search _ _) as [[[pre m] post]|] eqn:Hs;
    [|done].
  intros; simplify_eq/=. apply search_matches in Hs.
  inversion Hs as [|? l ? ms _ Hm]; subst.
  inversion Hm as [|? d ? ms' Hd Hm']; subst.
  inversion Hm'; subst. destruct Hd as [_ Hd].
  unfold Re.span. simpl. by rewrite app_nil_r.
Qed.

Lemma digit_not_lt c :
  Re.is_digit c = true -> negb (Ascii.eqb c "<"%char) = true.
Proof. by destruct c as [[] [] [] [] [] [] [] []]. Qed.

Lemma digits_without_lt house_id :
  forallb Re.is_digit house_id = true ->
  forallb (fun c => negb (Ascii.eqb c "<"%char)) house_id = true.
Proof.
  induction house_id as [|c s IH]; [done|]. simpl.
  intros [Hc Hs]%andb_true_iff. by rewrite digit_not_lt, IH.
Qed.

(** A text [c d P id Q] is [apart] from [w] as soon as its fixed parts
    are and [id] is free of [c]. *)
Lemma apart_framed c d (P Q id w : text) :
  apart (c :: d :: P) w = true ->
  followed_ok c (default d (w !! 1%nat)) Q = true ->
  forallb (fun x => negb (Ascii.eqb x c)) id = true ->
  apart (c :: d :: P ++ id ++ Q) w = true.
Proof.
  destruct w as [|c' [|d' w]]; try done. unfold apart.
  change (default d ((c' :: d' :: w) !! 1%nat)) with d'.
  rewrite !andb_true_iff. intros [[[Hc HP] Hw] Hdiff] HQ Hid.
  split_and!; [done| |done|].
  - change (d :: P ++ id ++ Q) with ((d :: P) ++ id ++ Q).
    apply followed_ok_app; [done|].
    apply followed_ok_app; [|done]. by apply followed_ok_without.
  - change (c :: d :: P ++ id ++ Q) with ((c :: d :: P) ++ id ++ Q).
    by apply differ_app_l.
Qed.

Lemma house_strings_apart house_id :
  forallb Re.is_digit house_id = true ->
  apart (house_title_old house_id) aggregate_title_old = true
  /\ apart (house_title_old house_id) aggregate_h1_old = true
  /\ apart (house_h1_old house_id) aggregate_title_old = true
  /\ apart (house_h1_old house_id) aggregate_h1_old = true.
Proof.
  intros Hd%digits_without_lt.
  split_and!.
  - apply (apart_framed "<" "t" (txt "itle>Dynamic Threshold Report - House ")
             (txt "</title>") house_id); [done|done|done].
  - apply (apart_framed "<" "t" (txt "itle>Dynamic Threshold Report - House ")
             (txt "</title>") house_id); [done|done|done].
  - apply (apart_framed "<" "h" (txt "1>Dynamic Threshold Analysis - House ")
             (txt "</h1>") house_id); [done|done|done].
  - apply (apart_framed "<" "h" (txt "1>Dynamic Threshold Analysis - House ")
             (txt "</h1>") house_id); [done|done|done].
Qed.

(** The scenario of the specification: the report of house 7. *)
Example rename_titles_house_7 :
  rename_titles
    (house_title_old (txt "7") ++ aggregate_title_old
     ++ house_h1_old (txt "7") ++ house_title_old (txt "12"))
    (txt "dynamic_report_7.html")
  = txt "<title>Dynamic Threshold NaN Filled - House 7</title>"
    ++ aggregate_title_old
    ++ txt "<h1>Dynamic Threshold NaN Filled - House 7</h1>"
    ++ house_title_old (txt "12").
Proof. vm_compute. reflexivity. Qed.

End Titles.

(** ** The efficiency equation *)

Section Equation.
#[local] Arguments txt : simpl never.
Implicit Types (html pre post : text) (m : Re.pieces).

(** A result that stands at the end of a fragment and nowhere before is
    exchanged where it stands. *)
Lemma replace_tail c d (H C C' T : text) :
  C <> [] -> followed_ok c d (H ++ C) = true ->
  Text.replace (C ++ c :: d :: T) (C' ++ c :: d :: T) (H ++ C ++ c :: d :: T)
  = H ++ C' ++ c :: d :: T.
Proof.
  intros HC Hok.
  replace (H ++ C ++ c :: d :: T) with (H ++ (C ++ c :: d :: T) ++ [])
    by (by rewrite app_nil_r).
  rewrite replace_first; [|by destruct C|].
  { rewrite replace_nonempty by (by destruct C). simpl.
    by rewrite app_nil_r. }
  intros i Hi. apply not_true_iff_false. intros Hocc.
  rewrite app_nil_r in Hocc.
  pose proof (startswith_lookup _ _ i (length C) c Hocc) as H1.
  pose proof (startswith_lookup _ _ i (S (length C)) d Hocc) as H2.
  rewrite lookup_app_r, Nat.sub_diag in H1 by lia.
  rewrite lookup_app_r in H2 by lia.
  replace (S (length C) - length C)%nat with 1%nat in H2 by lia.
  specialize (H1 eq_refl). specialize (H2 eq_refl).
  rewrite app_assoc in H1, H2.
  assert (i + length C < length (H ++ C))%nat as Hlt.
  { rewrite length_app. lia. }
  rewrite lookup_app_l in H1 by done.
  destruct (followed_ok_spec _ _ _ _ Hok H1) as (e & He & Hne).
  apply (lookup_app_l_Some _ (c :: d :: T)) in He.
  replace (i + S (length C))%nat with (S (i + length C)) in H2 by lia.
  congruence.
Qed.

Lemma digit_or_dot_not_percent x :
  Re.digit_or_dot x = true -> negb (Ascii.eqb x "%"%char) = true.
Proof. by destruct x as [[] [] [] [] [] [] [] []]. Qed.

Lemma number_without_percent s :
  forallb Re.digit_or_dot s = true ->
  forallb (fun x => negb (Ascii.eqb x "%"%char)) s = true.
Proof.
  induction s as [|x s IH]; [done|]. simpl.
  intros [Hx Hs]%andb_true_iff. by rewrite digit_or_dot_not_percent, IH.
Qed.

(** The equation with its result exchanged, when the result is written as
    [fmt1] writes it and the colour holds no percent sign. *)
Lemma eff_fragment_rewritten m old_eff new_eff :
  matches eff_formula_pattern m ->
  PyFloat.fmt1 old_eff = eff_result m ->
  forallb (fun x => negb (Ascii.eqb x "%"%char)) (eff_colour m) = true ->
  Re.whole m = eff_head m ++ eff_result m ++ txt "%</strong>"
  /\ Text.replace (eff_label old_eff) (eff_label new_eff) (Re.whole m)
     = eff_head m ++ PyFloat.fmt1 new_eff ++ txt "%</strong>".
Proof.
  intros Hm Hfmt Hcol. unfold eff_formula_pattern in Hm. invert_matches Hm.
  unfold eff_result, eff_colour, eff_head, Re.span, Re.whole in *.
  cbn [drop take concat] in *. rewrite !app_nil_r in *.
  match goal with
  | |- _ = ?h ++ _ ++ _ /\ _ => set (head := h)
  end.
  match goal with
  | |- ?w = _ /\ _ =>
      assert (w = head ++ PyFloat.fmt1 old_eff ++ txt "%</strong>") as ->
  end.
  { unfold head. by rewrite Hfmt, <- !app_assoc. }
  rewrite <- Hfmt. split; [done|].
  unfold eff_label.
  apply (replace_tail "%" "<" head _ _ (txt "/strong>")).
  { rewrite Hfmt. done. }
  rewrite Hfmt. unfold head. rewrite <- !app_assoc.
  repeat (apply followed_ok_app;
          [first [done | by apply followed_ok_without, number_without_percent
                 | by apply followed_ok_without]|]).
  by apply followed_ok_without, number_without_percent.
Qed.

Lemma eff_match_nonempty m : matches eff_formula_pattern m -> Re.whole m <> [].
Proof. intros Hm. unfold eff_formula_pattern in Hm. by invert_matches Hm. Qed.

End Equation.

Section EquationClaims.
#[local] Arguments txt : simpl never.
Implicit Types (html pre post : text) (m : Re.pieces).

(** Section 2 on a document whose equation shows its result as [fmt1]
    writes it, in a colour without percent sign: the text before the
    equation is kept, the equation keeps everything but its result, and
    the text after it changes only where the same equation stands again. *)
Lemma fix_eff_formula_rewrites explained_pct html pre m post t c :
  Re.search eff_formula_pattern html = Some (pre, m, post) ->
  PyFloat.of_text (eff_targetable m) = Ok t ->
  PyFloat.of_text (eff_result m) = Ok c ->
  PyFloat.fmt1 c = eff_result m ->
  forallb (fun x => negb (Ascii.eqb x "%"%char)) (eff_colour m) = true ->
  let fixed :=
    eff_head m ++ PyFloat.fmt1 (new_efficiency explained_pct t)
    ++ txt "%</strong>" in
  fix_eff_formula explained_pct html
  = Ok (pre ++ fixed ++ Text.replace (Re.whole m) fixed post).
Proof.
  intros Hs Ht Hc Hfmt Hcol fixed. unfold fix_eff_formula.
  rewrite Hs, Hc. simpl. rewrite Ht. simpl.
  pose proof (search_matches _ _ _ _ _ Hs) as Hm.
  destruct (eff_fragment_rewritten m c (new_efficiency explained_pct t)
              Hm Hfmt Hcol) as [_ ->].
  f_equal. eapply replace_found; [done|]. by apply eff_match_nonempty.
Qed.

(** C3, as the code has it. In a document being corrected whose equation
    shows its result [C] as Python formats a float with one decimal, in a
    colour without percent sign, the result becomes
    [round(Explained / B * 100, 1)] capped at 100.0 when [B > 0] and [0.0]
    otherwise; the text before the equation and the rest of the equation
    are kept, and after it only further copies of the same equation
    change. *)
Theorem efficiency_result_rewritten
    html fpre fm fpost e b u pre m post t c :
  Re.search formula_pattern html = Some (fpre, fm, fpost) ->
  PyFloat.of_text (formula_explained fm) = Ok e ->
  PyFloat.of_text (formula_background fm) = Ok b ->
  PyFloat.of_text (formula_unmatched fm) = Ok u ->
  already_correct e b u = false ->
  Re.search eff_formula_pattern
    (Text.replace (unmatched_label u) (unmatched_label (new_unmatched e b))
                  html)
  = Some (pre, m, post) ->
  PyFloat.of_text (eff_targetable m) = Ok t ->
  PyFloat.of_text (eff_result m) = Ok c ->
  PyFloat.fmt1 c = eff_result m ->
  forallb (fun x => negb (Ascii.eqb x "%"%char)) (eff_colour m) = true ->
  let new_eff :=
    if PyFloat.lt PyFloat.fzero t
    then PyFloat.min
           (PyFloat.round1 (PyFloat.mul (PyFloat.div e t) PyFloat.f100))
           PyFloat.f100
    else PyFloat.fzero in
  let fixed := eff_head m ++ PyFloat.fmt1 new_eff ++ txt "%</strong>" in
  Re.whole m = eff_head m ++ eff_result m ++ txt "%</strong>"
  /\ patch_report html
     = fix_capped (pre ++ fixed ++ Text.replace (Re.whole m) fixed post).
Proof.
  intros Hf He Hb Hu Hoff Hs Ht Hc Hfmt Hcol new_eff fixed.
  split.
  - by apply (eff_fragment_rewritten m c c (search_matches _ _ _ _ _ Hs)).
  - rewrite (patch_report_corrects _ _ _ _ _ _ _ Hf He Hb Hu Hoff).
    unfold fix_displays.
    by rewrite (fix_eff_formula_rewrites _ _ _ _ _ _ _ Hs Ht Hc Hfmt Hcol).
Qed.

(** The scenario of the specification: 114.3 becomes 57.1. *)
Lemma efficiency_result_rewritten_witness :
  patch_report Sample.faulty_report = Ok Sample.patched_report.
Proof.
  edestruct (efficiency_result_rewritten Sample.faulty_report) as [_ H].
  - vm_compute. reflexivity.
  - vm_compute. reflexivity.
  - vm_compute. reflexivity.
  - vm_compute. reflexivity.
  - vm_compute. reflexivity.
  - vm_compute. reflexivity.
  - vm_compute. reflexivity.
  - vm_compute. reflexivity.
  - vm_compute. reflexivity.
  - vm_compute. reflexivity.
  - rewrite H. vm_compute. reflexivity.
Defined.

(** C3 as the specification words it fails when the result is written
    without decimals: with [B = 70.0 > 0] the recomputed efficiency is 57.1,
    but the text that is looked for is the old result formatted with one
    decimal, which is not there, and the result stays 114. *)
Lemma efficiency_result_counterexample :
  patch_report Sample.terse_report = Ok Sample.terse_patched
  /\ PyFloat.lt PyFloat.fzero (PyFloat.of_decimal 700 1) = true
  /\ PyFloat.fmt1
       (new_efficiency (PyFloat.of_decimal 400 1) (PyFloat.of_decimal 700 1))
     = txt "57.1".
Proof. split_and!; vm_compute; reflexivity. Qed.

End EquationClaims.

(** ** The capped displays *)

Section Capped.
#[local] Arguments txt : simpl never.
Implicit Types (html pre post s r out : text) (m : Re.pieces).

Lemma new_efficiency_capped e t :
  PyFloat.lt PyFloat.f100 (new_efficiency e t) = false.
Proof.
  unfold new_efficiency, PyFloat.min.
  destruct (PyFloat.lt PyFloat.fzero t); [|done].
  set (r := PyFloat.round1 _).
  by destruct (PyFloat.lt PyFloat.f100 r) eqn:H.
Qed.

Lemma min_above_100 v :
  PyFloat.lt PyFloat.f100 v = true ->
  PyFloat.fmt1 (PyFloat.min v PyFloat.f100) = txt "100.0".
Proof. intros H. unfold PyFloat.min. by rewrite H. Qed.

Lemma fix_hero_caps html pre m post v :
  Re.search hero_pattern html = Some (pre, m, post) ->
  PyFloat.of_text (hero_value m) = Ok v ->
  fix_hero html
  = Ok (if PyFloat.lt PyFloat.f100 v
        then pre ++ hero_capped m
             ++ Text.replace (Re.whole m) (hero_capped m) post
        else html).
Proof.
  intros Hs Hv. unfold fix_hero. rewrite Hs, Hv. simpl.
  destruct (PyFloat.lt PyFloat.f100 v) eqn:Hlt; [|done].
  rewrite (min_above_100 v Hlt). f_equal.
  eapply replace_found; [done|].
  pose proof (search_matches _ _ _ _ _ Hs) as Hm.
  unfold hero_pattern in Hm. by invert_matches Hm.
Qed.

Lemma fix_explanation_caps html pre m post v :
  Re.search expl_pattern html = Some (pre, m, post) ->
  PyFloat.of_text (expl_value m) = Ok v ->
  fix_explanation html
  = Ok (if PyFloat.lt PyFloat.f100 v
        then pre ++ expl_capped m
             ++ Text.replace (Re.whole m) (expl_capped m) post
        else html).
Proof.
  intros Hs Hv. unfold fix_explanation. rewrite Hs, Hv. simpl.
  destruct (PyFloat.lt PyFloat.f100 v) eqn:Hlt; [|done].
  rewrite (min_above_100 v Hlt). f_equal.
  eapply replace_found; [done|].
  pose proof (search_matches _ _ _ _ _ Hs) as Hm.
  unfold expl_pattern in Hm. by invert_matches Hm.
Qed.

(** [re.sub] and its description without counter. *)
Lemma sub_from_rewritten p f skip s out :
  (forall s' m r, Re.match_here p s' = Some (m, r) -> Re.whole m <> []) ->
  ReSub.sub_from p f skip s = Ok out ->
  rewritten p f (drop skip s) out.
Proof.
  intros Hne. revert skip out.
  induction s as [|c s IH]; intros skip out H; simpl in H.
  - simplify_eq. rewrite drop_nil. constructor.
  - destruct skip as [|skip]; [|by apply IH].
    rewrite drop_0.
    destruct (Re.match_here p (c :: s)) as [[m r]|] eqn:Hm.
    + destruct (f m) as [rep|] eqn:Hf; [|done]. simpl in H.
      destruct (ReSub.sub_from p f _ s) as [rest|] eqn:Hrest; [|done].
      simpl in H. simplify_eq.
      pose proof (Hne _ _ _ Hm) as Hw.
      destruct (match_here_sound _ _ _ _ Hm) as [_ E].
      apply IH in Hrest. fold (Re.whole m) in E.
      destruct (Re.whole m) as [|c' w] eqn:Ew; [done|].
      simplify_eq/=. rewrite Nat.sub_0_r, drop_app_length in Hrest.
      rewrite <- Ew in *. change (c' :: w ++ r) with ((c' :: w) ++ r).
      rewrite <- Ew. apply rewritten_match; try done.
      by rewrite Ew.
    + destruct (ReSub.sub_from p f 0 s) as [rest|] eqn:Hrest; [|done].
      simpl in H. simplify_eq. apply rewritten_copy; [done|].
      apply IH in Hrest. by rewrite drop_0 in Hrest.
Qed.

Lemma sub_from_total p f skip s :
  (forall s' m r, Re.match_here p s' = Some (m, r) ->
                  exists rep, f m = Ok rep) ->
  exists out, ReSub.sub_from p f skip s = Ok out.
Proof.
  intros Hf. revert skip. induction s as [|c s IH]; intros skip; simpl.
  - by eexists.
  - destruct skip as [|skip]; [|apply IH].
    destruct (Re.match_here p (c :: s)) as [[m r]|] eqn:Hm.
    + destruct (Hf _ _ _ Hm) as [rep ->]. simpl.
      destruct (IH (length (Re.whole m) - 1)%nat) as [rest ->]. by eexists.
    + destruct (IH 0%nat) as [rest ->]. by eexists.
Qed.

(** Without a match anywhere, [re.sub] returns its argument. *)
Lemma sub_absent p f s :
  Re.search p s = None -> ReSub.sub p f s = Ok s.
Proof.
  unfold ReSub.sub. induction s as [|c s IH]; [done|].
  intros H. simpl in *.
  destruct (Re.match_here p (c :: s)) as [[m r]|]; [done|].
  destruct (Re.search p s) as [[[? ?] ?]|]; [done|].
  by rewrite IH.
Qed.

Lemma cut_at_dot_digits s :
  forallb Re.is_digit s = true -> PyFloat.cut_at_dot s = (s, None).
Proof.
  induction s as [|c s IH]; [done|]. simpl.
  intros [Hc Hs]%andb_true_iff. rewrite (IH Hs).
  destruct (Ascii.eqb_spec c "."%char) as [->|]; done.
Qed.

Lemma digits_val_digits acc s :
  forallb Re.is_digit s = true -> is_Some (PyFloat.digits_val acc s).
Proof.
  revert acc. induction s as [|c s IH]; intros acc; [done|]. simpl.
  intros [Hc Hs]%andb_true_iff. unfold PyFloat.digit_val. rewrite Hc.
  simpl. by apply IH.
Qed.

(** [float] accepts every non-empty run of digits. *)
Lemma of_text_digits s :
  s <> [] -> forallb Re.is_digit s = true ->
  exists v, PyFloat.of_text s = Ok v.
Proof.
  intros Hne Hd. unfold PyFloat.of_text. rewrite (cut_at_dot_digits s Hd).
  simpl. rewrite app_nil_r. destruct s as [|c s]; [done|].
  destruct (digits_val_digits 0 (c :: s) Hd) as [n ->]. by eexists.
Qed.

Lemma annotation_match s m r :
  Re.match_here annotation_pattern s = Some (m, r) ->
  Re.whole m <> []
  /\ exists v, PyFloat.of_text (annotation_value m) = Ok v
       /\ fix_donut_annotation m
          = Ok (if PyFloat.lt PyFloat.f100 v
                then dq :: txt "text" ++ dq :: txt ": " ++ dq :: txt "100%"
                     ++ [dq]
                else Re.whole m).
Proof.
  intros Hm. apply match_here_sound in Hm as [Hm _].
  unfold annotation_pattern in Hm. invert_matches Hm.
  split; [done|].
  unfold fix_donut_annotation, annotation_value, annotation_open,
    annotation_close, Re.span. cbn [drop take concat].
  rewrite !app_nil_r.
  match goal with
  | Hd : forallb Re.is_digit ?ds = true |- _ =>
      destruct (of_text_digits ds) as [v Hv]; [done|done|]
  end.
  exists v. split; [done|]. rewrite Hv. simpl.
  by destruct (PyFloat.lt PyFloat.f100 v).
Qed.

End Capped.

Section CappedClaims.
#[local] Arguments txt : simpl never.
Implicit Types (html pre post s r out : text) (m : Re.pieces).

(** C2, as the code has it. A document being corrected goes through the
    sections of [patch_report] in sequence, and there: the efficiency that
    section 2 writes into the equation never exceeds 100.0; the hero card
    and the sentence found first are rewritten to 100.0 where they stand
    when their value exceeds 100.0 and are left alone otherwise; the pass
    over the annotations never raises and replaces each annotation that the
    scan from left to right matches by the same annotation with 100 when
    its value exceeds 100; the document returned is what the passes over
    the chart data and over the annotations make, one after the other, of
    the document that sections 1 to 4 leave. A document without formula
    bar, or one whose shares already add up, goes through none of this: it
    is returned as it is. *)
Theorem displays_capped :
  (forall html pre m post e b u,
     Re.search formula_pattern html = Some (pre, m, post) ->
     PyFloat.of_text (formula_explained m) = Ok e ->
     PyFloat.of_text (formula_background m) = Ok b ->
     PyFloat.of_text (formula_unmatched m) = Ok u ->
     already_correct e b u = false ->
     patch_report html
     = (html ← fix_eff_formula e
                 (Text.replace (unmatched_label u)
                    (unmatched_label (new_unmatched e b)) html);
        html ← fix_hero html;
        html ← fix_explanation html;
        html ← ReSub.sub donut_pattern fix_donut html;
        ReSub.sub annotation_pattern fix_donut_annotation html))
  /\ (forall e t, PyFloat.lt PyFloat.f100 (new_efficiency e t) = false)
  /\ (forall html pre m post v,
        Re.search hero_pattern html = Some (pre, m, post) ->
        PyFloat.of_text (hero_value m) = Ok v ->
        fix_hero html
        = Ok (if PyFloat.lt PyFloat.f100 v
              then pre ++ hero_capped m
                   ++ Text.replace (Re.whole m) (hero_capped m) post
              else html))
  /\ (forall html pre m post v,
        Re.search expl_pattern html = Some (pre, m, post) ->
        PyFloat.of_text (expl_value m) = Ok v ->
        fix_explanation html
        = Ok (if PyFloat.lt PyFloat.f100 v
              then pre ++ expl_capped m
                   ++ Text.replace (Re.whole m) (expl_capped m) post
              else html))
  /\ (forall html, exists out,
        ReSub.sub annotation_pattern fix_donut_annotation html = Ok out
        /\ rewritten annotation_pattern fix_donut_annotation html out)
  /\ (forall s m r,
        Re.match_here annotation_pattern s = Some (m, r) ->
        exists v,
          PyFloat.of_text (annotation_value m) = Ok v
          /\ fix_donut_annotation m
             = Ok (if PyFloat.lt PyFloat.f100 v
                   then dq :: txt "text" ++ dq :: txt ": " ++ dq
                        :: txt "100%" ++ [dq]
                   else Re.whole m))
  /\ (forall html,
        Re.search formula_pattern html = None -> patch_report html = Ok html)
  /\ (forall html pre m post e b u,
        Re.search formula_pattern html = Some (pre, m, post) ->
        PyFloat.of_text (formula_explained m) = Ok e ->
        PyFloat.of_text (formula_background m) = Ok b ->
        PyFloat.of_text (formula_unmatched m) = Ok u ->
        already_correct e b u = true ->
        patch_report html = Ok html)
  /\ (forall html pre m post e b u out,
        Re.search formula_pattern html = Some (pre, m, post) ->
        PyFloat.of_text (formula_explained m) = Ok e ->
        PyFloat.of_text (formula_background m) = Ok b ->
        PyFloat.of_text (formula_unmatched m) = Ok u ->
        already_correct e b u = false ->
        patch_report html = Ok out ->
        exists h1 h2 h3 h4,
          fix_eff_formula e
            (Text.replace (unmatched_label u)
               (unmatched_label (new_unmatched e b)) html) = Ok h1
          /\ fix_hero h1 = Ok h2
          /\ fix_explanation h2 = Ok h3
          /\ rewritten donut_pattern fix_donut h3 h4
          /\ rewritten annotation_pattern fix_donut_annotation h4 out).
Proof.
  split_and!; cycle 6.
  - intros html H. unfold patch_report. by rewrite H.
  - intros html pre m post e b u Hs He Hb Hu Hok. unfold patch_report.
    rewrite Hs, He. simpl. rewrite Hb. simpl. rewrite Hu. simpl.
    by rewrite Hok.
  - intros html pre m post e b u out Hs He Hb Hu Hoff.
    rewrite (patch_report_corrects _ _ _ _ _ _ _ Hs He Hb Hu Hoff).
    unfold fix_displays, fix_capped.
    destruct (fix_eff_formula e _) as [h1|] eqn:E1; [|done]. simpl.
    destruct (fix_hero h1) as [h2|] eqn:E2; [|done]. simpl.
    destruct (fix_explanation h2) as [h3|] eqn:E3; [|done]. simpl.
    destruct (ReSub.sub donut_pattern fix_donut h3) as [h4|] eqn:E4;
      [|done].
    simpl. intros Hout. exists h1, h2, h3, h4. split_and!; try done.
    + apply (sub_from_rewritten _ _ 0 h3 h4); [|done].
      intros s' m' r Hm. apply match_here_sound in Hm as [Hm _].
      unfold donut_pattern in Hm. by invert_matches Hm.
    + apply (sub_from_rewritten _ _ 0 h4 out); [|done].
      intros s' m' r Hm. by destruct (annotation_match _ _ _ Hm).
  - intros html pre m post e b u Hs He Hb Hu Hoff.
    by rewrite (patch_report_corrects _ _ _ _ _ _ _ Hs He Hb Hu Hoff).
  - apply new_efficiency_capped.
  - apply fix_hero_caps.
  - apply fix_explanation_caps.
  - intros html.
    destruct (sub_from_total annotation_pattern fix_donut_annotation 0 html)
      as [out Hout].
    { intros s' m r Hm. destruct (annotation_match _ _ _ Hm)
        as (_ & v & _ & ->). by eexists. }
    exists out. split; [done|].
    apply (sub_from_rewritten _ _ 0 html out); [|done].
    intros s' m r Hm. by destruct (annotation_match _ _ _ Hm).
  - intros s m r Hm. by destruct (annotation_match _ _ _ Hm).
Qed.

(** The hero card of the scenario: 114.3 becomes 100.0. *)
Lemma displays_capped_witness :
  fix_hero (Sample.hero "114.3") = Ok (Sample.hero "100.0").
Proof.
  destruct displays_capped as (_ & _ & Hhero & _).
  erewrite Hhero; cycle 1.
  - vm_compute. reflexivity.
  - vm_compute. reflexivity.
  - vm_compute. reflexivity.
Defined.

(** C2 as the specification words it, for all documents, fails on a
    document without formula bar: it is returned as it is, hero card above
    100 included. *)
Lemma cap_invariant_counterexample :
  patch_report Sample.bare_report = Ok Sample.bare_report
  /\ shown_hero Sample.bare_report = Some (PyFloat.of_decimal 1143 1)
  /\ PyFloat.lt PyFloat.f100 (PyFloat.of_decimal 1143 1) = true.
Proof. split_and!; vm_compute; reflexivity. Qed.

End CappedClaims.

(** ** The rounding error of the recomputed share *)

Section FloatFacts.

Lemma digits2_size p : digits2_pos p = Pos.size p.
Proof. induction p; simpl; congruence. Qed.

Lemma digits_bounds p :
  2 ^ (Zpos (digits2_pos p) - 1) <= Zpos p < 2 ^ Zpos (digits2_pos p).
Proof.
  rewrite digits2_size.
  pose proof (Pos.size_gt p) as Hgt. pose proof (Pos.size_le p) as Hle.
  assert (Zpos (2 ^ Pos.size p) = 2 ^ Zpos (Pos.size p)) as E.
  { by rewrite Pos2Z.inj_pow. }
  split; [|lia].
  assert (2 ^ Z.pos (Pos.size p) = 2 * 2 ^ (Z.pos (Pos.size p) - 1)) as E2.
  { rewrite <- Z.pow_succ_r by lia. f_equal. lia. }
  lia.
Qed.

Lemma Zdigits2_nonneg m : 0 <= Zdigits2 m.
Proof. destruct m; simpl; lia. Qed.

Lemma Zdigits2_bounds m :
  0 < m -> 2 ^ (Zdigits2 m - 1) <= m < 2 ^ Zdigits2 m.
Proof. destruct m as [|p|p]; try lia. intros _. apply digits_bounds. Qed.

Lemma Zdigits2_le m k : 0 <= m < 2 ^ k -> 0 <= k -> Zdigits2 m <= k.
Proof.
  intros [H0 Hm] Hk. destruct (decide (m = 0)) as [->|]; [done|].
  pose proof (Zdigits2_bounds m ltac:(lia)) as [Hlo _].
  destruct (decide (Zdigits2 m <= k)); [done|].
  assert (2 ^ k <= 2 ^ (Zdigits2 m - 1)); [|lia].
  apply Z.pow_le_mono_r; lia.
Qed.

Lemma shr_1_m mrs : 0 <= shr_m mrs -> shr_m (shr_1 mrs) = shr_m mrs / 2.
Proof.
  destruct mrs as [m r s]. cbn [shr_m]. intros Hm.
  destruct m as [|[p|p|]|p]; cbn [shr_1 shr_m]; try lia; try done.
  - apply Z.div_unique with 1; lia.
  - apply Z.div_unique with 0; lia.
Qed.

Lemma iter_pos_shr_m p mrs :
  0 <= shr_m mrs ->
  shr_m (SpecFloat.iter_pos shr_1 p mrs) = shr_m mrs / 2 ^ Zpos p.
Proof.
  revert mrs. induction p as [p IH|p IH|]; intros mrs Hm; simpl SpecFloat.iter_pos.
  - assert (0 <= shr_m (shr_1 mrs)) as H1.
    { rewrite shr_1_m by done. apply Z.div_pos; lia. }
    assert (0 <= shr_m (SpecFloat.iter_pos shr_1 p (shr_1 mrs))) as H2.
    { rewrite IH by done. apply Z.div_pos; lia. }
    rewrite IH, IH, shr_1_m by done.
    rewrite !Z.div_div by lia. f_equal.
    rewrite (Pos2Z.inj_xI p).
    replace (2 * Z.pos p + 1) with (1 + Z.pos p + Z.pos p) by lia.
    rewrite !Z.pow_add_r by lia. lia.
  - assert (0 <= shr_m (SpecFloat.iter_pos shr_1 p mrs)) as H2.
    { rewrite IH by done. apply Z.div_pos; lia. }
    rewrite IH, IH by done.
    rewrite !Z.div_div by lia. f_equal.
    rewrite (Pos2Z.inj_xO p).
    replace (2 * Z.pos p) with (Z.pos p + Z.pos p) by lia.
    rewrite !Z.pow_add_r by lia. lia.
  - by rewrite shr_1_m.
Qed.

Lemma fexp_eq e : fexp 53 1024 e = Z.max (e - 53) (-1074).
Proof. reflexivity. Qed.

Lemma shr_spec mrs e n :
  0 <= shr_m mrs ->
  snd (shr mrs e n) = e + Z.max n 0
  /\ shr_m (fst (shr mrs e n)) = shr_m mrs / 2 ^ Z.max n 0.
Proof.
  intros Hm. destruct n as [|p|p]; cbn [shr fst snd].
  - rewrite Z.max_id, Z.pow_0_r, Z.div_1_r. lia.
  - rewrite iter_pos_shr_m by done. rewrite Z.max_l by lia. lia.
  - rewrite Z.max_r by lia. rewrite Z.pow_0_r, Z.div_1_r. lia.
Qed.

Lemma shr_record_of_loc_m m l : shr_m (shr_record_of_loc m l) = m.
Proof. by destruct l as [|[]]. Qed.

Lemma round_nearest_even_bounds m l :
  m <= round_nearest_even m l <= m + 1.
Proof.
  destruct l as [|[]]; simpl; try lia. destruct (Z.even m); lia.
Qed.

Lemma pow2_pos k : 0 < 2 ^ k \/ k < 0.
Proof. destruct (decide (k < 0)); [by right|left]. apply Z.pow_pos_nonneg; lia. Qed.

Lemma binary_round_aux_coarse sx m e l :
  0 < m -> - scale <= e -> Zdigits2 m + e <= 1000 -> e <= 900 ->
  let f := Z.max e (fexp 53 1024 (Zdigits2 m + e)) in
  let r := binary_round_aux 53 1024 sx m e l in
  (r = S754_zero sx
   \/ exists m' e', r = S754_finite sx m' e' /\ f <= e' <= f + 1)
  /\ Z.abs (Z.abs (units r) - m * 2 ^ (e + scale)) <= 2 * 2 ^ (f + scale).
Proof.
  intros Hm He Hd He' f r. subst r. unfold binary_round_aux, shr_fexp.
  pose proof (shr_spec (shr_record_of_loc m l) e
                (fexp 53 1024 (Zdigits2 m + e) - e)) as H1.
  rewrite shr_record_of_loc_m in H1. specialize (H1 ltac:(lia)).
  destruct (shr (shr_record_of_loc m l) e _) as [mrs' e1] eqn:E1.
  cbn [fst snd] in H1. destruct H1 as [He1 Hm1].
  assert (e1 = f) as -> by (unfold f; lia).
  set (k := f - e).
  assert (0 <= k) as Hk by (unfold k, f; lia).
  assert (Z.max (fexp 53 1024 (Zdigits2 m + e) - e) 0 = k) as Ek
    by (unfold k, f; lia).
  rewrite Ek in Hm1. clear He1 Ek.
  set (m1 := shr_m mrs') in *.
  pose proof (round_nearest_even_bounds m1 (loc_of_shr_record mrs')) as H2.
  set (m2 := round_nearest_even m1 _) in *.
  assert (0 < 2 ^ k) as HP by (apply Z.pow_pos_nonneg; lia).
  assert (m1 * 2 ^ k <= m < (m1 + 1) * 2 ^ k) as Hm1'.
  { rewrite Hm1. pose proof (Z.mul_div_le m (2 ^ k) HP).
    pose proof (Z.mul_succ_div_gt m (2 ^ k) HP). lia. }
  assert (0 <= m1) as Hm1pos by (rewrite Hm1; apply Z.div_pos; lia).
  pose proof (shr_spec (shr_record_of_loc m2 loc_Exact) f
                (fexp 53 1024 (Zdigits2 m2 + f) - f)) as H3.
  rewrite shr_record_of_loc_m in H3. specialize (H3 ltac:(lia)).
  destruct (shr (shr_record_of_loc m2 loc_Exact) f _) as [mrs'' e2] eqn:E2.
  cbn [fst snd] in H3. destruct H3 as [He2 Hm3].
  set (k2 := Z.max (fexp 53 1024 (Zdigits2 m2 + f) - f) 0) in *.
  assert (0 <= k2 <= 1) as Hk2.
  { split; [unfold k2; lia|].
    assert (Zdigits2 m2 + f <= Z.max (Zdigits2 m + e + 1) (f + 1)) as Hd2.
    { pose proof (Zdigits2_bounds m Hm) as [_ Hhi].
      pose proof (Zdigits2_nonneg m) as Hd0.
      destruct (decide (k <= Zdigits2 m)) as [Hle|Hgt].
      - assert (Zdigits2 m2 <= Zdigits2 m - k + 1); [|unfold k in *; lia].
        apply Zdigits2_le; [|lia]. split; [lia|].
        assert (2 ^ Zdigits2 m = 2 ^ (Zdigits2 m - k) * 2 ^ k) as Epow.
        { rewrite <- Z.pow_add_r by lia. f_equal. lia. }
        assert (m1 < 2 ^ (Zdigits2 m - k)) by nia.
        replace (Zdigits2 m - k + 1) with (Z.succ (Zdigits2 m - k)) by lia.
        rewrite Z.pow_succ_r by lia. lia.
      - assert (Zdigits2 m2 <= 1); [|lia].
        apply Zdigits2_le; [|lia]. split; [lia|].
        assert (2 ^ Zdigits2 m <= 2 ^ k) by (apply Z.pow_le_mono_r; lia).
        assert (m1 = 0) by nia. change (2 ^ 1) with 2. lia. }
    unfold k2. rewrite !fexp_eq in *. unfold f in *. rewrite !fexp_eq in *. lia. }
  set (m3 := shr_m mrs'') in *.
  assert (0 < 2 ^ k2) as HP2 by (apply Z.pow_pos_nonneg; lia).
  assert (m3 * 2 ^ k2 <= m2 < (m3 + 1) * 2 ^ k2) as Hm3'.
  { rewrite Hm3. pose proof (Z.mul_div_le m2 (2 ^ k2) HP2).
    pose proof (Z.mul_succ_div_gt m2 (2 ^ k2) HP2). lia. }
  assert (0 <= m3) as Hm3pos by (rewrite Hm3; apply Z.div_pos; lia).
  assert (2 ^ k2 <= 2) as HP2'.
  { change 2 with (2 ^ 1) at 2. apply Z.pow_le_mono_r; lia. }
  assert (0 < 2 ^ (e + scale)) as HU by (apply Z.pow_pos_nonneg; lia).
  assert (2 ^ (f + scale) = 2 ^ k * 2 ^ (e + scale)) as EF.
  { rewrite <- Z.pow_add_r by lia. f_equal. unfold k. lia. }
  assert (2 ^ (e2 + scale) = 2 ^ k2 * 2 ^ (f + scale)) as EF2.
  { rewrite <- Z.pow_add_r by (unfold f; lia). f_equal. lia. }
  destruct m3 as [|p3|p3] eqn:Em3; [| |lia].
  - split; [by left|]. cbn [units]. rewrite EF. nia.
  - assert ((e2 <=? 1024 - 53) = true) as ->.
    { apply Z.leb_le. rewrite fexp_eq in *. unfold f in *. rewrite !fexp_eq in *. lia. }
    split; [right; exists p3, e2; split; [done|lia]|].
    cbn [units]. rewrite EF2, EF.
    assert (Z.abs (cond_Zopp sx (Z.pos p3) * (2 ^ k2 * (2 ^ k * 2 ^ (e + scale))))
            = Z.pos p3 * 2 ^ k2 * 2 ^ k * 2 ^ (e + scale)) as ->.
    { destruct sx; simpl cond_Zopp; nia. }
    nia.
Qed.

Lemma iter_xO mx d :
  Zpos (Pos.iter xO mx d) = Zpos mx * 2 ^ Zpos d
  /\ Zpos (digits2_pos (Pos.iter xO mx d))
     = Zpos (digits2_pos mx) + Zpos d.
Proof.
  induction d as [|d [IH1 IH2]] using Pos.peano_ind.
  - cbn [Pos.iter digits2_pos]. split; lia.
  - rewrite Pos.iter_succ. cbn [digits2_pos].
    rewrite Pos2Z.inj_succ, Z.pow_succ_r by lia.
    rewrite (Pos2Z.inj_xO (Pos.iter _ _ _)), IH1.
    rewrite Pos2Z.inj_succ, IH2. lia.
Qed.

Lemma shl_align_spec mx ex ex' :
  snd (shl_align mx ex ex') = Z.min ex ex'
  /\ Zpos (fst (shl_align mx ex ex'))
     = Zpos mx * 2 ^ (ex - Z.min ex ex')
  /\ Zpos (digits2_pos (fst (shl_align mx ex ex')))
       + snd (shl_align mx ex ex')
     = Zpos (digits2_pos mx) + ex.
Proof.
  unfold shl_align. destruct (ex' - ex) as [|d|d] eqn:E; cbn [fst snd].
  - rewrite Z.min_l by lia. rewrite Z.sub_diag. simpl. lia.
  - rewrite Z.min_l by lia. rewrite Z.sub_diag. simpl. lia.
  - destruct (iter_xO mx d) as [H1 H2]. rewrite H1, H2.
    rewrite Z.min_r by lia. replace (ex - ex') with (Z.pos d) by lia. lia.
Qed.

Lemma binary_round_coarse sx mx ex :
  - scale <= ex -> Zpos (digits2_pos mx) + ex <= 1000 -> ex <= 900 ->
  let f := fexp 53 1024 (Zpos (digits2_pos mx) + ex) in
  let r := binary_round 53 1024 sx mx ex in
  (r = S754_zero sx
   \/ exists m' e', r = S754_finite sx m' e' /\ f <= e' <= f + 1)
  /\ Z.abs (Z.abs (units r) - Zpos mx * 2 ^ (ex + scale))
     <= 2 * 2 ^ (f + scale).
Proof.
  intros He Hd He' f r. subst r. unfold binary_round.
  destruct (shl_align_spec mx ex f) as (H1 & H2 & H3).
  fold f.
  destruct (shl_align mx ex f) as [mz ez]. cbn [fst snd] in *.
  assert (-1074 <= f) as Hf by (unfold f; rewrite fexp_eq; lia).
  assert (f <= 947) as Hf' by (unfold f; rewrite fexp_eq; lia).
  unfold scale in He.
  pose proof (binary_round_aux_coarse sx (Zpos mz) ez loc_Exact) as H.
  cbn [Zdigits2] in H. rewrite H3 in H. fold f in H.
  specialize (H ltac:(lia) ltac:(unfold scale; lia) ltac:(lia) ltac:(lia)).
  cbv zeta in H.
  replace (Z.max ez f) with f in H by lia.
  replace (Z.pos mz * 2 ^ (ez + scale)) with (Z.pos mx * 2 ^ (ex + scale))
    in H; [done|].
  rewrite H2, <- Z.mul_assoc, <- Z.pow_add_r by (unfold scale; lia).
  do 2 f_equal. lia.
Qed.

Lemma fexp_mono a b : a <= b -> fexp 53 1024 a <= fexp 53 1024 b.
Proof. rewrite !fexp_eq. lia. Qed.

Lemma pow2_lt_inv a b : 0 <= b -> 2 ^ a < 2 ^ b -> a < b.
Proof. intros Hb H. by apply (Z.pow_lt_mono_r_iff 2). Qed.

Lemma binary_normalize_coarse D ez B :
  - scale <= ez -> - scale <= B <= 900 ->
  Z.abs D * 2 ^ (ez + scale) < 2 ^ (B + scale) ->
  let r := binary_normalize 53 1024 D ez false in
  has_units r
  /\ Z.abs (units r - D * 2 ^ (ez + scale))
     <= 2 * 2 ^ (fexp 53 1024 B + scale).
Proof.
  intros He HB HD r. subst r.
  assert (0 < 2 ^ (ez + scale)) as HU by (apply Z.pow_pos_nonneg; lia).
  assert (0 < 2 ^ (fexp 53 1024 B + scale)) as HF.
  { apply Z.pow_pos_nonneg; [lia|]. rewrite fexp_eq. unfold scale. lia. }
  assert (forall sx d, Z.abs D = Zpos d -> D = cond_Zopp sx (Zpos d) ->
            has_units (binary_round 53 1024 sx d ez)
            /\ Z.abs (units (binary_round 53 1024 sx d ez)
                      - D * 2 ^ (ez + scale))
               <= 2 * 2 ^ (fexp 53 1024 B + scale)) as Hround.
  { intros sx d Habs HDs. rewrite Habs in HD.
    assert (Zpos (digits2_pos d) + ez <= B) as Hdig.
    { pose proof (digits_bounds d) as [Hlo _].
      assert (2 ^ (Z.pos (digits2_pos d) - 1 + (ez + scale))
              < 2 ^ (B + scale)) as Hlt.
      { rewrite Z.pow_add_r by lia. nia. }
      apply pow2_lt_inv in Hlt; lia. }
    pose proof (binary_round_coarse sx d ez He ltac:(lia) ltac:(lia)) as H.
    cbv zeta in H. destruct H as [Hshape Herr].
    pose proof (fexp_mono _ _ Hdig) as Hmono.
    assert (2 ^ (fexp 53 1024 (Z.pos (digits2_pos d) + ez) + scale)
            <= 2 ^ (fexp 53 1024 B + scale)) as Hpow.
    { apply Z.pow_le_mono_r; lia. }
    assert (-1074 <= fexp 53 1024 (Z.pos (digits2_pos d) + ez)) as Hemin.
    { rewrite fexp_eq. lia. }
    assert (0 < Zpos d) as Hd0 by lia. clear Habs.
    set (P := Zpos d) in *. clearbody P. subst D.
    destruct Hshape as [E|(m' & e' & E & He')]; rewrite E in *.
    - split; [done|]. cbn [units] in *.
      destruct sx; unfold cond_Zopp in *; lia.
    - split; [cbn [has_units]; lia|]. cbn [units] in *.
      assert (0 < 2 ^ (e' + scale)) by (apply Z.pow_pos_nonneg; unfold scale; lia).
      assert (0 < Zpos m') as Hm0 by lia.
      set (P' := Zpos m') in *. clearbody P'.
      destruct sx; unfold cond_Zopp in *; nia. }
  destruct D as [|d|d]; cbn [binary_normalize].
  - split; [done|]. cbn [units]. lia.
  - by apply Hround.
  - by apply Hround.
Qed.

Lemma units_aligned s m e e' :
  - scale <= e' <= e ->
  cond_Zopp s (Zpos m) * 2 ^ (e + scale)
  = cond_Zopp s (Zpos m * 2 ^ (e - e')) * 2 ^ (e' + scale).
Proof.
  intros He. replace (e + scale) with ((e - e') + (e' + scale)) by lia.
  rewrite Z.pow_add_r by lia. destruct s; cbn [cond_Zopp]; lia.
Qed.

Lemma add_coarse x y B :
  has_units x -> has_units y -> - scale <= B <= 900 ->
  Z.abs (units x + units y) < 2 ^ (B + scale) ->
  has_units (SFadd 53 1024 x y)
  /\ Z.abs (units (SFadd 53 1024 x y) - (units x + units y))
     <= 2 * 2 ^ (fexp 53 1024 B + scale).
Proof.
  intros Hx Hy HB Hmag.
  assert (0 < 2 ^ (fexp 53 1024 B + scale)) as HF.
  { apply Z.pow_pos_nonneg; [lia|]. rewrite fexp_eq. unfold scale. lia. }
  destruct x as [sx|sx| |sx mx ex], y as [sy|sy| |sy my ey];
    try done; cbn [SFadd].
  - split; [by destruct sx, sy|]. destruct sx, sy; cbn [units]; lia.
  - split; [done|]. cbn [units]. lia.
  - split; [done|]. cbn [units]. lia.
  - cbn [has_units] in Hx, Hy. cbv zeta.
    destruct (shl_align_spec mx ex (Z.min ex ey)) as (_ & Ex & _).
    destruct (shl_align_spec my ey (Z.min ex ey)) as (_ & Ey & _).
    rewrite Ex, Ey.
    replace (Z.min ey (Z.min ex ey)) with (Z.min ex ey) by lia.
    replace (Z.min ex (Z.min ex ey)) with (Z.min ex ey) by lia.
    set (ez := Z.min ex ey).
    assert (units (S754_finite sx mx ex) + units (S754_finite sy my ey)
            = (cond_Zopp sx (Z.pos mx * 2 ^ (ex - ez))
               + cond_Zopp sy (Z.pos my * 2 ^ (ey - ez)))
              * 2 ^ (ez + scale)) as E.
    { cbn [units].
      rewrite (units_aligned sx mx ex ez), (units_aligned sy my ey ez)
        by (unfold ez, scale; lia). lia. }
    rewrite E in *.
    apply binary_normalize_coarse; [unfold ez, scale; lia|done|].
    rewrite Z.abs_mul in Hmag.
    rewrite (Z.abs_eq (2 ^ _)) in Hmag by (apply Z.pow_nonneg; lia). done.
Qed.

Lemma sub_coarse x y B :
  has_units x -> has_units y -> - scale <= B <= 900 ->
  Z.abs (units x - units y) < 2 ^ (B + scale) ->
  has_units (SFsub 53 1024 x y)
  /\ Z.abs (units (SFsub 53 1024 x y) - (units x - units y))
     <= 2 * 2 ^ (fexp 53 1024 B + scale).
Proof.
  intros Hx Hy HB Hmag.
  assert (0 < 2 ^ (fexp 53 1024 B + scale)) as HF.
  { apply Z.pow_pos_nonneg; [lia|]. rewrite fexp_eq. unfold scale. lia. }
  destruct x as [sx|sx| |sx mx ex], y as [sy|sy| |sy my ey];
    try done; cbn [SFsub].
  - split; [by destruct sx, sy|]. destruct sx, sy; cbn [units]; lia.
  - split; [done|]. cbn [units]. destruct sy; cbn [negb cond_Zopp]; lia.
  - split; [done|]. cbn [units]. lia.
  - cbn [has_units] in Hx, Hy. cbv zeta.
    destruct (shl_align_spec mx ex (Z.min ex ey)) as (_ & Ex & _).
    destruct (shl_align_spec my ey (Z.min ex ey)) as (_ & Ey & _).
    rewrite Ex, Ey.
    replace (Z.min ey (Z.min ex ey)) with (Z.min ex ey) by lia.
    replace (Z.min ex (Z.min ex ey)) with (Z.min ex ey) by lia.
    set (ez := Z.min ex ey).
    assert (units (S754_finite sx mx ex) - units (S754_finite sy my ey)
            = (cond_Zopp sx (Z.pos mx * 2 ^ (ex - ez))
               - cond_Zopp sy (Z.pos my * 2 ^ (ey - ez)))
              * 2 ^ (ez + scale)) as E.
    { cbn [units].
      rewrite (units_aligned sx mx ex ez), (units_aligned sy my ey ez)
        by (unfold ez, scale; lia). lia. }
    rewrite E in *.
    apply binary_normalize_coarse; [unfold ez, scale; lia|done|].
    rewrite Z.abs_mul in Hmag.
    rewrite (Z.abs_eq (2 ^ _)) in Hmag by (apply Z.pow_nonneg; lia). done.
Qed.

Lemma of_ratio_tenth s n :
  Zpos n <= 1000 ->
  let r := SFdiv 53 1024 (S754_finite s n 0) (S754_finite false 10 0) in
  (exists m e, r = S754_finite s m e /\ -1074 <= e)
  /\ Z.abs (10 * Z.abs (units r) - Zpos n * 2 ^ scale)
     <= 2 ^ (scale - 41).
Proof.
  intros Hn r. subst r. cbn [SFdiv xorb]. rewrite xorb_false_r.
  unfold SFdiv_core_binary.
  change (Zdigits2 10) with 4. rewrite !Z.add_0_r, Z.sub_0_r.
  set (d1 := Zdigits2 (Z.pos n)).
  assert (1 <= d1 <= 10) as Hd1.
  { split; [unfold d1; simpl; lia|].
    apply Zdigits2_le; [|lia]. change (2 ^ 10) with 1024. lia. }
  assert (Z.min (fexp 53 1024 (d1 - 4)) 0 = d1 - 57) as ->
    by (rewrite fexp_eq; lia).
  change (0 - (d1 - 57)) with (- (d1 - 57)).
  destruct (- (d1 - 57)) as [|sh|sh] eqn:Esh; [lia| |lia].
  rewrite Z.shiftl_mul_pow2 by lia.
  assert (0 < 2 ^ Z.pos sh) as Hsh by (apply Z.pow_pos_nonneg; lia).
  assert (2 ^ 47 <= 2 ^ Z.pos sh) as Hsh47 by (apply Z.pow_le_mono_r; lia).
  change (2 ^ 47) with 140737488355328 in Hsh47.
  set (S := 2 ^ Z.pos sh) in *.
  assert (1 <= Z.pos n) as Hn1 by lia.
  set (N := Z.pos n) in *.
  pose proof (Z.div_eucl_eq (N * S) 10 ltac:(lia)) as Hdiv.
  pose proof (Z.mod_pos_bound (N * S) 10 ltac:(lia)) as Hrem.
  unfold Z.modulo in Hrem.
  destruct (Z.div_eucl (N * S) 10) as [q rem].
  assert (0 < q) as Hq by (clear - Hdiv Hrem Hsh47 Hn1; nia).
  assert (Zdigits2 q + (d1 - 57) <= 7) as Hdq.
  { assert (Zdigits2 q <= 7 + Z.pos sh); [|lia].
    apply Zdigits2_le; [|lia]. split; [lia|].
    rewrite Z.pow_add_r by lia. change (2 ^ 7) with 128. fold S.
    clear - Hdiv Hrem Hsh Hn Hn1. nia. }
  pose proof (binary_round_aux_coarse s q (d1 - 57) (new_location 10 rem)
                Hq ltac:(unfold scale; lia) ltac:(lia) ltac:(lia)) as H.
  cbv zeta in H. destruct H as [Hshape Herr].
  set (f := Z.max (d1 - 57) (fexp 53 1024 (Zdigits2 q + (d1 - 57)))) in *.
  assert (-1074 <= f <= -46) as Hf.
  { unfold f. rewrite fexp_eq. lia. }
  assert (0 < 2 ^ (scale - 57 + d1)) as HU
    by (apply Z.pow_pos_nonneg; unfold scale; lia).
  assert (2 ^ scale = S * 2 ^ (scale - 57 + d1)) as Escale.
  { unfold S. rewrite <- Z.pow_add_r by (unfold scale; lia). f_equal. lia. }
  assert (2 ^ (scale - 41) = 2 ^ (16 - d1) * 2 ^ (scale - 57 + d1)) as E41.
  { rewrite <- Z.pow_add_r by (unfold scale; lia). f_equal. lia. }
  assert (2 ^ (f + scale) <= 2 ^ (scale - 46)) as Hfpow
    by (apply Z.pow_le_mono_r; lia).
  assert (2 ^ (scale - 46) = 2 ^ (11 - d1) * 2 ^ (scale - 57 + d1)) as E46.
  { rewrite <- Z.pow_add_r by (unfold scale; lia). f_equal. lia. }
  assert (2 ^ (16 - d1) = 32 * 2 ^ (11 - d1)) as E16.
  { replace (16 - d1) with (5 + (11 - d1)) by lia.
    rewrite Z.pow_add_r by lia. done. }
  assert (1 <= 2 ^ (11 - d1)) as H11.
  { change 1 with (2 ^ 0). apply Z.pow_le_mono_r; lia. }
  replace (d1 - 57 + scale) with (scale - 57 + d1) in Herr by lia.
  assert (2 ^ (11 - d1) <= 1024) as H11'.
  { change 1024 with (2 ^ 10). apply Z.pow_le_mono_r; lia. }
  rewrite E46 in Hfpow. rewrite Escale, E41, E16.
  set (U := 2 ^ (scale - 57 + d1)) in *.
  set (W := 2 ^ (11 - d1)) in *.
  set (F := 2 ^ (f + scale)) in *.
  clearbody U W F S N.
  assert (N * (S * U) = 10 * (q * U) + rem * U) as EM.
  { rewrite Z.mul_assoc, Hdiv. ring. }
  assert (0 <= rem * U < 10 * U) as HR by (clear - Hrem HU; nia).
  assert (U <= W * U) as HWU by (clear - H11 HU; nia).
  assert (W * U <= 1024 * U) as HWU' by (clear - H11' HU; nia).
  assert (140737488355328 * U <= N * (S * U)) as HSU.
  { assert (140737488355328 * U <= S * U) by (clear - Hsh47 HU; nia).
    assert (0 <= S * U) by (clear - Hsh HU; nia).
    set (SU := S * U) in *. clearbody SU. clear - H H0 Hn1. nia. }
  rewrite <- Z.mul_assoc.
  set (A := Z.abs (units _)) in *.
  assert (Z.abs (10 * A - N * (S * U)) <= 32 * (W * U)) as Hgoal.
  { rewrite EM.
    set (X := q * U) in *. set (R := rem * U) in *. set (WU := W * U) in *.
    clearbody A X R WU. clear - Herr Hfpow HR HWU. lia. }
  split; [|done].
  destruct Hshape as [E|(m' & e' & E & He')].
  - exfalso. unfold A in Hgoal. rewrite E in Hgoal. cbn [units] in Hgoal.
    set (NSU := N * (S * U)) in *. set (WU := W * U) in *.
    clearbody NSU WU. clear - Hgoal HSU HWU' HU. simpl Z.abs in Hgoal. lia.
  - exists m', e'. split; [done|lia].
Qed.

Lemma tenths_near m e c :
  - scale <= e -> 0 <= c ->
  Z.abs (10 * (Zpos m * 2 ^ (e + scale)) - c * 2 ^ scale) < 2 ^ (scale - 1) ->
  PyFloat.tenths m e = Z.to_N c.
Proof.
  intros He Hc Hnear.
  assert (2 ^ scale = 2 * 2 ^ (scale - 1)) as Ehalf.
  { rewrite <- Z.pow_succ_r by (unfold scale; lia). f_equal; lia. }
  assert (0 < 2 ^ (scale - 1)) as Hhalf
    by (apply Z.pow_pos_nonneg; unfold scale; lia).
  assert (0 < Zpos m) as Hm by lia. set (M := Zpos m) in *.
  destruct e as [|p|p]; unfold PyFloat.tenths; fold M.
  - f_equal. rewrite Z.add_0_l in Hnear. change (2 ^ 0) with 1.
    set (H := 2 ^ (scale - 1)) in *. rewrite Ehalf in Hnear.
    clearbody H M. clear - Hnear Hhalf. nia.
  - f_equal. rewrite Z.pow_add_r in Hnear by (unfold scale; lia).
    assert (0 < 2 ^ Z.pos p) as HP by (apply Z.pow_pos_nonneg; lia).
    set (P := 2 ^ Z.pos p) in *.
    set (H := 2 ^ (scale - 1)) in *. rewrite Ehalf in Hnear.
    clearbody H M P. clear - Hnear Hhalf HP. nia.
  - cbv zeta.
    assert (0 < 2 ^ Z.pos p) as HP by (apply Z.pow_pos_nonneg; lia).
    assert (0 < 2 ^ (Z.neg p + scale)) as HV
      by (apply Z.pow_pos_nonneg; lia).
    assert (2 ^ scale = 2 ^ Z.pos p * 2 ^ (Z.neg p + scale)) as Escale.
    { rewrite <- Z.pow_add_r by lia. f_equal. lia. }
    set (d := 2 ^ Z.pos p) in *. set (V := 2 ^ (Z.neg p + scale)) in *.
    pose proof (Z.div_mod (10 * M) d ltac:(lia)) as Hdiv.
    pose proof (Z.mod_pos_bound (10 * M) d HP) as Hrem.
    set (q := 10 * M / d) in *. set (r := (10 * M) mod d) in *.
    assert (2 * Z.abs (10 * M - c * d) < d) as Hclose.
    { assert (2 * (Z.abs (10 * M - c * d) * V) < d * V) as H.
      { rewrite <- (Z.abs_eq V) at 1 by lia. rewrite <- Z.abs_mul.
        replace ((10 * M - c * d) * V) with (10 * (M * V) - c * (d * V))
          by ring.
        rewrite <- Escale. rewrite Ehalf at 2. lia. }
      clearbody V d. clear - H HV. nia. }
    clearbody q r d M. clear - Hclose Hdiv Hrem HP Hc.
    assert (10 * M - c * d = d * (q - c) + r) as Ek by (rewrite Hdiv; ring).
    rewrite Ek in Hclose. clear Ek Hdiv.
    assert (forall k, (0 <= k -> 0 <= d * k) /\ (1 <= k -> d <= d * k)
                      /\ (k <= -1 -> d * k <= - d)
                      /\ (k <= -2 -> d * k <= - 2 * d)) as Hk.
    { intros k. split_and!; intros; nia. }
    specialize (Hk (q - c)). set (dk := d * (q - c)) in *. clearbody dk.
    f_equal. destruct (Z.compare_spec (2 * r) d) as [E|E|E]; [exfalso| |]; lia.
Qed.

Lemma units_f100 : units PyFloat.f100 = 100 * 2 ^ scale.
Proof.
  unfold PyFloat.f100. cbn [units cond_Zopp].
  replace scale with (46 + (-46 + scale)) at 2 by lia.
  rewrite (Z.pow_add_r 2 46 (-46 + scale)) by (unfold scale; lia).
  rewrite Z.mul_assoc. f_equal.
Qed.

Lemma of_decimal_tenth a :
  (a <= 1000)%N ->
  let x := PyFloat.of_decimal a 1 in
  has_units x /\ 0 <= units x
  /\ Z.abs (10 * units x - Z.of_N a * 2 ^ scale) <= 2 ^ (scale - 41)
  /\ (a <> 0%N -> exists m e, x = S754_finite false m e).
Proof.
  intros Ha x. subst x.
  assert (0 < 2 ^ (scale - 41)) as H41
    by (apply Z.pow_pos_nonneg; unfold scale; lia).
  destruct a as [|n]; cbn [PyFloat.of_decimal].
  - split_and!; [done|done|cbn [units]; simpl; lia|done].
  - change (Z.to_pos (10 ^ Z.of_nat 1)) with 10%positive.
    unfold PyFloat.of_ratio.
    destruct (of_ratio_tenth false n ltac:(lia)) as [(m & e & E & He) Herr].
    fold PyFloat.prec PyFloat.emax in E, Herr. rewrite E in *.
    cbn [units cond_Zopp] in *.
    assert (0 < 2 ^ (e + scale)) by (apply Z.pow_pos_nonneg; unfold scale; lia).
    assert (0 <= Z.pos m * 2 ^ (e + scale)) as Hpos by lia.
    rewrite (Z.abs_eq _ Hpos) in Herr. change (Z.of_N (N.pos n)) with (Z.pos n).
    split_and!; [cbn [has_units]; lia|done|done|by eauto].
Qed.

Lemma ulp7_pos : 0 < ulp7.
Proof. apply Z.pow_pos_nonneg; unfold scale; lia. Qed.

Lemma pow2_ulp7 k :
  -46 <= k -> 2 ^ (k + scale) = 2 ^ (k + 46) * ulp7.
Proof.
  intros Hk. unfold ulp7. rewrite <- Z.pow_add_r by (unfold scale; lia).
  f_equal; lia.
Qed.

Lemma of_decimal_ulp7 a :
  (a <= 1000)%N ->
  let x := PyFloat.of_decimal a 1 in
  has_units x /\ 0 <= units x
  /\ Z.abs (10 * units x - 70368744177664 * (Z.of_N a * ulp7)) <= 32 * ulp7
  /\ (a <> 0%N -> exists m e, x = S754_finite false m e).
Proof.
  intros Ha. destruct (of_decimal_tenth a Ha) as (H1 & H2 & H3 & H4).
  cbv zeta. split_and!; try done.
  replace scale with (0 + scale) in H3 at 1 by lia.
  replace (scale - 41) with (-41 + scale) in H3 by lia.
  rewrite !pow2_ulp7 in H3 by lia.
  change (2 ^ (0 + 46)) with 70368744177664 in H3.
  change (2 ^ (-41 + 46)) with 32 in H3. lia.
Qed.

Lemma sub_ulp7 x y :
  has_units x -> has_units y ->
  Z.abs (units x - units y) < 9007199254740992 * ulp7 ->
  has_units (PyFloat.sub x y)
  /\ Z.abs (units (PyFloat.sub x y) - (units x - units y)) <= 2 * ulp7.
Proof.
  intros Hx Hy Hmag.
  pose proof (sub_coarse x y 7 Hx Hy ltac:(unfold scale; lia)) as H.
  rewrite (pow2_ulp7 7) in H by lia.
  change (fexp 53 1024 7) with (-46) in H.
  rewrite (pow2_ulp7 (-46)) in H by lia.
  change (2 ^ (7 + 46)) with 9007199254740992 in H.
  change (2 ^ (-46 + 46)) with 1 in H. rewrite Z.mul_1_l in H.
  by apply H.
Qed.

Lemma add_ulp7 x y :
  has_units x -> has_units y ->
  Z.abs (units x + units y) < 9007199254740992 * ulp7 ->
  has_units (PyFloat.add x y)
  /\ Z.abs (units (PyFloat.add x y) - (units x + units y)) <= 2 * ulp7.
Proof.
  intros Hx Hy Hmag.
  pose proof (add_coarse x y 7 Hx Hy ltac:(unfold scale; lia)) as H.
  rewrite (pow2_ulp7 7) in H by lia.
  change (fexp 53 1024 7) with (-46) in H.
  rewrite (pow2_ulp7 (-46)) in H by lia.
  change (2 ^ (7 + 46)) with 9007199254740992 in H.
  change (2 ^ (-46 + 46)) with 1 in H. rewrite Z.mul_1_l in H.
  by apply H.
Qed.

Lemma units_f100_ulp7 : units PyFloat.f100 = 7036874417766400 * ulp7.
Proof.
  rewrite units_f100. replace scale with (0 + scale) at 1 by lia.
  rewrite pow2_ulp7 by lia. change (2 ^ (0 + 46)) with 70368744177664. lia.
Qed.

Lemma tenths_ulp7 m e c :
  -1074 <= e ->
  Z.abs (10 * (Zpos m * 2 ^ (e + scale))
         - 70368744177664 * (Z.of_N c * ulp7)) <= 104 * ulp7 ->
  PyFloat.tenths m e = c.
Proof.
  intros He H. rewrite <- (N2Z.id c). apply tenths_near.
  - unfold scale. lia.
  - lia.
  - replace scale with (0 + scale) at 2 by lia.
    replace (scale - 1) with (-1 + scale) by lia.
    rewrite (pow2_ulp7 0), (pow2_ulp7 (-1)) by lia.
    change (2 ^ (0 + 46)) with 70368744177664.
    change (2 ^ (-1 + 46)) with 35184372088832.
    pose proof ulp7_pos. lia.
Qed.

(** With Explained and Background read from numerals with one decimal
    that do not exceed 100 together, the subtraction and the rounding are
    exact in decimal: the new Unmatched share is the float of the numeral
    [100.0 - Explained - Background]. When that is zero the float may be
    the negative zero. *)
Lemma new_unmatched_decimal a b :
  (a + b <= 1000)%N ->
  new_unmatched (PyFloat.of_decimal a 1) (PyFloat.of_decimal b 1)
  = PyFloat.of_decimal (1000 - a - b) 1
  \/ ((a + b = 1000)%N
      /\ new_unmatched (PyFloat.of_decimal a 1) (PyFloat.of_decimal b 1)
         = S754_zero true).
Proof.
  intros Hab.
  destruct (of_decimal_ulp7 a ltac:(lia)) as (Hwe & Hpe & Hne & _).
  destruct (of_decimal_ulp7 b ltac:(lia)) as (Hwb & Hpb & Hnb & _).
  destruct (of_decimal_ulp7 (1000 - a - b) ltac:(lia)) as (_ & _ & _ & Hfc).
  cbv zeta in *.
  set (e := PyFloat.of_decimal a 1) in *.
  set (bg := PyFloat.of_decimal b 1) in *.
  set (c := (1000 - a - b)%N) in *.
  pose proof ulp7_pos as HU.
  assert (0 <= Z.of_N a * ulp7 /\ 0 <= Z.of_N b * ulp7
          /\ 0 <= Z.of_N c * ulp7
          /\ Z.of_N a * ulp7 + Z.of_N b * ulp7 + Z.of_N c * ulp7
             = 1000 * ulp7
          /\ (c = 0%N \/ ulp7 <= Z.of_N c * ulp7))
    as (HA & HB & HC0 & HC & HC').
  { unfold c. clear - Hab HU. split_and!; [nia|nia|nia|nia|].
    destruct (decide ((1000 - a - b)%N = 0%N)); [by left|right; nia]. }
  set (A := Z.of_N a * ulp7) in *. set (B := Z.of_N b * ulp7) in *.
  set (C := Z.of_N c * ulp7) in *.
  assert (has_units PyFloat.f100) as Hw100 by (cbn; lia).
  pose proof units_f100_ulp7 as H100.
  destruct (sub_ulp7 PyFloat.f100 e Hw100 Hwe) as [Hwt Ht].
  { clearbody A B C. lia. }
  set (t := PyFloat.sub PyFloat.f100 e) in *.
  destruct (sub_ulp7 t bg Hwt Hwb) as [Hwx Hx].
  { clearbody A B C. lia. }
  unfold new_unmatched. fold t.
  set (x := PyFloat.sub t bg) in *.
  assert (Z.abs (10 * units x - 70368744177664 * C) <= 104 * ulp7) as Hnear.
  { clearbody A B C. lia. }
  clear Ht Hx Hne Hnb H100.
  destruct x as [sx|sx| |sx mx ex]; try done.
  - cbn [PyFloat.round1]. cbn [units] in Hnear.
    change (PyFloat.lt (S754_zero sx) PyFloat.fzero) with false. cbv iota.
    assert (c = 0%N) as Ec by (destruct HC' as [|HC']; [done|clearbody C; lia]).
    destruct sx; [right; split; [lia|done]|left; by rewrite Ec].
  - cbn [has_units] in Hwx. cbn [units] in Hnear.
    assert (0 < Zpos mx * 2 ^ (ex + scale)) as Hpos.
    { apply Z.mul_pos_pos; [lia|]. apply Z.pow_pos_nonneg; unfold scale; lia. }
    assert (cond_Zopp sx (Zpos mx) * 2 ^ (ex + scale)
            = cond_Zopp sx (Zpos mx * 2 ^ (ex + scale))) as Esign.
    { destruct sx; unfold cond_Zopp; [apply Z.mul_opp_l|done]. }
    rewrite Esign in Hnear. clear Esign.
    set (P := Zpos mx * 2 ^ (ex + scale)) in *.
    assert (PyFloat.tenths mx ex = c) as Eten.
    { apply tenths_ulp7; [done|]. fold P C.
      clearbody P C. destruct sx; unfold cond_Zopp in Hnear; lia. }
    cbn [PyFloat.round1]. rewrite Eten.
    destruct c as [|n] eqn:Ec.
    + change (PyFloat.lt (S754_zero sx) PyFloat.fzero) with false. cbv iota.
      destruct sx; [right; split; [lia|done]|by left].
    + assert (sx = false) as ->.
      { destruct HC' as [|HC']; [done|].
        destruct sx; [|done]. unfold cond_Zopp in Hnear.
        clearbody P C. lia. }
      left. destruct (Hfc ltac:(done)) as (m' & e' & E).
      change (PyFloat.of_ratio false n 10)
        with (PyFloat.of_decimal (N.pos n) 1).
      by rewrite E.
Qed.

(** Then the three shares add to 100 but for the rounding of the two
    additions and of the three numerals: the sum is within [2^-42] of
    100. *)
Lemma shares_add_up a b :
  (a + b <= 1000)%N ->
  let e := PyFloat.of_decimal a 1 in
  let bg := PyFloat.of_decimal b 1 in
  let total := PyFloat.add (PyFloat.add e bg) (new_unmatched e bg) in
  has_units total /\ Z.abs (units total - 100 * 2 ^ scale) <= 2 ^ (scale - 42).
Proof.
  intros Hab e bg total. subst total.
  destruct (of_decimal_ulp7 a ltac:(lia)) as (Hwe & Hpe & Hne & _).
  destruct (of_decimal_ulp7 b ltac:(lia)) as (Hwb & Hpb & Hnb & _).
  destruct (of_decimal_ulp7 (1000 - a - b) ltac:(lia))
    as (Hwc & Hpc & Hnc & _).
  cbv zeta in *. fold e bg in Hwe, Hpe, Hne, Hwb, Hpb, Hnb.
  pose proof ulp7_pos as HU.
  assert (0 <= Z.of_N a * ulp7 /\ 0 <= Z.of_N b * ulp7
          /\ 0 <= Z.of_N (1000 - a - b) * ulp7
          /\ Z.of_N a * ulp7 + Z.of_N b * ulp7
             + Z.of_N (1000 - a - b) * ulp7
             = 1000 * ulp7) as (HA & HB & HC0 & HC).
  { clear - Hab HU. split_and!; nia. }
  set (A := Z.of_N a * ulp7) in *. set (B := Z.of_N b * ulp7) in *.
  set (C := Z.of_N (1000 - a - b) * ulp7) in *.
  assert (has_units (new_unmatched e bg)
          /\ 0 <= units (new_unmatched e bg)
          /\ Z.abs (10 * units (new_unmatched e bg) - 70368744177664 * C)
             <= 32 * ulp7) as (Hwu & Hpu & Hnu).
  { destruct (new_unmatched_decimal a b Hab) as [E|[Eab E]];
      fold e bg in E; rewrite E; [done|].
    split_and!; [done|done|]. cbn [units].
    assert (C = 0) as -> by (unfold C; replace (1000 - a - b)%N with 0%N by lia; lia).
    lia. }
  set (u := new_unmatched e bg) in *.
  destruct (add_ulp7 e bg Hwe Hwb) as [Hws Hs].
  { clearbody A B C. lia. }
  set (s1 := PyFloat.add e bg) in *.
  destruct (add_ulp7 s1 u Hws Hwu) as [Hwt Ht].
  { clearbody A B C. lia. }
  split; [done|].
  replace scale with (0 + scale) at 1 by lia.
  replace (scale - 42) with (-42 + scale) by lia.
  rewrite (pow2_ulp7 0), (pow2_ulp7 (-42)) by lia.
  change (2 ^ (0 + 46)) with 70368744177664.
  change (2 ^ (-42 + 46)) with 16.
  clearbody A B C. lia.
Qed.

(** A numeral with one decimal is printed back as it was read. *)
Lemma fmt1_of_decimal c :
  (c <= 1000)%N ->
  PyFloat.fmt1 (PyFloat.of_decimal c 1)
  = PyFloat.decimal (c / 10) ++ txt "." ++ PyFloat.decimal (c mod 10).
Proof.
  intros Hc. destruct (of_decimal_ulp7 c Hc) as (Hw & _ & Hn & Hf).
  cbv zeta in *. destruct c as [|n]; [done|].
  destruct (Hf ltac:(done)) as (m & e & E). rewrite E in *.
  cbn [has_units units cond_Zopp] in *.
  unfold PyFloat.fmt1. rewrite (tenths_ulp7 m e (N.pos n)); [done|done|].
  pose proof ulp7_pos. lia.
Qed.

(** A sum below 256 is off by [2^-44] at most. *)
Lemma add_ulp8 x y :
  has_units x -> has_units y ->
  Z.abs (units x + units y) < 18014398509481984 * ulp7 ->
  has_units (PyFloat.add x y)
  /\ Z.abs (units (PyFloat.add x y) - (units x + units y)) <= 4 * ulp7.
Proof.
  intros Hx Hy Hmag.
  pose proof (add_coarse x y 8 Hx Hy ltac:(unfold scale; lia)) as H.
  rewrite (pow2_ulp7 8) in H by lia.
  change (fexp 53 1024 8) with (-45) in H.
  rewrite (pow2_ulp7 (-45)) in H by lia.
  change (2 ^ (8 + 46)) with 18014398509481984 in H.
  change (2 ^ (-45 + 46)) with 2 in H.
  replace (2 * (2 * ulp7)) with (4 * ulp7) in H by lia.
  by apply H.
Qed.

(** With one decimal each and more than 100 together, Explained and
    Background leave a negative remainder: the floor applies, and the
    shares add to more than 100. *)
Lemma new_unmatched_floored a b :
  (a <= 1000)%N -> (b <= 1000)%N -> (1000 < a + b)%N ->
  let e := PyFloat.of_decimal a 1 in
  let bg := PyFloat.of_decimal b 1 in
  PyFloat.lt (PyFloat.round1 (PyFloat.sub (PyFloat.sub PyFloat.f100 e) bg))
             PyFloat.fzero = true
  /\ has_units (PyFloat.add e bg)
  /\ 100 * 2 ^ scale < units (PyFloat.add e bg).
Proof.
  intros Ha Hb Hab e bg.
  destruct (of_decimal_ulp7 a Ha) as (Hwe & Hpe & Hne & _).
  destruct (of_decimal_ulp7 b Hb) as (Hwb & Hpb & Hnb & _).
  cbv zeta in *. fold e bg in Hwe, Hpe, Hne, Hwb, Hpb, Hnb.
  set (c := (a + b - 1000)%N).
  pose proof ulp7_pos as HU.
  assert (0 <= Z.of_N a * ulp7 <= 1000 * ulp7
          /\ 0 <= Z.of_N b * ulp7 <= 1000 * ulp7
          /\ ulp7 <= Z.of_N c * ulp7
          /\ Z.of_N a * ulp7 + Z.of_N b * ulp7
             = 1000 * ulp7 + Z.of_N c * ulp7) as (HA & HB & HC0 & HC).
  { unfold c. clear - Ha Hb Hab HU. split_and!; nia. }
  set (A := Z.of_N a * ulp7) in *. set (B := Z.of_N b * ulp7) in *.
  set (C := Z.of_N c * ulp7) in *.
  assert (has_units PyFloat.f100) as Hw100 by (cbn; lia).
  pose proof units_f100_ulp7 as H100.
  destruct (add_ulp8 e bg Hwe Hwb) as [Hws Hs].
  { clearbody A B C. lia. }
  split_and!; [|done|].
  - destruct (sub_ulp7 PyFloat.f100 e Hw100 Hwe) as [Hwt Ht].
    { clearbody A B C. lia. }
    set (t := PyFloat.sub PyFloat.f100 e) in *.
    destruct (sub_ulp7 t bg Hwt Hwb) as [Hwx Hx].
    { clearbody A B C. lia. }
    set (x := PyFloat.sub t bg) in *.
    assert (Z.abs (10 * units x + 70368744177664 * C) <= 104 * ulp7)
      as Hnear.
    { clearbody A B C. lia. }
    clear Ht Hx Hne Hnb H100 Hs.
    destruct x as [sx|sx| |sx mx ex]; try done.
    { cbn [units] in Hnear. clearbody C. lia. }
    cbn [has_units] in Hwx. cbn [units] in Hnear.
    assert (0 < Zpos mx * 2 ^ (ex + scale)) as Hpos.
    { apply Z.mul_pos_pos; [lia|]. apply Z.pow_pos_nonneg; unfold scale; lia. }
    assert (cond_Zopp sx (Zpos mx) * 2 ^ (ex + scale)
            = cond_Zopp sx (Zpos mx * 2 ^ (ex + scale))) as Esign.
    { destruct sx; unfold cond_Zopp; [apply Z.mul_opp_l|done]. }
    rewrite Esign in Hnear. clear Esign.
    set (P := Zpos mx * 2 ^ (ex + scale)) in *.
    assert (sx = true) as ->.
    { destruct sx; [done|]. unfold cond_Zopp in Hnear. clearbody P C. lia. }
    assert (PyFloat.tenths mx ex = c) as Eten.
    { apply tenths_ulp7; [done|]. fold P C.
      clearbody P C. unfold cond_Zopp in Hnear. lia. }
    cbn [PyFloat.round1]. rewrite Eten.
    destruct c as [|n] eqn:Ec; [clearbody C; simpl in HC0; lia|].
    destruct (of_ratio_tenth true n ltac:(lia)) as [(m' & e' & E & _) _].
    unfold PyFloat.of_ratio. fold PyFloat.prec PyFloat.emax in E.
    by rewrite E.
  - replace scale with (0 + scale) at 1 by lia.
    rewrite (pow2_ulp7 0) by lia.
    change (2 ^ (0 + 46)) with 70368744177664.
    clearbody A B C. lia.
Qed.

End FloatFacts.

(** ** The formula bar *)

Section Bar.
#[local] Arguments txt : simpl never.
Implicit Types (html pre post s a b old new : text) (m : Re.pieces).

(** A text whose first character does not come back in it is exchanged
    wherever it stands. *)
Lemma replace_self c old new a b :
  forallb (fun x => negb (Ascii.eqb x c)) old = true ->
  Text.replace (c :: old) new (a ++ (c :: old) ++ b)
  = Text.replace (c :: old) new a ++ new ++ Text.replace (c :: old) new b.
Proof.
  intros Hc. rewrite !replace_nonempty by done.
  rewrite replace_from_app; [|done| |lia].
  - by rewrite replace_from_hit.
  - intros i Hi Hocc.
    destruct (decide (i + length (c :: old) <= length a)%nat); [done|].
    exfalso.
    assert (is_Some ((c :: old) !! (length a - i)%nat)) as [x Hx].
    { apply lookup_lt_is_Some. lia. }
    pose proof (startswith_lookup _ _ _ _ _ Hocc Hx) as H1.
    replace (i + (length a - i))%nat with (length a + 0)%nat in H1 by lia.
    rewrite lookup_app_r in H1 by lia.
    replace (length a + 0 - length a)%nat with 0%nat in H1 by lia.
    simpl in H1. simplify_eq.
    destruct (length a - i)%nat as [|j] eqn:Ej; [lia|]. simpl in Hx.
    apply list_elem_of_lookup_2 in Hx.
    rewrite forallb_forall in Hc. apply list_elem_of_In, Hc in Hx.
    by rewrite Ascii.eqb_refl in Hx.
Qed.

Lemma decimal_digits n : forallb Re.is_digit (PyFloat.decimal n) = true.
Proof.
  unfold PyFloat.decimal. generalize (N.to_uint n). intros d.
  induction d; simpl; try done.
Qed.

Lemma digit_not_U x :
  Re.is_digit x = true -> negb (Ascii.eqb x "U"%char) = true.
Proof. by destruct x as [[] [] [] [] [] [] [] []]. Qed.

Lemma fmt1_without_U v :
  forallb (fun x => negb (Ascii.eqb x "U"%char)) (PyFloat.fmt1 v) = true.
Proof.
  assert (forall n, forallb (fun x => negb (Ascii.eqb x "U"%char))
                      (PyFloat.decimal n) = true) as Hdec.
  { intros n. pose proof (decimal_digits n) as H.
    induction (PyFloat.decimal n) as [|x s IH]; [done|]. simpl in *.
    apply andb_true_iff in H as [Hx Hs]. by rewrite digit_not_U, IH. }
  destruct v as [[]|[]| |[] mant e]; try done; unfold PyFloat.fmt1;
    rewrite !forallb_app, !Hdec; done.
Qed.

Lemma unmatched_label_shape v :
  exists rest,
    unmatched_label v = "U"%char :: rest
    /\ forallb (fun x => negb (Ascii.eqb x "U"%char)) rest = true.
Proof.
  exists (txt "nmatched (" ++ PyFloat.fmt1 v ++ txt "%)"). split; [done|].
  by rewrite !forallb_app, fmt1_without_U.
Qed.

Lemma formula_shape m :
  matches formula_pattern m ->
  Re.whole m
  = formula_head m
    ++ (txt "Unmatched (" ++ formula_unmatched m ++ txt "%)")
    ++ formula_tail m.
Proof.
  intros Hm. unfold formula_pattern in Hm. invert_matches Hm.
  unfold formula_head, formula_tail, formula_unmatched, Re.span, Re.whole.
  cbn [drop take concat]. rewrite !app_nil_r, <- !app_assoc.
  repeat (f_equal; []). done.
Qed.

(** [x + 0.0] is [x], but for the negative zero. *)
Lemma add_zero x :
  PyFloat.add x PyFloat.fzero = x \/ x = S754_zero true.
Proof. destruct x as [[]|[]| |[] mant e]; auto. Qed.

End Bar.

Section BarClaims.
#[local] Arguments txt : simpl never.
Implicit Types (html pre post : text) (m : Re.pieces).

(** C1, as the code has it. In a document being corrected the new value of
    Unmatched is [round(100 - Explained - Background, 1)], or [0.0] when
    that is negative, and it is written over every label that shows the
    old value with one decimal: when the formula bar shows it so, the
    label of the bar is rewritten where it stands. When the floor applies,
    the new value is [0.0] and the three shares add to
    [Explained + Background], not to 100. When Explained and Background
    are read from numerals [x/10] and [y/10] with one decimal that do not
    exceed 100 together, the new value is the float of the numeral
    [(1000 - x - y)/10] and is printed as that numeral, so that the three
    labels of the bar add to 100.0 in decimal (a remainder of zero may be
    the negative zero); and the floats of the three shares add to 100 but
    for [2^-42]. When the two numerals exceed 100 together, neither
    exceeding 100, the floor applies and the three shares add to more
    than 100. *)
Theorem unmatched_recomputed html pre m post e b u :
  Re.search formula_pattern html = Some (pre, m, post) ->
  PyFloat.of_text (formula_explained m) = Ok e ->
  PyFloat.of_text (formula_background m) = Ok b ->
  PyFloat.of_text (formula_unmatched m) = Ok u ->
  already_correct e b u = false ->
  let rounded :=
    PyFloat.round1 (PyFloat.sub (PyFloat.sub PyFloat.f100 e) b) in
  let new_unmatched_pct :=
    if PyFloat.lt rounded PyFloat.fzero then PyFloat.fzero else rounded in
  let relabel :=
    Text.replace (unmatched_label u) (unmatched_label new_unmatched_pct) in
  patch_report html = fix_displays e (relabel html)
  /\ (PyFloat.fmt1 u = formula_unmatched m ->
      html = pre ++ formula_head m ++ unmatched_label u
             ++ formula_tail m ++ post
      /\ relabel html
         = relabel (pre ++ formula_head m)
           ++ unmatched_label new_unmatched_pct
           ++ relabel (formula_tail m ++ post))
  /\ (PyFloat.lt rounded PyFloat.fzero = true ->
      new_unmatched_pct = PyFloat.fzero
      /\ (PyFloat.add (PyFloat.add e b) new_unmatched_pct = PyFloat.add e b
          \/ PyFloat.add e b = S754_zero true))
  /\ (forall x y : N,
        e = PyFloat.of_decimal x 1 -> b = PyFloat.of_decimal y 1 ->
        (x + y <= 1000)%N ->
        let z := (1000 - x - y)%N in
        let total := PyFloat.add (PyFloat.add e b) new_unmatched_pct in
        (new_unmatched_pct = PyFloat.of_decimal z 1
         /\ PyFloat.fmt1 new_unmatched_pct
            = PyFloat.decimal (z / 10) ++ txt "."
              ++ PyFloat.decimal (z mod 10)
         \/ z = 0%N /\ new_unmatched_pct = S754_zero true)
        /\ has_units total
        /\ Z.abs (units total - 100 * 2 ^ scale) <= 2 ^ (scale - 42))
  /\ (forall x y : N,
        e = PyFloat.of_decimal x 1 -> b = PyFloat.of_decimal y 1 ->
        (x <= 1000)%N -> (y <= 1000)%N -> (1000 < x + y)%N ->
        let total := PyFloat.add (PyFloat.add e b) new_unmatched_pct in
        new_unmatched_pct = PyFloat.fzero
        /\ has_units total
        /\ 100 * 2 ^ scale < units total).
Proof.
  intros Hs He Hb Hu Hoff rounded new_unmatched_pct relabel.
  split_and!.
  - by rewrite (patch_report_corrects _ _ _ _ _ _ _ Hs He Hb Hu Hoff).
  - intros Hfmt.
    assert (html = (pre ++ formula_head m) ++ unmatched_label u
                   ++ formula_tail m ++ post) as E.
    { destruct (search_sound _ _ _ _ _ Hs) as (E & _ & _).
      rewrite E at 1.
      rewrite (formula_shape m (search_matches _ _ _ _ _ Hs)).
      unfold unmatched_label. rewrite Hfmt. by rewrite <- !app_assoc. }
    split; [by rewrite <- app_assoc in E|].
    rewrite E at 1. unfold relabel.
    destruct (unmatched_label_shape u) as (rest & -> & Hrest).
    by rewrite (replace_self _ _ _ _ _ Hrest).
  - intros Hneg. unfold new_unmatched_pct. rewrite Hneg.
    split; [done|]. apply add_zero.
  - intros x y -> -> Hxy z total.
    change new_unmatched_pct
      with (new_unmatched (PyFloat.of_decimal x 1) (PyFloat.of_decimal y 1))
      in *.
    split; [|by apply shares_add_up].
    destruct (new_unmatched_decimal x y Hxy) as [E|[Exy E]].
    + left. split; [done|]. rewrite E. apply fmt1_of_decimal. lia.
    + right. split; [lia|done].
  - intros x y -> -> Hx Hy Hxy total.
    destruct (new_unmatched_floored x y Hx Hy Hxy) as (Hneg & Hw & Hsum).
    subst total. unfold new_unmatched_pct, rounded. rewrite Hneg.
    split; [done|].
    destruct (add_zero (PyFloat.add (PyFloat.of_decimal x 1)
                                    (PyFloat.of_decimal y 1))) as [->|E];
      [done|].
    rewrite E in Hsum. cbn [units] in Hsum.
    assert (0 < 2 ^ scale) by (apply Z.pow_pos_nonneg; unfold scale; lia).
    lia.
Qed.

(** The scenario of the specification: 40 + 30 + 45 becomes 40 + 30 + 30,
    and 30.0 is the numeral [100.0 - 40.0 - 30.0]. *)
Lemma unmatched_recomputed_witness :
  patch_report Sample.faulty_report = Ok Sample.patched_report
  /\ new_unmatched (PyFloat.of_decimal 400 1) (PyFloat.of_decimal 300 1)
     = PyFloat.of_decimal 300 1.
Proof.
  edestruct (unmatched_recomputed Sample.faulty_report)
    as (H & _ & _ & Hdec & _).
  - vm_compute. reflexivity.
  - vm_compute. reflexivity.
  - vm_compute. reflexivity.
  - vm_compute. reflexivity.
  - vm_compute. reflexivity.
  - split; [rewrite H; vm_compute; reflexivity|].
    destruct (Hdec 400%N 300%N) as [[[E _]|[E _]] _].
    + vm_compute. reflexivity.
    + vm_compute. reflexivity.
    + lia.
    + exact E.
    + discriminate E.
Defined.

(** C1 as the specification words it fails when Explained and Background
    exceed 100 together: Unmatched is floored at 0.0 and the bar then shows
    80.0 + 30.0 + 0.0, which is 110. *)
Lemma sum_invariant_counterexample :
  patch_report Sample.over_report = Ok Sample.over_patched
  /\ shown_total Sample.over_patched = Some (PyFloat.of_decimal 110 0).
Proof. split; vm_compute; reflexivity. Qed.

End BarClaims.

(** ** When [patch_report] raises *)

Section Graceful.
#[local] Arguments txt : simpl never.
Implicit Types (html pre post s r out : text) (m : Re.pieces).

Lemma bind_Raise {A B} (x : result A) (f : A -> result B) e :
  x ≫= f = Raise e ->
  x = Raise e \/ exists a, x = Ok a /\ f a = Raise e.
Proof. destruct x as [a|e']; simpl; [right; by exists a|left; congruence]. Qed.

Lemma fix_hero_Raise html e :
  fix_hero html = Raise e <->
  exists pre m post,
    Re.search hero_pattern html = Some (pre, m, post)
    /\ PyFloat.of_text (hero_value m) = Raise e.
Proof.
  unfold fix_hero. split.
  - destruct (Re.search _ _) as [[[pre m] post]|]; [|done].
    destruct (PyFloat.of_text (hero_value m)) as [v|e'] eqn:Hv; simpl.
    + by destruct (PyFloat.lt _ _).
    + intros; simplify_eq. by eauto.
  - intros (pre & m & post & -> & ->). done.
Qed.

Lemma fix_explanation_Raise html e :
  fix_explanation html = Raise e <->
  exists pre m post,
    Re.search expl_pattern html = Some (pre, m, post)
    /\ PyFloat.of_text (expl_value m) = Raise e.
Proof.
  unfold fix_explanation. split.
  - destruct (Re.search _ _) as [[[pre m] post]|]; [|done].
    destruct (PyFloat.of_text (expl_value m)) as [v|e'] eqn:Hv; simpl.
    + by destruct (PyFloat.lt _ _).
    + intros; simplify_eq. by eauto.
  - intros (pre & m & post & -> & ->). done.
Qed.

Lemma fix_eff_formula_Raise explained_pct html e :
  fix_eff_formula explained_pct html = Raise e <->
  exists pre m post,
    Re.search eff_formula_pattern html = Some (pre, m, post)
    /\ (PyFloat.of_text (eff_result m) = Raise e
        \/ (exists c, PyFloat.of_text (eff_result m) = Ok c)
           /\ PyFloat.of_text (eff_targetable m) = Raise e).
Proof.
  unfold fix_eff_formula. split.
  - destruct (Re.search _ _) as [[[pre m] post]|]; [|done].
    destruct (PyFloat.of_text (eff_result m)) as [c|e'] eqn:Hc; simpl.
    + destruct (PyFloat.of_text (eff_targetable m)) as [t|e'] eqn:Ht;
        simpl; [done|].
      intros; simplify_eq. exists pre, m, post. by eauto.
    + intros; simplify_eq. exists pre, m, post. by eauto.
  - intros (pre & m & post & -> & [->|[[c ->] ->]]); done.
Qed.

(** What the scan hands to the callback stands in the text, and is a
    match where it stands. *)
Lemma scanned_from_sound p skip s m :
  m ∈ scanned_from p skip s ->
  exists a r,
    s = a ++ Re.whole m ++ r
    /\ Re.match_here p (Re.whole m ++ r) = Some (m, r).
Proof.
  revert skip. induction s as [|c s IH]; intros skip; simpl.
  { by intros ?%elem_of_nil. }
  assert (forall k, m ∈ scanned_from p k s ->
            exists a r, c :: s = a ++ Re.whole m ++ r
              /\ Re.match_here p (Re.whole m ++ r) = Some (m, r)) as Hrest.
  { intros k (a & r & E & Hm)%IH. exists (c :: a), r. by rewrite E. }
  destruct skip as [|skip]; [|apply Hrest].
  destruct (Re.match_here p (c :: s)) as [[caps r]|] eqn:Hm; [|apply Hrest].
  intros [Em|Hin]%elem_of_cons; [subst caps|by eapply Hrest].
  destruct (match_here_sound _ _ _ _ Hm) as [_ E]. fold (Re.whole m) in E.
  exists [], r. rewrite <- E. done.
Qed.

(** [re.sub] raises what its callback raises on a match of the scan, and
    returns only when the callback returns on every one of them. *)
Lemma sub_from_Raise_in p f skip s e :
  ReSub.sub_from p f skip s = Raise e ->
  exists m, m ∈ scanned_from p skip s /\ f m = Raise e.
Proof.
  revert skip. induction s as [|c s IH]; intros skip; simpl; [done|].
  destruct skip as [|skip]; [|apply IH].
  destruct (Re.match_here p (c :: s)) as [[m r]|] eqn:Hm.
  - intros [H|(rep & Hrep & H)]%bind_Raise.
    { exists m. split; [apply elem_of_cons; by left|done]. }
    apply bind_Raise in H as [H|(rest & _ & H)]; [|done].
    apply IH in H as (m' & Hin & H). exists m'.
    split; [apply elem_of_cons; by right|done].
  - intros [H|(rest & _ & H)]%bind_Raise; [by apply IH|done].
Qed.

Lemma sub_from_Ok_in p f skip s out :
  ReSub.sub_from p f skip s = Ok out ->
  forall m, m ∈ scanned_from p skip s -> exists rep, f m = Ok rep.
Proof.
  revert skip out. induction s as [|c s IH]; intros skip out; simpl.
  { by intros _ m ?%elem_of_nil. }
  destruct skip as [|skip]; [|apply IH].
  destruct (Re.match_here p (c :: s)) as [[m r]|] eqn:Hm.
  - destruct (f m) as [rep|] eqn:Hf; [|done]. simpl.
    destruct (ReSub.sub_from p f _ s) as [rest|] eqn:Hrest; [|done].
    intros _ m' [Em|Hin]%elem_of_cons; [subst m'; by eauto|]. by eapply IH.
  - destruct (ReSub.sub_from p f 0 s) as [rest|] eqn:Hrest; [|done].
    intros _. by eapply IH.
Qed.

Lemma fix_donut_Raise m e :
  fix_donut m = Raise e <-> PyFloat.of_text (donut_value m) = Raise e.
Proof.
  unfold fix_donut. destruct (PyFloat.of_text (donut_value m)) as [v|e'];
    simpl; [|split; congruence].
  by destruct (PyFloat.lt _ _).
Qed.

(** The numbers of a section: one of them is rejected when the section
    raises, and all of them are accepted when it returns. *)
Lemma eff_numbers_Raise explained_pct html e :
  fix_eff_formula explained_pct html = Raise e ->
  exists number,
    number ∈ eff_numbers html /\ PyFloat.of_text number = Raise e.
Proof.
  intros (pre & m & post & Hs & H)%fix_eff_formula_Raise.
  unfold eff_numbers. rewrite Hs.
  destruct H as [H|[_ H]]; eexists; (split; [|exact H]).
  - apply elem_of_cons. by left.
  - apply elem_of_cons. right. apply elem_of_cons. by left.
Qed.

Lemma eff_numbers_Ok explained_pct html out number :
  fix_eff_formula explained_pct html = Ok out ->
  number ∈ eff_numbers html -> exists v, PyFloat.of_text number = Ok v.
Proof.
  unfold fix_eff_formula, eff_numbers.
  destruct (Re.search _ _) as [[[pre m] post]|]; [|by intros _ ?%elem_of_nil].
  destruct (PyFloat.of_text (eff_result m)) as [c|] eqn:Hc; [|done].
  destruct (PyFloat.of_text (eff_targetable m)) as [t|] eqn:Ht; [|done].
  intros _ [->|Hin]%elem_of_cons; [by eauto|].
  apply list_elem_of_singleton in Hin as ->. by eauto.
Qed.

Lemma hero_numbers_Raise html e :
  fix_hero html = Raise e ->
  exists number,
    number ∈ hero_numbers html /\ PyFloat.of_text number = Raise e.
Proof.
  intros (pre & m & post & Hs & H)%fix_hero_Raise.
  unfold hero_numbers. rewrite Hs. eexists. split; [|exact H].
  apply elem_of_cons. by left.
Qed.

Lemma hero_numbers_Ok html out number :
  fix_hero html = Ok out ->
  number ∈ hero_numbers html -> exists v, PyFloat.of_text number = Ok v.
Proof.
  unfold fix_hero, hero_numbers.
  destruct (Re.search _ _) as [[[pre m] post]|]; [|by intros _ ?%elem_of_nil].
  destruct (PyFloat.of_text (hero_value m)) as [v|] eqn:Hv; [|done].
  intros _ ->%list_elem_of_singleton. by eauto.
Qed.

Lemma expl_numbers_Raise html e :
  fix_explanation html = Raise e ->
  exists number,
    number ∈ expl_numbers html /\ PyFloat.of_text number = Raise e.
Proof.
  intros (pre & m & post & Hs & H)%fix_explanation_Raise.
  unfold expl_numbers. rewrite Hs. eexists. split; [|exact H].
  apply elem_of_cons. by left.
Qed.

Lemma expl_numbers_Ok html out number :
  fix_explanation html = Ok out ->
  number ∈ expl_numbers html -> exists v, PyFloat.of_text number = Ok v.
Proof.
  unfold fix_explanation, expl_numbers.
  destruct (Re.search _ _) as [[[pre m] post]|]; [|by intros _ ?%elem_of_nil].
  destruct (PyFloat.of_text (expl_value m)) as [v|] eqn:Hv; [|done].
  intros _ ->%list_elem_of_singleton. by eauto.
Qed.

Lemma donut_numbers_Raise html e :
  ReSub.sub donut_pattern fix_donut html = Raise e ->
  exists number,
    number ∈ donut_numbers html /\ PyFloat.of_text number = Raise e.
Proof.
  intros (m & Hin & H)%sub_from_Raise_in. apply fix_donut_Raise in H.
  exists (donut_value m). split; [|done].
  unfold donut_numbers. apply list_elem_of_fmap. by exists m.
Qed.

Lemma donut_numbers_Ok html out number :
  ReSub.sub donut_pattern fix_donut html = Ok out ->
  number ∈ donut_numbers html -> exists v, PyFloat.of_text number = Ok v.
Proof.
  intros Hout (m & -> & Hin)%list_elem_of_fmap.
  destruct (sub_from_Ok_in _ _ _ _ _ Hout m Hin) as [rep Hrep].
  destruct (PyFloat.of_text (donut_value m)) as [v|e] eqn:Hv; [by eauto|].
  apply fix_donut_Raise in Hv. congruence.
Qed.

Lemma annotation_pass_returns html :
  exists out, ReSub.sub annotation_pattern fix_donut_annotation html = Ok out.
Proof.
  apply (sub_from_total annotation_pattern fix_donut_annotation 0 html).
  intros s' m r Hm. destruct (annotation_match _ _ _ Hm) as (_ & v & _ & ->).
  by eexists.
Qed.

Lemma converted_displays_Raise explained_pct html e :
  fix_displays explained_pct html = Raise e ->
  exists number,
    number ∈ converted_displays explained_pct html
    /\ PyFloat.of_text number = Raise e.
Proof.
  unfold fix_displays, fix_capped, converted_displays. intros H.
  apply bind_Raise in H as [H|(h1 & E1 & H)].
  { apply eff_numbers_Raise in H as (n & Hin & Hn). exists n.
    split; [|done]. apply elem_of_app. by left. }
  rewrite E1. apply bind_Raise in H as [H|(h2 & E2 & H)].
  { apply hero_numbers_Raise in H as (n & Hin & Hn). exists n.
    split; [|done]. apply elem_of_app. right. apply elem_of_app. by left. }
  rewrite E2. apply bind_Raise in H as [H|(h3 & E3 & H)].
  { apply expl_numbers_Raise in H as (n & Hin & Hn). exists n.
    split; [|done]. apply elem_of_app. right. apply elem_of_app. right.
    apply elem_of_app. by left. }
  rewrite E3. apply bind_Raise in H as [H|(h4 & E4 & H)].
  { apply donut_numbers_Raise in H as (n & Hin & Hn). exists n.
    split; [|done]. apply elem_of_app. right. apply elem_of_app. right.
    apply elem_of_app. by right. }
  destruct (annotation_pass_returns h4) as [out Hout]. congruence.
Qed.

Lemma converted_displays_Ok explained_pct html out number :
  fix_displays explained_pct html = Ok out ->
  number ∈ converted_displays explained_pct html ->
  exists v, PyFloat.of_text number = Ok v.
Proof.
  unfold fix_displays, fix_capped, converted_displays.
  destruct (fix_eff_formula explained_pct html) as [h1|] eqn:E1; [|done].
  simpl. destruct (fix_hero h1) as [h2|] eqn:E2; [|done].
  simpl. destruct (fix_explanation h2) as [h3|] eqn:E3; [|done].
  simpl. destruct (ReSub.sub donut_pattern fix_donut h3) as [h4|] eqn:E4;
    [|done].
  simpl. intros _ Hin.
  apply elem_of_app in Hin as [Hin|Hin]; [by eapply eff_numbers_Ok|].
  apply elem_of_app in Hin as [Hin|Hin]; [by eapply hero_numbers_Ok|].
  apply elem_of_app in Hin as [Hin|Hin]; [by eapply expl_numbers_Ok|].
  by eapply donut_numbers_Ok.
Qed.

(** What [patch_report] raises is the [ValueError] of a number it hands to
    [float]. *)
Lemma converted_Raise html e :
  patch_report html = Raise e ->
  exists number,
    number ∈ converted html /\ PyFloat.of_text number = Raise e.
Proof.
  unfold patch_report, converted.
  destruct (Re.search formula_pattern html) as [[[pre m] post]|]; [|done].
  destruct (PyFloat.of_text (formula_explained m)) as [e_|] eqn:He; simpl.
  2:{ intros [= <-]. eexists. split; [|exact He].
      apply elem_of_cons. by left. }
  destruct (PyFloat.of_text (formula_background m)) as [b_|] eqn:Hb; simpl.
  2:{ intros [= <-]. eexists. split; [|exact Hb].
      apply elem_of_cons. right. apply elem_of_cons. by left. }
  destruct (PyFloat.of_text (formula_unmatched m)) as [u_|] eqn:Hu; simpl.
  2:{ intros [= <-]. eexists. split; [|exact Hu].
      do 2 (apply elem_of_cons; right). apply elem_of_cons. by left. }
  destruct (already_correct e_ b_ u_); [done|].
  intros (n & Hin & Hn)%converted_displays_Raise. exists n.
  split; [|done]. by do 3 (apply elem_of_cons; right).
Qed.

(** When [patch_report] returns, [float] has accepted every number handed
    to it. *)
Lemma converted_Ok html out number :
  patch_report html = Ok out ->
  number ∈ converted html -> exists v, PyFloat.of_text number = Ok v.
Proof.
  unfold patch_report, converted.
  destruct (Re.search formula_pattern html) as [[[pre m] post]|];
    [|by intros _ ?%elem_of_nil].
  destruct (PyFloat.of_text (formula_explained m)) as [e_|] eqn:He; [|done].
  simpl.
  destruct (PyFloat.of_text (formula_background m)) as [b_|] eqn:Hb; [|done].
  simpl.
  destruct (PyFloat.of_text (formula_unmatched m)) as [u_|] eqn:Hu; [|done].
  simpl. intros Hout Hin.
  apply elem_of_cons in Hin as [->|Hin]; [by eauto|].
  apply elem_of_cons in Hin as [->|Hin]; [by eauto|].
  apply elem_of_cons in Hin as [->|Hin]; [by eauto|].
  destruct (already_correct e_ b_ u_); [by apply elem_of_nil in Hin|].
  by eapply converted_displays_Ok.
Qed.

(** A number of a match of the scan is a run of digits and dots. *)
Lemma search_match_here p s pre m post :
  Re.search p s = Some (pre, m, post) ->
  Re.match_here p (Re.whole m ++ post) = Some (m, post).
Proof. intros H. by apply search_sound in H as (_ & H & _). Qed.

Ltac run_of p Hm :=
  let Hs := fresh in
  pose proof (match_here_sound _ _ _ _ Hm) as [Hs _];
  unfold p in Hs; invert_matches Hs;
  unfold formula_explained, formula_background, formula_unmatched,
    eff_result, eff_targetable, hero_value, expl_value, donut_value,
    Re.span; cbn [drop take concat]; rewrite app_nil_r; by split.

Lemma converted_displays_runs explained_pct html number :
  number ∈ converted_displays explained_pct html ->
  number <> [] /\ forallb Re.digit_or_dot number = true.
Proof.
  unfold converted_displays. intros Hin.
  apply elem_of_app in Hin as [Hin|Hin].
  { unfold eff_numbers in Hin.
    destruct (Re.search _ _) as [[[pre m] post]|] eqn:Hs;
      [|by apply elem_of_nil in Hin].
    apply search_match_here in Hs.
    apply elem_of_cons in Hin as [->|Hin];
      [|apply list_elem_of_singleton in Hin as ->];
      run_of eff_formula_pattern Hs. }
  destruct (fix_eff_formula _ _) as [h1|]; [|by apply elem_of_nil in Hin].
  apply elem_of_app in Hin as [Hin|Hin].
  { unfold hero_numbers in Hin.
    destruct (Re.search _ _) as [[[pre m] post]|] eqn:Hs;
      [|by apply elem_of_nil in Hin].
    apply search_match_here in Hs.
    apply list_elem_of_singleton in Hin as ->. run_of hero_pattern Hs. }
  destruct (fix_hero _) as [h2|]; [|by apply elem_of_nil in Hin].
  apply elem_of_app in Hin as [Hin|Hin].
  { unfold expl_numbers in Hin.
    destruct (Re.search _ _) as [[[pre m] post]|] eqn:Hs;
      [|by apply elem_of_nil in Hin].
    apply search_match_here in Hs.
    apply list_elem_of_singleton in Hin as ->. run_of expl_pattern Hs. }
  destruct (fix_explanation _) as [h3|]; [|by apply elem_of_nil in Hin].
  apply list_elem_of_fmap in Hin as (m & -> & Hin).
  apply scanned_from_sound in Hin as (a & r & _ & Hs).
  run_of donut_pattern Hs.
Qed.

Lemma converted_runs html number :
  number ∈ converted html ->
  number <> [] /\ forallb Re.digit_or_dot number = true.
Proof.
  unfold converted.
  destruct (Re.search formula_pattern html) as [[[pre m] post]|] eqn:Hs;
    [|by intros ?%elem_of_nil].
  apply search_match_here in Hs. intros Hin.
  apply elem_of_cons in Hin as [->|Hin]; [run_of formula_pattern Hs|].
  apply elem_of_cons in Hin as [->|Hin]; [run_of formula_pattern Hs|].
  apply elem_of_cons in Hin as [->|Hin]; [run_of formula_pattern Hs|].
  destruct (PyFloat.of_text (formula_explained m));
    [|by apply elem_of_nil in Hin].
  destruct (PyFloat.of_text (formula_background m));
    [|by apply elem_of_nil in Hin].
  destruct (PyFloat.of_text (formula_unmatched m));
    [|by apply elem_of_nil in Hin].
  destruct (already_correct _ _ _); [by apply elem_of_nil in Hin|].
  by eapply converted_displays_runs.
Qed.

End Graceful.

Section GracefulClaims.
#[local] Arguments txt : simpl never.
Implicit Types (html pre post s r out number : text) (m : Re.pieces).

(** C10, as the code has it. [patch_report] raises exactly when [float]
    rejects one of the numbers it hands to it, those of [converted html]:
    the three shares of the formula bar found in the document, then the
    numbers of the fragments that sections 2, 3 and 4 and the pass over
    the chart data find in the document as the sections before them left
    it, each a run of digits and dots that one of the patterns took
    (digits and dots that are not a numeral, such as 1.2.3, are rejected).
    What is raised is that [ValueError] and nothing else, and with every
    such number a numeral [patch_report] returns. It returns the document
    unchanged when the formula bar is absent, each later section is
    skipped when its pattern matches nowhere, sections 3 and 4 raise
    exactly when [float] rejects the number of the fragment they found,
    the pass over the chart data exactly when it rejects the first value
    of a pair that the scan matched in the document, and the pass over the
    annotations never raises. *)
Theorem patch_report_degrades :
  (forall html,
     Re.search formula_pattern html = None -> patch_report html = Ok html)
  /\ (forall html e,
        patch_report html = Raise e <->
        e = ValueError
        /\ exists number,
             number ∈ converted html
             /\ PyFloat.of_text number = Raise ValueError)
  /\ (forall html,
        (forall number, number ∈ converted html ->
                        exists v, PyFloat.of_text number = Ok v) <->
        exists out, patch_report html = Ok out)
  /\ (forall html number,
        number ∈ converted html ->
        number <> [] /\ forallb Re.digit_or_dot number = true)
  /\ (forall html pre m post e,
        Re.search formula_pattern html = Some (pre, m, post) ->
        PyFloat.of_text (formula_explained m) = Raise e ->
        patch_report html = Raise e)
  /\ (forall explained_pct html,
        Re.search eff_formula_pattern html = None ->
        fix_eff_formula explained_pct html = Ok html)
  /\ (forall html,
        Re.search hero_pattern html = None -> fix_hero html = Ok html)
  /\ (forall html,
        Re.search expl_pattern html = None -> fix_explanation html = Ok html)
  /\ (forall html,
        Re.search donut_pattern html = None ->
        ReSub.sub donut_pattern fix_donut html = Ok html)
  /\ (forall html,
        Re.search annotation_pattern html = None ->
        ReSub.sub annotation_pattern fix_donut_annotation html = Ok html)
  /\ (forall html e,
        fix_hero html = Raise e <->
        exists pre m post,
          Re.search hero_pattern html = Some (pre, m, post)
          /\ PyFloat.of_text (hero_value m) = Raise e)
  /\ (forall html e,
        fix_explanation html = Raise e <->
        exists pre m post,
          Re.search expl_pattern html = Some (pre, m, post)
          /\ PyFloat.of_text (expl_value m) = Raise e)
  /\ (forall html e,
        ReSub.sub donut_pattern fix_donut html = Raise e <->
        e = ValueError
        /\ exists m,
             m ∈ scanned donut_pattern html
             /\ PyFloat.of_text (donut_value m) = Raise ValueError)
  /\ (forall html m,
        m ∈ scanned donut_pattern html ->
        exists a r,
          html = a ++ Re.whole m ++ r
          /\ Re.match_here donut_pattern (Re.whole m ++ r) = Some (m, r))
  /\ (forall html, exists out,
        ReSub.sub annotation_pattern fix_donut_annotation html = Ok out).
Proof.
  split_and!.
  - intros html H. unfold patch_report. by rewrite H.
  - intros html e. split.
    + intros H. pose proof (patch_report_raises html e H) as ->.
      split; [done|]. by apply converted_Raise.
    + intros (-> & number & Hin & Hn).
      destruct (patch_report html) as [out|e] eqn:H.
      * destruct (converted_Ok html out number H Hin) as [v Hv]. congruence.
      * by rewrite (patch_report_raises html e H).
  - intros html. split.
    + intros Hall. destruct (patch_report html) as [out|e] eqn:H;
        [by eauto|].
      apply converted_Raise in H as (number & Hin & Hn).
      destruct (Hall number Hin) as [v Hv]. congruence.
    + intros [out H] number Hin. by eapply converted_Ok.
  - apply converted_runs.
  - intros html pre m post e Hs He. unfold patch_report. by rewrite Hs, He.
  - intros e html H. unfold fix_eff_formula. by rewrite H.
  - intros html H. unfold fix_hero. by rewrite H.
  - intros html H. unfold fix_explanation. by rewrite H.
  - intros html. apply sub_absent.
  - intros html. apply sub_absent.
  - apply fix_hero_Raise.
  - apply fix_explanation_Raise.
  - intros html e. split.
    + intros H.
      assert (e = ValueError) as ->.
      { apply (sub_from_raises donut_pattern fix_donut 0 html); [|done].
        intros m e' He'. apply fix_donut_Raise in He'.
        by apply of_text_raises in He'. }
      split; [done|].
      apply sub_from_Raise_in in H as (m & Hin & H).
      apply fix_donut_Raise in H. by exists m.
    + intros (-> & m & Hin & Hm).
      destruct (ReSub.sub donut_pattern fix_donut html) as [out|e] eqn:H.
      * destruct (sub_from_Ok_in _ _ _ _ _ H m Hin) as [rep Hrep].
        apply fix_donut_Raise in Hm. congruence.
      * f_equal.
        apply (sub_from_raises donut_pattern fix_donut 0 html); [|done].
        intros m' e' He'. apply fix_donut_Raise in He'.
        by apply of_text_raises in He'.
  - intros html m. apply scanned_from_sound.
  - apply annotation_pass_returns.
Qed.

(** A document without formula bar comes back as it is. *)
Lemma patch_report_degrades_witness :
  patch_report Sample.bare_report = Ok Sample.bare_report.
Proof.
  apply (proj1 patch_report_degrades). vm_compute. reflexivity.
Defined.

(** C10 as the specification words it, for every input, fails on a formula
    bar whose first share reads 1.2.3: the pattern takes it, [float]
    rejects it, and [patch_report] raises. *)
Lemma totality_counterexample :
  patch_report Sample.malformed_report = Raise ValueError.
Proof. vm_compute. reflexivity. Qed.

End GracefulClaims.

(** ** The chart data *)

Section Donut.
#[local] Arguments txt : simpl never.
Implicit Types (html s r out V R rest : text) (m : Re.pieces).

(** Two runs of a class that end at a character outside the class end at
    the same place. *)
Lemma run_unique (P : ascii -> bool) (a a' x y : text) (c c' : ascii) :
  forallb P a = true -> forallb P a' = true ->
  P c = false -> P c' = false ->
  a ++ c :: x = a' ++ c' :: y -> a = a' /\ c = c' /\ x = y.
Proof.
  revert a'. induction a as [|h a IH]; intros [|h' a'] Ha Ha' Hc Hc' E;
    simplify_eq/=.
  - done.
  - apply andb_true_iff in Ha' as [? _]. congruence.
  - apply andb_true_iff in Ha as [? _]. congruence.
  - apply andb_true_iff in Ha as [_ Ha].
    apply andb_true_iff in Ha' as [_ Ha'].
    match goal with
    | E' : a ++ c :: x = a' ++ c' :: y |- _ =>
        destruct (IH a' Ha Ha' Hc Hc' E') as (-> & -> & ->)
    end. done.
Qed.

(** A pair whose remainder carries a minus sign is no match. *)
Lemma donut_signed_unmatched V rest :
  forallb Re.digit_or_dot V = true ->
  Re.match_here donut_pattern
    (dq :: txt "values" ++ dq :: txt ": [" ++ V ++ txt ", -" ++ rest)
  = None.
Proof.
  intros HV.
  destruct (Re.match_here donut_pattern _) as [[m r]|] eqn:Hm; [|done].
  exfalso. apply match_here_sound in Hm as [Hm E].
  unfold donut_pattern in Hm. invert_matches Hm.
  cbn [concat] in E. rewrite app_nil_r in E.
  change (dq :: txt "values" ++ dq :: txt ": [" ++ V ++ txt ", -" ++ rest)
    with ((dq :: txt "values" ++ dq :: txt ": [") ++ V ++ txt ", -" ++ rest)
    in E.
  rewrite <- !app_assoc in E. apply app_inv_head in E.
  match goal with
  | HV' : forallb Re.digit_or_dot ?V' = true,
    HR : forallb Re.digit_or_dot ?R = true,
    HRne : ?R <> [] |- _ =>
      destruct (run_unique Re.digit_or_dot V V' (txt " -" ++ rest)
                  (txt " " ++ R ++ txt "]" ++ r) ","%char ","%char HV HV'
                  eq_refl eq_refl E) as (_ & _ & E');
      destruct R as [|d R]; [done|];
      simpl in HR; apply andb_true_iff in HR as [Hd _];
      change (txt " -" ++ rest) with (" "%char :: "-"%char :: rest) in E';
      change (txt " " ++ (d :: R) ++ txt "]" ++ r)
        with (" "%char :: d :: R ++ txt "]" ++ r) in E';
      simplify_eq
  end.
Qed.

(** A match of the pattern becomes the pair 100.0 and 0 when its value
    exceeds 100 and is returned as it is otherwise. *)
Lemma fix_donut_match s m r v :
  Re.match_here donut_pattern s = Some (m, r) ->
  PyFloat.of_text (donut_value m) = Ok v ->
  Re.whole m <> []
  /\ fix_donut m
     = Ok (if PyFloat.lt PyFloat.f100 v
           then dq :: txt "values" ++ dq :: txt ": [100.0, 0]"
           else Re.whole m).
Proof.
  intros Hm Hv. apply match_here_sound in Hm as [Hm _].
  split.
  - unfold donut_pattern in Hm. by invert_matches Hm.
  - unfold fix_donut. rewrite Hv. simpl. by destruct (PyFloat.lt _ _).
Qed.

Lemma donut_pass_rewritten html out :
  ReSub.sub donut_pattern fix_donut html = Ok out ->
  rewritten donut_pattern fix_donut html out.
Proof.
  intros H. apply (sub_from_rewritten _ _ 0 html out); [|done].
  intros s' m r Hm. apply match_here_sound in Hm as [Hm _].
  unfold donut_pattern in Hm. by invert_matches Hm.
Qed.

End Donut.

(** ** Running the corrector again *)

Section Again.
Implicit Types (html out pre post : text) (m : Re.pieces).

(** A second pass changes nothing when the first one returned a document
    without formula bar, or one whose shares add up. *)
Lemma patch_report_settled html out :
  patch_report html = Ok out ->
  (Re.search formula_pattern out = None
   \/ exists pre m post e b u,
        Re.search formula_pattern out = Some (pre, m, post)
        /\ PyFloat.of_text (formula_explained m) = Ok e
        /\ PyFloat.of_text (formula_background m) = Ok b
        /\ PyFloat.of_text (formula_unmatched m) = Ok u
        /\ already_correct e b u = true) ->
  patch_report out = Ok out.
Proof.
  intros _ [H|(pre & m & post & e & b & u & Hs & He & Hb & Hu & Hok)];
    unfold patch_report.
  - by rewrite H.
  - rewrite Hs, He. simpl. rewrite Hb. simpl. rewrite Hu. simpl.
    by rewrite Hok.
Qed.

(** The scenario of the specification is settled after one pass. *)
Example patch_report_twice_scenario :
  patch_report Sample.patched_report = Ok Sample.patched_report.
Proof. vm_compute. reflexivity. Qed.

End Again.

(** ** [_parse_float] *)

Section ParseFloat.
Implicit Types (s pre run rest : text).

(** A run of a class that stops at a character outside the class is what
    [c+] takes. *)
Lemma many1_run (c : ascii -> bool) run rest :
  run <> [] -> forallb c run = true ->
  match rest with [] => True | a :: _ => c a = false end ->
  Re.match_here [Re.Many1 c] (run ++ rest) = Some ([run], rest).
Proof.
  intros Hne Hrun Hrest.
  assert (forall r, forallb c r = true ->
            Re.greedy c (Re.match_here []) (r ++ rest)
            = Some (r, ([], rest))) as Hgreedy.
  { induction r as [|a r IH]; intros Hr.
    - destruct rest as [|a rest]; [done|].
      cbn [app Re.greedy]. by rewrite Hrest.
    - simpl in Hr. apply andb_true_iff in Hr as [Ha Hr].
      change ((a :: r) ++ rest) with (a :: (r ++ rest)).
      cbn [Re.greedy]. rewrite Ha. by rewrite (IH Hr). }
  destruct run as [|a run]; [done|].
  simpl in Hrun. apply andb_true_iff in Hrun as [Ha Hrun].
  change ((a :: run) ++ rest) with (a :: (run ++ rest)).
  cbn [Re.match_here]. rewrite Ha.
  change (fun s : text => Some ([], s)) with (Re.match_here []).
  by rewrite (Hgreedy run Hrun).
Qed.

Lemma many1_miss (c : ascii -> bool) a s :
  c a = false -> Re.match_here [Re.Many1 c] (a :: s) = None.
Proof. intros H. cbn [Re.match_here]. by rewrite H. Qed.

(** X1. [_parse_float] converts the first run of digits and dots of the
    text and nothing else: what stands before it (a sign, a label) and
    what follows it (a percent sign, another number) do not count. *)
Theorem parse_float_first_run pre run rest :
  forallb (fun c => negb (Re.digit_or_dot c)) pre = true ->
  run <> [] -> forallb Re.digit_or_dot run = true ->
  match rest with [] => True | a :: _ => Re.digit_or_dot a = false end ->
  _parse_float (pre ++ run ++ rest) = PyFloat.of_text run.
Proof.
  intros Hpre Hne Hrun Hrest. unfold _parse_float.
  assert (Re.search [Re.Many1 Re.digit_or_dot] (pre ++ run ++ rest)
          = Some (pre, [run], rest)) as ->.
  { induction pre as [|a pre IH].
    - simpl app. destruct (run ++ rest) as [|x xs] eqn:E.
      + by destruct run.
      + cbn [Re.search]. rewrite <- E. by rewrite many1_run.
    - simpl in Hpre. apply andb_true_iff in Hpre as [Ha Hpre].
      apply negb_true_iff in Ha.
      change ((a :: pre) ++ run ++ rest) with (a :: pre ++ run ++ rest).
      cbn [Re.search]. rewrite many1_miss by done.
      by rewrite (IH Hpre). }
  unfold Re.span. simpl. by rewrite app_nil_r.
Qed.

(** A signed percentage: the sign and the percent sign are dropped. *)
Lemma parse_float_first_run_witness :
  _parse_float (txt "-43.2% of 80") = Ok (PyFloat.of_decimal 432 1).
Proof.
  change (txt "-43.2% of 80") with (txt "-" ++ txt "43.2" ++ txt "% of 80").
  rewrite parse_float_first_run; vm_compute; done.
Defined.

(** X2. A text without digit and without dot is read as [0.0]; nothing is
    raised. *)
Theorem parse_float_default s :
  forallb (fun c => negb (Re.digit_or_dot c)) s = true ->
  _parse_float s = Ok PyFloat.fzero.
Proof.
  intros Hs. unfold _parse_float.
  assert (Re.search [Re.Many1 Re.digit_or_dot] s = None) as ->; [|done].
  induction s as [|a s IH]; [done|].
  simpl in Hs. apply andb_true_iff in Hs as [Ha Hs].
  apply negb_true_iff in Ha.
  cbn [Re.search]. rewrite many1_miss by done. by rewrite (IH Hs).
Qed.

Lemma parse_float_default_witness :
  _parse_float (txt "n/a") = Ok PyFloat.fzero.
Proof. apply parse_float_default. vm_compute. reflexivity. Defined.

End ParseFloat.

(** ** Running [rename_titles] again *)

Section RenameAgain.
Implicit Types (s r old new w a b html filename house_id : text).

(** A text holds no occurrence of [old], or it has a first one. *)
Lemma first_occurrence old s :
  old <> [] ->
  Text.contains old s = false
  \/ exists a b,
       s = a ++ old ++ b
       /\ forall i, (i < length a)%nat ->
            Text.startswith old (drop i s) = false.
Proof.
  intros Hold. induction s as [|c s IH].
  - left. destruct old; [done|]. done.
  - destruct (Text.startswith old (c :: s)) eqn:Hs.
    + right. apply startswith_true in Hs as [r ->].
      exists [], r. split; [done|]. simpl. lia.
    + destruct IH as [IH|(a & b & -> & IH)].
      * left. simpl. by rewrite Hs, IH.
      * right. exists (c :: a), b. split; [done|].
        intros [|i] Hi; [done|]. simpl in *. apply IH. lia.
Qed.

(** Replacing [old] by [new] leaves no occurrence of [w] when no
    occurrence of [w] can overlap [new] and the text had none but where
    [old] stood. *)
Lemma replace_free old new w s :
  old <> [] -> apart w new = true ->
  (forall i, Text.startswith w (drop i s) = true ->
             Text.startswith old (drop i s) = true) ->
  Text.contains w (Text.replace old new s) = false.
Proof.
  intros Hold Hap.
  assert (w <> []) as Hw by (by destruct w).
  remember (length s) as n eqn:En. revert s En.
  induction n as [n IH] using lt_wf_ind. intros s -> Hocc.
  apply not_true_iff_false. intros Hin.
  apply contains_true in Hin as [i Hi].
  destruct (first_occurrence old s Hold) as [Hnone|(a & b & E & Hfirst)].
  - rewrite replace_absent in Hi by done.
    apply Hocc in Hi. apply not_true_iff_false in Hnone.
    apply Hnone, contains_true. by exists i.
  - subst s. rewrite replace_first in Hi by done.
    destruct (decide (i + length w <= length a)%nat) as [Hin|Hout].
    + assert (i < length a)%nat as Hlt by (destruct w; [done|simpl in *; lia]).
      rewrite drop_app_le in Hi by lia.
      rewrite startswith_app_short in Hi by (rewrite length_drop; lia).
      assert (Text.startswith old (drop i (a ++ old ++ b)) = true) as Hold'.
      { apply Hocc. rewrite drop_app_le by lia. by apply startswith_app_l. }
      by rewrite (Hfirst i Hlt) in Hold'.
    + destruct (decide (i < length a + length new)%nat) as [Hnew|Hafter].
      * rewrite (apart_no_overlap w new a _ i Hap) in Hi; [done|lia|lia].
      * rewrite app_assoc, drop_app_ge in Hi
          by (rewrite length_app; lia).
        rewrite length_app in Hi.
        assert (Text.contains w (Text.replace old new b) = true) as Hb.
        { apply contains_true. eauto. }
        rewrite (IH (length b)) in Hb; [done| |done|].
        { rewrite !length_app. destruct old; [done|simpl; lia]. }
        intros j Hj.
        specialize (Hocc (length a + length old + j)%nat).
        rewrite app_assoc, drop_app_ge in Hocc
          by (rewrite length_app; lia).
        rewrite length_app in Hocc.
        replace (length a + length old + j - (length a + length old))%nat
          with j in Hocc by lia.
        by apply Hocc.
Qed.

Lemma replace_cleared old new s :
  apart old new = true ->
  Text.contains old (Text.replace old new s) = false.
Proof.
  intros Hap. apply replace_free; [by destruct old|done|done].
Qed.

Lemma replace_still_free old new w s :
  old <> [] -> apart w new = true ->
  Text.contains w s = false ->
  Text.contains w (Text.replace old new s) = false.
Proof.
  intros Hold Hap Hs. apply replace_free; [done|done|].
  intros i Hi. apply not_true_iff_false in Hs. destruct Hs.
  apply contains_true. by exists i.
Qed.

(** Two replacements in a row, each of a text that can overlap neither
    what it is replaced by nor what the other one is replaced by, change
    nothing when they are run again. *)
Lemma replace_twice_again old1 new1 old2 new2 s :
  apart old1 new1 = true -> apart old1 new2 = true ->
  apart old2 new2 = true ->
  let once := Text.replace old2 new2 (Text.replace old1 new1 s) in
  Text.replace old2 new2 (Text.replace old1 new1 once) = once.
Proof.
  intros H11 H12 H22 once.
  assert (old1 <> []) as Ho1 by (by destruct old1).
  assert (old2 <> []) as Ho2 by (by destruct old2).
  assert (Text.contains old1 once = false) as Hfree1.
  { apply replace_still_free; [done|done|]. by apply replace_cleared. }
  rewrite (replace_absent old1 new1 once) by done.
  apply replace_absent; [done|]. by apply replace_cleared.
Qed.

Lemma differ_app_r s r t : differ s t = true -> differ s (t ++ r) = true.
Proof.
  revert t. induction s as [|a s IH]; intros [|b t] H; try done.
  simpl in *. apply orb_true_iff in H as [->|H]; [done|].
  rewrite IH by done. apply orb_true_r.
Qed.

(** Two texts [c d P id Q] and [c d' P' id' Q'] are [apart] as soon as
    their fixed parts are and the identifiers are free of [c]. *)
Lemma apart_framed_both c d d' (P Q P' Q' id id' : text) :
  apart (c :: d :: P) (c :: d' :: P') = true ->
  followed_ok c d' Q = true -> followed_ok c d Q' = true ->
  forallb (fun x => negb (Ascii.eqb x c)) id = true ->
  forallb (fun x => negb (Ascii.eqb x c)) id' = true ->
  apart (c :: d :: P ++ id ++ Q) (c :: d' :: P' ++ id' ++ Q') = true.
Proof.
  unfold apart. rewrite !andb_true_iff.
  intros [[[Hc HP] HP'] Hdiff] HQ HQ' Hid Hid'.
  split_and!; [done| | |].
  - change (d :: P ++ id ++ Q) with ((d :: P) ++ id ++ Q).
    apply followed_ok_app; [done|].
    apply followed_ok_app; [|done]. by apply followed_ok_without.
  - change (d' :: P' ++ id' ++ Q') with ((d' :: P') ++ id' ++ Q').
    apply followed_ok_app; [done|].
    apply followed_ok_app; [|done]. by apply followed_ok_without.
  - change (c :: d :: P ++ id ++ Q) with ((c :: d :: P) ++ id ++ Q).
    change (c :: d' :: P' ++ id' ++ Q') with ((c :: d' :: P') ++ id' ++ Q').
    by apply differ_app_l, differ_app_r.
Qed.

Lemma house_renamed_apart house_id :
  forallb Re.is_digit house_id = true ->
  apart (house_title_old house_id) (house_title_new house_id) = true
  /\ apart (house_title_old house_id) (house_h1_new house_id) = true
  /\ apart (house_h1_old house_id) (house_h1_new house_id) = true.
Proof.
  intros Hd%digits_without_lt.
  split_and!.
  - apply (apart_framed_both "<" "t" "t"
             (txt "itle>Dynamic Threshold Report - House ") (txt "</title>")
             (txt "itle>Dynamic Threshold NaN Filled - House ")
             (txt "</title>") house_id house_id); done.
  - apply (apart_framed_both "<" "t" "h"
             (txt "itle>Dynamic Threshold Report - House ") (txt "</title>")
             (txt "1>Dynamic Threshold NaN Filled - House ")
             (txt "</h1>") house_id house_id); done.
  - apply (apart_framed_both "<" "h" "h"
             (txt "1>Dynamic Threshold Analysis - House ") (txt "</h1>")
             (txt "1>Dynamic Threshold NaN Filled - House ")
             (txt "</h1>") house_id house_id); done.
Qed.

(** X3. [rename_titles] is idempotent: on a document it has renamed it
    changes nothing, under the same file name. A second run of the script
    does not rename again. *)
Theorem rename_titles_idempotent html filename :
  rename_titles (rename_titles html filename) filename
  = rename_titles html filename.
Proof.
  unfold rename_titles.
  destruct (house_of filename) as [house_id|] eqn:Hid.
  - apply house_of_digits in Hid.
    destruct (house_renamed_apart house_id Hid) as (Htt & Hth & Hhh).
    by apply replace_twice_again.
  - by apply replace_twice_again.
Qed.

(** Two such replacements in a row give the text back exactly when it
    holds neither of the texts they replace. *)
Lemma replace_twice_fixed old1 new1 old2 new2 s :
  apart old1 new1 = true -> apart old1 new2 = true ->
  apart old2 new2 = true ->
  Text.replace old2 new2 (Text.replace old1 new1 s) = s
  <-> Text.contains old1 s = false /\ Text.contains old2 s = false.
Proof.
  intros H11 H12 H22.
  assert (old1 <> []) as Ho1 by (by destruct old1).
  assert (old2 <> []) as Ho2 by (by destruct old2).
  split.
  - intros Hfix.
    assert (Text.contains old1 s = false) as Hfree1.
    { rewrite <- Hfix at 1.
      apply replace_still_free; [done|done|]. by apply replace_cleared. }
    split; [done|].
    rewrite (replace_absent old1 new1 s) in Hfix by done.
    rewrite <- Hfix. by apply replace_cleared.
  - intros [Hfree1 Hfree2].
    rewrite (replace_absent old1 new1 s) by done. by apply replace_absent.
Qed.

(** X4. [rename_titles] changes a document exactly when the document
    holds one of the two old texts of its file name, the title or the
    heading: a document with neither comes back as it is, and one with
    either never does. *)
Theorem rename_titles_changes html filename :
  rename_titles html filename = html
  <-> match house_of filename with
      | Some house_id =>
          Text.contains (house_title_old house_id) html = false
          /\ Text.contains (house_h1_old house_id) html = false
      | None =>
          Text.contains aggregate_title_old html = false
          /\ Text.contains aggregate_h1_old html = false
      end.
Proof.
  unfold rename_titles.
  destruct (house_of filename) as [house_id|] eqn:Hid.
  - apply house_of_digits in Hid.
    destruct (house_renamed_apart house_id Hid) as (Htt & Hth & Hhh).
    by apply replace_twice_fixed.
  - by apply replace_twice_fixed.
Qed.

End RenameAgain.

(** ** The house identifier of a file name *)

Section HouseName.
Implicit Types (html house_id rest : text).

(** X5. In a file name that starts with [dynamic_report_] and a digit, the
    house identifier is the run of digits that follows the prefix,
    whatever comes after it: the titles [rename_titles] exchanges are
    those of that house. *)
Theorem house_of_prefixed house_id rest html :
  house_id <> [] -> forallb Re.is_digit house_id = true ->
  match rest with [] => True | a :: _ => Re.is_digit a = false end ->
  let filename := txt "dynamic_report_" ++ house_id ++ rest in
  house_of filename = Some house_id
  /\ rename_titles html filename
     = Text.replace (house_h1_old house_id) (house_h1_new house_id)
         (Text.replace (house_title_old house_id)
            (house_title_new house_id) html).
Proof.
  intros Hne Hid Hrest filename.
  assert (house_of filename = Some house_id) as E.
  { unfold house_of, filename, house_pattern.
    assert (Re.match_here [Re.Lit (txt "dynamic_report_");
                           Re.Many1 Re.is_digit]
              (txt "dynamic_report_" ++ house_id ++ rest)
            = Some ([txt "dynamic_report_"; house_id], rest)) as Hm.
    { cbn [Re.match_here]. rewrite strip_prefix_app. cbn [mbind option_bind].
      change (Re.match_here [Re.Many1 Re.is_digit] (house_id ++ rest)
              ≫= (fun '(caps, r) => Some (txt "dynamic_report_" :: caps, r))
              = Some ([txt "dynamic_report_"; house_id], rest)).
      by rewrite many1_run. }
    destruct (txt "dynamic_report_" ++ house_id ++ rest) eqn:Es; [done|].
    cbn [Re.search]. rewrite Hm. cbn. unfold Re.span. cbn.
    by rewrite app_nil_r. }
  split; [done|]. unfold rename_titles. by rewrite E.
Qed.

(** The seventh house, with a suffix after the number. *)
Lemma house_of_prefixed_witness :
  house_of (txt "dynamic_report_7_old.html") = Some (txt "7").
Proof.
  change (txt "dynamic_report_7_old.html")
    with (txt "dynamic_report_" ++ txt "7" ++ txt "_old.html").
  apply (house_of_prefixed (txt "7") (txt "_old.html") []);
    vm_compute; done.
Defined.

End HouseName.

(** ** The titles [rename_titles] exchanges *)

Section Scoped.
#[local] Arguments txt : simpl never.
Implicit Types (html filename house_id other s t pre rest : text).

Lemma differ_sym s t : differ s t = differ t s.
Proof.
  revert t. induction s as [|x s IH]; intros [|y t]; try done.
  simpl. rewrite IH.
  by destruct (Ascii.eqb_spec x y), (Ascii.eqb_spec y x); subst.
Qed.

Lemma apart_sym s t : apart s t = apart t s.
Proof.
  destruct s as [|c [|d s]], t as [|c' [|d' t]]; try done.
  unfold apart. rewrite (differ_sym (c :: d :: s)).
  destruct (Ascii.eqb_spec c c') as [->|Hne].
  - rewrite (proj2 (Ascii.eqb_eq c' c') eq_refl).
    by destruct (followed_ok c' d' (d :: s)), (followed_ok c' d (d' :: t)).
  - by destruct (Ascii.eqb_spec c' c) as [->|_].
Qed.

Lemma differ_prefix (P s t : text) : differ (P ++ s) (P ++ t) = differ s t.
Proof.
  induction P as [|x P IH]; [done|]. simpl.
  by rewrite (proj2 (Ascii.eqb_eq x x) eq_refl).
Qed.

(** Two runs of digits that are not the same, each before a character
    that is no digit, differ at a place both have. *)
Lemma differ_ids (id id' Q : text) q :
  forallb Re.is_digit id = true -> forallb Re.is_digit id' = true ->
  Re.is_digit q = false -> id <> id' ->
  differ (id ++ q :: Q) (id' ++ q :: Q) = true.
Proof.
  intros Hid Hid' Hq. revert id' Hid'.
  induction id as [|x id IH]; intros [|y id'] Hid' Hne; try done.
  - simpl in *. apply andb_true_iff in Hid' as [Hy _].
    destruct (Ascii.eqb_spec q y) as [->|_]; [congruence|done].
  - simpl in *. apply andb_true_iff in Hid as [Hx _].
    destruct (Ascii.eqb_spec x q) as [->|_]; [congruence|done].
  - simpl in *. apply andb_true_iff in Hid as [_ Hid].
    apply andb_true_iff in Hid' as [_ Hid'].
    destruct (Ascii.eqb_spec x y) as [->|_]; [|done]. simpl.
    apply IH; [done|done|congruence].
Qed.

(** No occurrence of a text that is [self_apart] starts inside another,
    or runs into another. *)
Lemma self_no_overlap old x y i :
  self_apart old = true -> i <> length x ->
  (i < length x + length old)%nat -> (length x < i + length old)%nat ->
  Text.startswith old (drop i (x ++ old ++ y)) = false.
Proof.
  intros Hap Hne Hi Hx. apply not_true_iff_false. intros Hocc.
  destruct old as [|c [|d old]]; try done.
  unfold self_apart in Hap.
  set (o := c :: d :: old) in *.
  assert (forall k a, o !! k = Some a ->
            (x ++ o ++ y) !! (length x + k)%nat = Some a) as Hv.
  { intros k a Hk. rewrite lookup_app_r by lia.
    replace (length x + k - length x)%nat with k by lia.
    by apply lookup_app_l_Some. }
  destruct (decide (i < length x)%nat) as [Hlt|Hge].
  - remember (length x - i)%nat as j0 eqn:Ej.
    assert (is_Some (o !! j0)) as [a Ha].
    { apply lookup_lt_is_Some. lia. }
    pose proof (startswith_lookup _ _ _ _ _ Hocc Ha) as H1.
    replace (i + j0)%nat with (length x + 0)%nat in H1 by lia.
    rewrite (Hv 0%nat c eq_refl) in H1.
    assert (a = c) as -> by congruence. clear H1.
    destruct j0 as [|j]; [lia|].
    destruct (followed_ok_spec _ _ _ j Hap Ha) as (e & He & Hed).
    pose proof (startswith_lookup o _ _ (S (S j)) e Hocc He) as H2.
    replace (i + S (S j))%nat with (length x + 1)%nat in H2 by lia.
    rewrite (Hv 1%nat d eq_refl) in H2. congruence.
  - remember (i - length x)%nat as j0 eqn:Ej.
    assert (is_Some (o !! j0)) as [a Ha].
    { apply lookup_lt_is_Some. lia. }
    pose proof (Hv _ _ Ha) as H1.
    replace (length x + j0)%nat with (i + 0)%nat in H1 by lia.
    rewrite (startswith_lookup o _ _ 0%nat c Hocc eq_refl) in H1.
    assert (a = c) as -> by congruence. clear H1.
    destruct j0 as [|j]; [lia|].
    destruct (followed_ok_spec _ _ _ j Hap Ha) as (e & He & Hed).
    pose proof (Hv (S (S j)) e He) as H2.
    replace (length x + S (S j))%nat with (i + 1)%nat in H2 by lia.
    rewrite (startswith_lookup o _ _ 1%nat d Hocc eq_refl) in H2.
    congruence.
Qed.

(** An occurrence of such a text is replaced where it stands, whatever
    stands around it. *)
Lemma replace_own old new a b :
  self_apart old = true ->
  Text.replace old new (a ++ old ++ b)
  = Text.replace old new a ++ new ++ Text.replace old new b.
Proof.
  intros Hap. assert (old <> []) as Hold by (by destruct old).
  rewrite !replace_nonempty by done.
  rewrite replace_from_app; [|done| |lia].
  - by rewrite replace_from_hit.
  - intros i Hi Hocc.
    destruct (decide (i + length old <= length a)%nat); [done|].
    rewrite (self_no_overlap old a b i Hap) in Hocc; [done|lia|lia|lia].
Qed.

(** Two replacements in a row: the text the first one replaces is
    exchanged where it stands, and so is the text the second one replaces;
    a text that neither can overlap is copied. *)
Lemma replace_twice_first old1 new1 old2 new2 a b :
  self_apart old1 = true -> apart old2 new1 = true ->
  Text.replace old2 new2 (Text.replace old1 new1 (a ++ old1 ++ b))
  = Text.replace old2 new2 (Text.replace old1 new1 a) ++ new1
    ++ Text.replace old2 new2 (Text.replace old1 new1 b).
Proof. intros H1 H2. by rewrite replace_own, replace_apart. Qed.

Lemma replace_twice_second old1 new1 old2 new2 a b :
  apart old1 old2 = true -> self_apart old2 = true ->
  Text.replace old2 new2 (Text.replace old1 new1 (a ++ old2 ++ b))
  = Text.replace old2 new2 (Text.replace old1 new1 a) ++ new2
    ++ Text.replace old2 new2 (Text.replace old1 new1 b).
Proof. intros H1 H2. by rewrite replace_apart, replace_own. Qed.

Lemma replace_twice_copied old1 new1 old2 new2 w a b :
  apart old1 w = true -> apart old2 w = true ->
  Text.replace old2 new2 (Text.replace old1 new1 (a ++ w ++ b))
  = Text.replace old2 new2 (Text.replace old1 new1 a) ++ w
    ++ Text.replace old2 new2 (Text.replace old1 new1 b).
Proof. intros H1 H2. by rewrite !replace_apart. Qed.

Lemma replace_twice_cleared old1 new1 old2 new2 s :
  apart old1 new1 = true -> apart old1 new2 = true ->
  apart old2 new2 = true ->
  Text.contains old1
    (Text.replace old2 new2 (Text.replace old1 new1 s)) = false
  /\ Text.contains old2
       (Text.replace old2 new2 (Text.replace old1 new1 s)) = false.
Proof.
  intros H11 H12 H22. split.
  - apply replace_still_free; [by destruct old2|done|].
    by apply replace_cleared.
  - by apply replace_cleared.
Qed.

Lemma self_apart_framed c d (P Q id : text) :
  followed_ok c d (d :: P) = true -> followed_ok c d Q = true ->
  forallb (fun x => negb (Ascii.eqb x c)) id = true ->
  self_apart (c :: d :: P ++ id ++ Q) = true.
Proof.
  intros HP HQ Hid. unfold self_apart.
  change (d :: P ++ id ++ Q) with ((d :: P) ++ id ++ Q).
  apply followed_ok_app; [done|].
  apply followed_ok_app; [|done]. by apply followed_ok_without.
Qed.

(** Two texts with the same frame and different runs of digits in it. *)
Lemma apart_same_frame c d q (P Q id id' : text) :
  followed_ok c d (d :: P) = true -> followed_ok c d (q :: Q) = true ->
  forallb Re.is_digit id = true -> forallb Re.is_digit id' = true ->
  forallb (fun x => negb (Ascii.eqb x c)) id = true ->
  forallb (fun x => negb (Ascii.eqb x c)) id' = true ->
  Re.is_digit q = false -> id <> id' ->
  apart (c :: d :: P ++ id ++ q :: Q) (c :: d :: P ++ id' ++ q :: Q) = true.
Proof.
  intros HP HQ Hd Hd' Hc Hc' Hq Hne. unfold apart.
  rewrite (proj2 (Ascii.eqb_eq c c) eq_refl).
  pose proof (self_apart_framed c d P (q :: Q) id HP HQ Hc) as H1.
  pose proof (self_apart_framed c d P (q :: Q) id' HP HQ Hc') as H2.
  unfold self_apart in H1, H2. rewrite H1, H2. simpl.
  rewrite (proj2 (Ascii.eqb_eq c c) eq_refl).
  rewrite (proj2 (Ascii.eqb_eq d d) eq_refl). simpl.
  rewrite differ_prefix. by apply differ_ids.
Qed.

Lemma house_own_apart house_id :
  forallb Re.is_digit house_id = true ->
  self_apart (house_title_old house_id) = true
  /\ self_apart (house_h1_old house_id) = true
  /\ apart (house_h1_old house_id) (house_title_new house_id) = true
  /\ apart (house_title_old house_id) (house_h1_old house_id) = true.
Proof.
  intros Hd%digits_without_lt. split_and!.
  - apply (self_apart_framed "<" "t"
             (txt "itle>Dynamic Threshold Report - House ") (txt "</title>")
             house_id); done.
  - apply (self_apart_framed "<" "h"
             (txt "1>Dynamic Threshold Analysis - House ") (txt "</h1>")
             house_id); done.
  - apply (apart_framed_both "<" "h" "t"
             (txt "1>Dynamic Threshold Analysis - House ") (txt "</h1>")
             (txt "itle>Dynamic Threshold NaN Filled - House ")
             (txt "</title>") house_id house_id); done.
  - apply (apart_framed_both "<" "t" "h"
             (txt "itle>Dynamic Threshold Report - House ") (txt "</title>")
             (txt "1>Dynamic Threshold Analysis - House ")
             (txt "</h1>") house_id house_id); done.
Qed.

(** The title and the heading of another house. *)
Lemma house_other_apart house_id other :
  forallb Re.is_digit house_id = true -> forallb Re.is_digit other = true ->
  house_id <> other ->
  apart (house_title_old house_id) (house_title_old other) = true
  /\ apart (house_h1_old house_id) (house_title_old other) = true
  /\ apart (house_title_old house_id) (house_h1_old other) = true
  /\ apart (house_h1_old house_id) (house_h1_old other) = true.
Proof.
  intros Hd Hd' Hne.
  pose proof (digits_without_lt _ Hd) as Hc.
  pose proof (digits_without_lt _ Hd') as Hc'.
  split_and!.
  - apply (apart_same_frame "<" "t" "<"
             (txt "itle>Dynamic Threshold Report - House ") (txt "/title>")
             house_id other); done.
  - apply (apart_framed_both "<" "h" "t"
             (txt "1>Dynamic Threshold Analysis - House ") (txt "</h1>")
             (txt "itle>Dynamic Threshold Report - House ")
             (txt "</title>") house_id other); done.
  - apply (apart_framed_both "<" "t" "h"
             (txt "itle>Dynamic Threshold Report - House ") (txt "</title>")
             (txt "1>Dynamic Threshold Analysis - House ")
             (txt "</h1>") house_id other); done.
  - apply (apart_same_frame "<" "h" "<"
             (txt "1>Dynamic Threshold Analysis - House ") (txt "/h1>")
             house_id other); done.
Qed.

(** A run of a class is followed by the end of the text or by a character
    outside the class. *)
Lemma span_run (c : ascii -> bool) s :
  exists run rest,
    s = run ++ rest /\ forallb c run = true
    /\ match rest with [] => True | a :: _ => c a = false end.
Proof.
  induction s as [|a s (run & rest & -> & Hr & Hrest)]; [by exists [], []|].
  destruct (c a) eqn:Ha.
  - exists (a :: run), rest. simpl. by rewrite Ha.
  - exists [], (a :: run ++ rest). done.
Qed.

Lemma house_match house_id rest :
  house_id <> [] -> forallb Re.is_digit house_id = true ->
  match rest with [] => True | a :: _ => Re.is_digit a = false end ->
  Re.match_here house_pattern (txt "dynamic_report_" ++ house_id ++ rest)
  = Some ([txt "dynamic_report_"; house_id], rest).
Proof.
  intros Hne Hid Hrest. unfold house_pattern.
  cbn [Re.match_here]. rewrite strip_prefix_app. cbn [mbind option_bind].
  change (Re.match_here [Re.Many1 Re.is_digit] (house_id ++ rest)
          ≫= (fun '(caps, r) => Some (txt "dynamic_report_" :: caps, r))
          = Some ([txt "dynamic_report_"; house_id], rest)).
  by rewrite many1_run.
Qed.

Lemma house_match_here s :
  is_Some (Re.match_here house_pattern s) <-> house_at s.
Proof.
  split.
  - intros [[m r] Hm]. apply match_here_sound in Hm as [Hm ->].
    unfold house_pattern in Hm. invert_matches Hm.
    match goal with
    | H : ?cap <> [] |- _ => destruct cap as [|c0 digits]; [done|]
    end.
    exists c0, (digits ++ r). split.
    + simpl. by rewrite app_nil_r.
    + match goal with
      | H : forallb _ (_ :: _) = true |- _ =>
          simpl in H; by apply andb_true_iff in H as [? _]
      end.
  - intros (c & t & -> & Hc).
    destruct (span_run Re.is_digit t) as (run & rest & -> & Hrun & Hrest).
    change (txt "dynamic_report_" ++ c :: run ++ rest)
      with (txt "dynamic_report_" ++ (c :: run) ++ rest).
    rewrite house_match; [by eexists|done| |done].
    simpl. by rewrite Hc.
Qed.

Lemma house_match_None s :
  Re.match_here house_pattern s = None <-> ~ house_at s.
Proof.
  rewrite <- house_match_here. rewrite <- eq_None_not_Some. done.
Qed.

(** The match that [re.search] returns is the one at the first position
    that has a match. *)
Lemma search_found p s pre m r :
  (forall i, (i < length pre)%nat ->
             Re.match_here p (drop i (pre ++ s)) = None) ->
  Re.match_here p s = Some (m, r) ->
  Re.search p (pre ++ s) = Some (pre, m, r).
Proof.
  induction pre as [|a pre IH]; intros Hnone Hm.
  - simpl. destruct s; cbn [Re.search]; by rewrite Hm.
  - pose proof (Hnone 0%nat ltac:(simpl; lia)) as H0.
    cbn [drop app] in H0. cbn [app Re.search]. rewrite H0.
    rewrite IH; [done| |done].
    intros i Hi. apply (Hnone (S i)). simpl. lia.
Qed.

Lemma search_None_iff p s :
  Re.search p s = None <-> forall i, Re.match_here p (drop i s) = None.
Proof.
  split; [intros H i; by apply search_None|].
  induction s as [|a s IH]; intros H.
  - pose proof (H 0%nat) as H0. cbn [drop] in H0.
    cbn [Re.search]. by rewrite H0.
  - pose proof (H 0%nat) as H0. cbn [drop] in H0.
    cbn [Re.search]. rewrite H0.
    rewrite IH; [done|]. intros i. apply (H (S i)).
Qed.

(** The house identifier of a file name is the run of digits of the first
    [dynamic_report_<digits>] in it. *)
Lemma house_of_names filename house_id :
  house_of filename = Some house_id <-> names_house filename house_id.
Proof.
  unfold house_of. split.
  - destruct (Re.search house_pattern filename) as [[[pre m] post]|] eqn:Hs;
      [|done].
    cbn [mbind option_bind]. intros [= <-].
    apply search_sound in Hs as (E & Hm & Hnone).
    pose proof (match_here_sound _ _ _ _ Hm) as [Hmat _].
    unfold house_pattern in Hmat. invert_matches Hmat.
    match goal with
    | Hne : ?cap <> [], Hd : forallb Re.is_digit ?cap = true |- _ =>
        rename cap into id; rename Hne into Hid; rename Hd into Hdig
    end.
    assert (Re.whole [txt "dynamic_report_"; id]
            = txt "dynamic_report_" ++ id) as Ew.
    { unfold Re.whole. cbn [concat]. by rewrite app_nil_r. }
    rewrite Ew in *. clear Ew.
    unfold Re.span. cbn [drop take concat]. rewrite app_nil_r.
    rewrite <- app_assoc in Hm.
    destruct (span_run Re.is_digit post) as (run & rest & -> & Hrun & Hrest).
    assert (run = []) as ->.
    { assert (Re.match_here house_pattern
                (txt "dynamic_report_" ++ (id ++ run) ++ rest)
              = Some ([txt "dynamic_report_"; id ++ run], rest)) as Hm'.
      { apply house_match; [by destruct id| |done].
        by rewrite forallb_app, Hdig, Hrun. }
      rewrite <- app_assoc in Hm'. rewrite Hm in Hm'.
      injection Hm' as Hcap _.
      apply (f_equal length) in Hcap. rewrite length_app in Hcap.
      destruct run; [done|simpl in Hcap; lia]. }
    exists pre, rest. split_and!; try done.
    intros i Hi. apply house_match_None. by apply Hnone.
  - intros (pre & rest & -> & Hne & Hd & Hrest & Hearly).
    rewrite (search_found house_pattern _ pre
               [txt "dynamic_report_"; house_id] rest).
    + cbn [mbind option_bind]. unfold Re.span. cbn [drop take concat].
      by rewrite app_nil_r.
    + intros i Hi. apply house_match_None. by apply Hearly.
    + by apply house_match.
Qed.

Lemma house_of_none filename :
  house_of filename = None <-> names_no_house filename.
Proof.
  unfold house_of, names_no_house.
  destruct (Re.search house_pattern filename) as [[[pre m] post]|] eqn:Hs.
  - cbn [mbind option_bind]. split; [done|]. intros H. exfalso.
    apply search_sound in Hs as (E & Hm & _).
    apply (H (length pre)). apply house_match_here.
    rewrite E, drop_app_length. by eexists.
  - split; [|done]. intros _ i. apply house_match_None.
    by apply search_None.
Qed.

End Scoped.

Section ScopedClaims.
Implicit Types (html filename house_id other a b : text).

(** C7. The house identifier that [rename_titles] works with is the run
    of digits of the first [dynamic_report_<digits>] of the file name.
    With one, the title and the heading of that house are exchanged
    wherever they stand, and nothing else is: the result holds neither of
    the old texts, a document that holds neither comes back as it is, and
    an aggregate title or heading, or the title or heading of another
    house, is copied as it stands, whatever surrounds it. Without an
    identifier in the file name it is the two aggregate texts that are
    exchanged wherever they stand, and the title and the heading of any
    house are copied. *)
Theorem rename_titles_scoped html filename :
  (forall house_id,
     house_of filename = Some house_id <-> names_house filename house_id)
  /\ (house_of filename = None <-> names_no_house filename)
  /\ match house_of filename with
     | Some house_id =>
         (exists parts,
            html = Text.join (house_title_old house_id) parts
            /\ exists parts',
                 Text.join (house_title_new house_id) parts
                 = Text.join (house_h1_old house_id) parts'
                 /\ rename_titles html filename
                    = Text.join (house_h1_new house_id) parts')
         /\ (forall a b,
               rename_titles (a ++ house_title_old house_id ++ b) filename
               = rename_titles a filename ++ house_title_new house_id
                 ++ rename_titles b filename)
         /\ (forall a b,
               rename_titles (a ++ house_h1_old house_id ++ b) filename
               = rename_titles a filename ++ house_h1_new house_id
                 ++ rename_titles b filename)
         /\ Text.contains (house_title_old house_id)
              (rename_titles html filename) = false
         /\ Text.contains (house_h1_old house_id)
              (rename_titles html filename) = false
         /\ (Text.contains (house_title_old house_id) html = false ->
             Text.contains (house_h1_old house_id) html = false ->
             rename_titles html filename = html)
         /\ (forall a b,
               rename_titles (a ++ aggregate_title_old ++ b) filename
               = rename_titles a filename ++ aggregate_title_old
                 ++ rename_titles b filename)
         /\ (forall a b,
               rename_titles (a ++ aggregate_h1_old ++ b) filename
               = rename_titles a filename ++ aggregate_h1_old
                 ++ rename_titles b filename)
         /\ (forall other a b,
               forallb Re.is_digit other = true -> other <> house_id ->
               rename_titles (a ++ house_title_old other ++ b) filename
               = rename_titles a filename ++ house_title_old other
                 ++ rename_titles b filename)
         /\ (forall other a b,
               forallb Re.is_digit other = true -> other <> house_id ->
               rename_titles (a ++ house_h1_old other ++ b) filename
               = rename_titles a filename ++ house_h1_old other
                 ++ rename_titles b filename)
     | None =>
         (exists parts,
            html = Text.join aggregate_title_old parts
            /\ exists parts',
                 Text.join aggregate_title_new parts
                 = Text.join aggregate_h1_old parts'
                 /\ rename_titles html filename
                    = Text.join aggregate_h1_new parts')
         /\ (forall a b,
               rename_titles (a ++ aggregate_title_old ++ b) filename
               = rename_titles a filename ++ aggregate_title_new
                 ++ rename_titles b filename)
         /\ (forall a b,
               rename_titles (a ++ aggregate_h1_old ++ b) filename
               = rename_titles a filename ++ aggregate_h1_new
                 ++ rename_titles b filename)
         /\ Text.contains aggregate_title_old
              (rename_titles html filename) = false
         /\ Text.contains aggregate_h1_old
              (rename_titles html filename) = false
         /\ (Text.contains aggregate_title_old html = false ->
             Text.contains aggregate_h1_old html = false ->
             rename_titles html filename = html)
         /\ (forall other a b,
               forallb Re.is_digit other = true ->
               rename_titles (a ++ house_title_old other ++ b) filename
               = rename_titles a filename ++ house_title_old other
                 ++ rename_titles b filename)
         /\ (forall other a b,
               forallb Re.is_digit other = true ->
               rename_titles (a ++ house_h1_old other ++ b) filename
               = rename_titles a filename ++ house_h1_old other
                 ++ rename_titles b filename)
     end.
Proof.
  split; [intros house_id; apply house_of_names|].
  split; [apply house_of_none|].
  unfold rename_titles.
  destruct (house_of filename) as [house_id|] eqn:Hid.
  - apply house_of_digits in Hid.
    destruct (house_strings_apart house_id Hid) as (Htt & Hth & Hht & Hhh).
    destruct (house_renamed_apart house_id Hid) as (Hn1 & Hn2 & Hn3).
    destruct (house_own_apart house_id Hid) as (Hs1 & Hs2 & Ho1 & Ho2).
    split_and!.
    + destruct (replace_join (house_title_old house_id)
                  (house_title_new house_id) html) as (parts & E1 & E2);
        [done|].
      exists parts. split; [done|]. rewrite E2.
      destruct (replace_join (house_h1_old house_id)
                  (house_h1_new house_id)
                  (Text.join (house_title_new house_id) parts))
        as (parts' & E3 & E4); [done|].
      by exists parts'.
    + intros a b. by apply replace_twice_first.
    + intros a b. by apply replace_twice_second.
    + by apply replace_twice_cleared.
    + by apply replace_twice_cleared.
    + intros H1 H2. rewrite (replace_absent _ _ html) by done.
      by apply replace_absent.
    + intros a b. by apply replace_twice_copied.
    + intros a b. by apply replace_twice_copied.
    + intros other a b Hd Hne.
      destruct (house_other_apart house_id other) as (A1 & A2 & _ & _);
        [done|done|congruence|].
      by apply replace_twice_copied.
    + intros other a b Hd Hne.
      destruct (house_other_apart house_id other) as (_ & _ & A3 & A4);
        [done|done|congruence|].
      by apply replace_twice_copied.
  - split_and!.
    + destruct (replace_join aggregate_title_old aggregate_title_new html)
        as (parts & E1 & E2); [done|].
      exists parts. split; [done|]. rewrite E2.
      destruct (replace_join aggregate_h1_old aggregate_h1_new
                  (Text.join aggregate_title_new parts))
        as (parts' & E3 & E4); [done|].
      by exists parts'.
    + intros a b. by apply replace_twice_first.
    + intros a b. by apply replace_twice_second.
    + by apply replace_twice_cleared.
    + by apply replace_twice_cleared.
    + intros H1 H2. rewrite (replace_absent _ _ html) by done.
      by apply replace_absent.
    + intros other a b Hd.
      destruct (house_strings_apart other Hd) as (Htt & Hth & _ & _).
      apply replace_twice_copied; by rewrite apart_sym.
    + intros other a b Hd.
      destruct (house_strings_apart other Hd) as (_ & _ & Hht & Hhh).
      apply replace_twice_copied; by rewrite apart_sym.
Qed.

(** The file name of the seventh house, and the title of its report. *)
Lemma rename_titles_scoped_witness :
  house_of (txt "dynamic_report_7.html") = Some (txt "7")
  /\ rename_titles (house_title_old (txt "7")) (txt "dynamic_report_7.html")
     = txt "<title>Dynamic Threshold NaN Filled - House 7</title>".
Proof.
  destruct (rename_titles_scoped [] (txt "dynamic_report_7.html"))
    as (Hname & _ & Hscope).
  assert (house_of (txt "dynamic_report_7.html") = Some (txt "7")) as E.
  { apply Hname. exists [], (txt ".html"). split_and!; try done.
    simpl. intros i Hi. lia. }
  split; [exact E|]. rewrite E in Hscope.
  destruct Hscope as (_ & Htitle & _).
  specialize (Htitle [] []). rewrite app_nil_r in Htitle.
  exact Htitle.
Defined.

End ScopedClaims.

(** ** Numerals with one decimal, read and printed *)

Section Numerals.
Implicit Types (s : text) (n q r c : N).

Lemma digits_val_acc (d : Decimal.uint) (acc : positive) :
  PyFloat.digits_val (Npos acc) (txt (NilEmpty.string_of_uint d))
  = Some (Npos (Pos.of_uint_acc d acc)).
Proof.
  revert acc. induction d as [|d IH|d IH|d IH|d IH|d IH|d IH|d IH|d IH|d IH|d IH];
    intros acc; [done|..];
    cbn [NilEmpty.string_of_uint txt list_ascii_of_string PyFloat.digits_val
         Pos.of_uint_acc];
    (match goal with
     | |- context [PyFloat.digit_val ?c] =>
         change (PyFloat.digit_val c)
           with (Some (N.of_nat (nat_of_ascii c - 48)))
     end);
    cbn [mbind option_bind]; rewrite <- IH; f_equal; simpl; lia.
Qed.

Lemma digits_val_uint (d : Decimal.uint) :
  PyFloat.digits_val 0 (txt (NilEmpty.string_of_uint d))
  = Some (N.of_uint d).
Proof.
  unfold N.of_uint.
  induction d as [|d IH|d IH|d IH|d IH|d IH|d IH|d IH|d IH|d IH|d IH];
    [done|exact IH|..];
    cbn [NilEmpty.string_of_uint txt list_ascii_of_string PyFloat.digits_val
         Pos.of_uint];
    (match goal with
     | |- context [PyFloat.digit_val ?c] =>
         change (PyFloat.digit_val c)
           with (Some (N.of_nat (nat_of_ascii c - 48)))
     end);
    cbn [mbind option_bind]; rewrite <- digits_val_acc; f_equal.
Qed.

(** [int(str(n)) == n], for the digits of a numeral. *)
Lemma digits_val_decimal n : PyFloat.digits_val 0 (PyFloat.decimal n) = Some n.
Proof.
  unfold PyFloat.decimal. rewrite digits_val_uint.
  f_equal. apply DecimalN.Unsigned.of_to.
Qed.

Lemma digits_val_app acc s s' :
  PyFloat.digits_val acc (s ++ s')
  = v ← PyFloat.digits_val acc s; PyFloat.digits_val v s'.
Proof.
  revert acc. induction s as [|a s IH]; intros acc; [done|].
  cbn [app PyFloat.digits_val]. destruct (PyFloat.digit_val a); [|done].
  cbn [mbind option_bind]. apply IH.
Qed.

Lemma cut_at_dot_app s s' :
  forallb Re.is_digit s = true ->
  PyFloat.cut_at_dot (s ++ "."%char :: s') = (s, Some s').
Proof.
  induction s as [|a s IH]; [done|]. simpl.
  intros [Ha Hs]%andb_true_iff. rewrite (IH Hs).
  destruct (Ascii.eqb_spec a "."%char) as [->|]; done.
Qed.

Lemma decimal_digit r :
  (r < 10)%N ->
  exists a, PyFloat.decimal r = [a] /\ PyFloat.digit_val a = Some r.
Proof.
  intros Hr.
  assert (r = 0 \/ r = 1 \/ r = 2 \/ r = 3 \/ r = 4 \/ r = 5 \/ r = 6
          \/ r = 7 \/ r = 8 \/ r = 9)%N as H by lia.
  repeat (destruct H as [->|H]; [eexists; split; reflexivity|]).
  subst r. eexists; split; reflexivity.
Qed.

(** X6. A share with one decimal survives the round trip of lines 41 to
    43 and 57: the numeral Python prints for the float of [c/10] is the
    numeral with the digits of [c], and [float] reads that numeral back as
    the same float. The label that [html.replace] looks for is therefore
    the one in the document whenever the document shows Unmatched as such
    a numeral. *)
Theorem one_decimal_round_trip c :
  (c <= 1000)%N ->
  let numeral :=
    PyFloat.decimal (c / 10) ++ txt "." ++ PyFloat.decimal (c mod 10) in
  PyFloat.of_text numeral = Ok (PyFloat.of_decimal c 1)
  /\ PyFloat.fmt1 (PyFloat.of_decimal c 1) = numeral
  /\ (forall v, PyFloat.of_text numeral = Ok v -> PyFloat.fmt1 v = numeral).
Proof.
  intros Hc numeral.
  assert (PyFloat.of_text numeral = Ok (PyFloat.of_decimal c 1)) as Hread.
  { unfold numeral, PyFloat.of_text.
    change (txt "." ++ PyFloat.decimal (c mod 10))
      with ("."%char :: PyFloat.decimal (c mod 10)).
    rewrite cut_at_dot_app by apply decimal_digits.
    cbn [default from_option id].
    destruct (decimal_digit (c mod 10)) as (a & Ea & Ha).
    { apply N.mod_lt. lia. }
    rewrite Ea. rewrite digits_val_app, digits_val_decimal.
    unfold id. cbn [mbind option_bind PyFloat.digits_val]. rewrite Ha.
    cbn [mbind option_bind length].
    replace (10 * (c / 10) + c mod 10)%N with c
      by (rewrite <- N.div_mod; [done|lia]).
    by destruct (PyFloat.decimal (c / 10) ++ [a]) eqn:E;
      [destruct (PyFloat.decimal (c / 10))|]. }
  pose proof (fmt1_of_decimal c Hc) as Hprint.
  split_and!; [done|done|]. intros v Hv.
  rewrite Hread in Hv. injection Hv as <-. exact Hprint.
Qed.

(** 57.1 is read from, and printed as, the digits 57.1. *)
Lemma one_decimal_round_trip_witness :
  PyFloat.of_text (txt "57.1") = Ok (PyFloat.of_decimal 571 1)
  /\ PyFloat.fmt1 (PyFloat.of_decimal 571 1) = txt "57.1".
Proof.
  destruct (one_decimal_round_trip 571) as (H1 & H2 & _); [lia|].
  split; [exact H1|exact H2].
Defined.

End Numerals.

(** ** What [process_directory] does to the files *)

Section Rewrites.
Implicit Types (w : world) (directory name : string) (k : nat).

Lemma files_of_write directory name content w files :
  fs w !! directory = Some files ->
  IO.write directory name content w
  = (World (<[directory := <[name := content]> files]> (fs w)) (stdout w),
     Ok tt).
Proof. unfold IO.write. by intros ->. Qed.

(** One file of the first loop. *)
Lemma patch_per_house_step directory dry_run name k w original :
  IO.files_of w directory !! name = Some original ->
  IO.per_house_name name = true ->
  match renewed name (Text.universal_newlines original) with
  | Raise e => patch_per_house directory dry_run name k w = (w, Raise e)
  | Ok content =>
      if bool_decide (content = Text.universal_newlines original)
      then patch_per_house directory dry_run name k w = (w, Ok k)
      else exists line,
        patch_per_house directory dry_run name k w
        = (World (if dry_run then fs w
                  else <[directory :=
                           <[name := content]> (IO.files_of w directory)]>
                         (fs w))
                 (stdout w ++ [line]),
           Ok (S k))
  end.
Proof.
  intros Hread Hname. unfold renewed, patch_per_house. rewrite Hname.
  rewrite io_bind_run. unfold IO.read. rewrite Hread. rewrite io_bind_run.
  assert (exists files, fs w !! directory = Some files
                        /\ IO.files_of w directory = files)
    as (files & Hdir & Hfiles).
  { unfold IO.files_of in *. destruct (fs w !! directory) as [files|];
      [by exists files|done]. }
  generalize (Text.universal_newlines original). intros view.
  destruct (Text.contains (txt "Detection Efficiency") view).
  - unfold IO.lift. destruct (patch_report view) as [patched|e];
      [|done]. cbn [mbind result_bind].
    case_bool_decide; [done|].
    destruct dry_run.
    + eexists. reflexivity.
    + eexists. unfold mbind at 1, io_bind at 1.
      unfold mbind at 1, io_bind at 1.
      rewrite (files_of_write _ _ _ _ files Hdir). rewrite Hfiles.
      reflexivity.
  - cbn [mret io_ret mbind result_bind].
    case_bool_decide; [done|].
    destruct dry_run.
    + eexists. reflexivity.
    + eexists. unfold mbind at 1, io_bind at 1.
      unfold mbind at 1, io_bind at 1.
      rewrite (files_of_write _ _ _ _ files Hdir). rewrite Hfiles.
      reflexivity.
Qed.


Lemma aggregate_not_per_house name :
  name ∈ aggregate_names -> IO.per_house_name name = false.
Proof.
  unfold aggregate_names. intros H.
  apply elem_of_cons in H as [->|H]; [done|].
  apply list_elem_of_singleton in H as ->. done.
Qed.

(** One name of the second loop. *)
Lemma patch_aggregate_step directory dry_run name k w :
  name ∈ aggregate_names ->
  match IO.files_of w directory !! name with
  | None => patch_aggregate directory dry_run name k w = (w, Ok k)
  | Some original =>
      match renewed name (Text.universal_newlines original) with
      | Raise e => patch_aggregate directory dry_run name k w = (w, Raise e)
      | Ok content =>
          if bool_decide (content = Text.universal_newlines original)
          then patch_aggregate directory dry_run name k w = (w, Ok k)
          else exists line,
            patch_aggregate directory dry_run name k w
            = (World (if dry_run then fs w
                      else <[directory :=
                               <[name := content]> (IO.files_of w directory)]>
                             (fs w))
                     (stdout w ++ [line]),
               Ok (S k))
      end
  end.
Proof.
  intros Hname. unfold renewed, patch_aggregate.
  rewrite (aggregate_not_per_house name Hname).
  rewrite (bool_decide_eq_true_2 _ Hname).
  rewrite io_bind_run. unfold IO.isfile, IO.read.
  destruct (IO.files_of w directory !! name) as [original|] eqn:Hread.
  2:{ rewrite bool_decide_eq_false_2 by (by intros [? ?]). reflexivity. }
  rewrite (bool_decide_eq_true_2 (is_Some (Some original)))
    by (by eexists).
  cbn [negb]. rewrite io_bind_run, Hread.
  assert (exists files, fs w !! directory = Some files
                        /\ IO.files_of w directory = files)
    as (files & Hdir & Hfiles).
  { unfold IO.files_of in *. destruct (fs w !! directory) as [files|];
      [by exists files|done]. }
  generalize (Text.universal_newlines original). intros view.
  case_bool_decide; [done|].
  destruct dry_run.
  - eexists. reflexivity.
  - eexists. unfold mbind at 1, io_bind at 1.
    unfold mbind at 1, io_bind at 1.
    rewrite (files_of_write _ _ _ _ files Hdir). rewrite Hfiles.
    reflexivity.
Qed.

Lemma filter_agree {A} (P Q : A -> Prop) `{!forall x, Decision (P x)}
    `{!forall x, Decision (Q x)} (l : list A) :
  (forall x, x ∈ l -> P x <-> Q x) -> filter P l = filter Q l.
Proof.
  induction l as [|x l IH]; intros Hl; [done|].
  rewrite !filter_cons. rewrite IH by (intros y Hy; apply Hl, elem_of_cons; by right).
  pose proof (Hl x ltac:(apply elem_of_cons; by left)) as Hx.
  destruct (decide (P x)), (decide (Q x)); tauto || done.
Qed.

Lemma renewed_raises name original e :
  renewed name original = Raise e -> e = ValueError.
Proof.
  unfold renewed. destruct (IO.per_house_name name).
  - destruct (Text.contains _ original); [|done].
    pose proof (patch_report_raises original) as H.
    destruct (patch_report original) as [patched|e'] eqn:E; [done|].
    intros; simplify_eq/=. by apply H.
  - by case_bool_decide.
Qed.

Section Loop.
Variables (directory : string) (dry_run : bool).
Variable body : string -> nat -> io nat.
Variable all : list string.

(** What the body does with a file that is there. *)
Hypothesis Hstep : forall name k w original,
  name ∈ all ->
  IO.files_of w directory !! name = Some original ->
  match renewed name (Text.universal_newlines original) with
  | Raise e => body name k w = (w, Raise e)
  | Ok content =>
      if bool_decide (content = Text.universal_newlines original)
      then body name k w = (w, Ok k)
      else exists line,
        body name k w
        = (World (if dry_run then fs w
                  else <[directory :=
                           <[name := content]> (IO.files_of w directory)]>
                         (fs w))
                 (stdout w ++ [line]),
           Ok (S k))
  end.

Lemma for_each_rewrites names k w :
  NoDup names -> (forall name, name ∈ names -> name ∈ all) ->
  (forall name, name ∈ names ->
     IO.files_of w directory !! name = None ->
     forall k' w', IO.files_of w' directory !! name = None ->
                   body name k' w' = (w', Ok k')) ->
  let w' := (for_each body names k w).1 in
  let r := (for_each body names k w).2 in
  (forall d, d <> directory -> fs w' !! d = fs w !! d)
  /\ dom (IO.files_of w' directory) = dom (IO.files_of w directory)
  /\ (is_Some (fs w' !! directory) <-> is_Some (fs w !! directory))
  /\ (forall name, name ∉ names ->
        IO.files_of w' directory !! name = IO.files_of w directory !! name)
  /\ (dry_run = true -> fs w' = fs w)
  /\ (forall e, r = Raise e -> e = ValueError)
  /\ (forall n, r = Ok n ->
        (forall name original,
           name ∈ names ->
           IO.files_of w directory !! name = Some original ->
           exists content,
             renewed name (Text.universal_newlines original) = Ok content
             /\ IO.files_of w' directory !! name
                = Some (if dry_run then original else kept original content))
        /\ n = (k + length (filter (fun name =>
                                      to_change w directory name = true)
                                   names))%nat
        /\ (exists lines,
              stdout w' = stdout w ++ lines
              /\ length lines = (n - k)%nat)
        /\ (n = k -> fs w' = fs w))
  /\ ((forall name original,
         name ∈ names ->
         IO.files_of w directory !! name = Some original ->
         exists content, renewed name (Text.universal_newlines original) = Ok content) ->
      exists n, r = Ok n).
Proof.
  revert k w. induction names as [|name names IH]; intros k w Hnodup Hall Habs.
  { cbn. split_and!; try done; [|by eauto].
    intros n [= <-]. split_and!; [|lia| |done].
    - intros name original Hin. by apply elem_of_nil in Hin.
    - exists []. by rewrite app_nil_r, Nat.sub_diag. }
  apply NoDup_cons in Hnodup as [Hname Hnodup].
  assert (name ∈ name :: names) as Hhead by (apply elem_of_cons; by left).
  assert (forall x, x ∈ names -> x ∈ name :: names) as Htail
    by (intros x Hx; apply elem_of_cons; by right).
  assert (forall x, x ∈ names -> x ∈ all) as Hall'
    by (intros x Hx; by apply Hall, Htail).
  assert (forall x, x ∉ name :: names -> (x ∉ names) /\ x <> name) as Hout'.
  { intros x Hx. split; [intros ?; by apply Hx, Htail|].
    intros ->. by apply Hx. }
  assert (forall w1,
            (forall other, other <> name ->
               IO.files_of w1 directory !! other
               = IO.files_of w directory !! other) ->
            forall name', name' ∈ names ->
              IO.files_of w1 directory !! name' = None ->
              forall k' w', IO.files_of w' directory !! name' = None ->
                            body name' k' w' = (w', Ok k')) as Habs'.
  { intros w1 Hsame name' Hin Hnone. apply Habs; [by apply Htail|].
    rewrite <- Hsame; [done|]. intros ->. done. }
  assert (forall w1,
            (forall other, other <> name ->
               IO.files_of w1 directory !! other
               = IO.files_of w directory !! other) ->
            filter (fun name => to_change w1 directory name = true) names
            = filter (fun name => to_change w directory name = true) names)
    as Hfilter.
  { intros w1 Hsame. apply filter_agree.
    intros name' Hin. unfold to_change. rewrite Hsame; [done|].
    intros ->. done. }
  cbn [for_each]. rewrite io_bind_run.
  destruct (IO.files_of w directory !! name) as [original|] eqn:Hread.
  2:{ (* the file is not there *)
    rewrite (Habs name Hhead Hread k w Hread).
    destruct (IH k w Hnodup Hall' (Habs' w ltac:(done)))
      as (H1 & H2 & H3 & H4 & H5 & H6 & H7 & H8).
    split_and!; try done.
    - intros name' Hin. apply H4. by apply Hout'.
    - intros n Hn. destruct (H7 n Hn) as (Hc & Hk & Hout & Hfs).
      split_and!; [|
        rewrite filter_cons_False; [done|unfold to_change; by rewrite Hread]
        |done|done].
      intros name' original Hin Hsome.
      apply elem_of_cons in Hin as [->|Hin]; [congruence|by apply Hc].
    - intros Hok. apply H8. intros name' original Hin. by apply Hok, Htail. }
  pose proof (Hstep name k w original (Hall name Hhead) Hread) as Hs.
  set (view := Text.universal_newlines original) in *.
  destruct (renewed name view) as [content|e] eqn:Hren.
  2:{ (* the corrector raises *)
    rewrite Hs. cbn. split_and!; try done.
    - intros e' [= <-]. by apply (renewed_raises name view).
    - intros Hok. destruct (Hok name original Hhead Hread) as [c Hc].
      fold view in Hc. congruence. }
  case_bool_decide as Hsame.
  { (* nothing to change *)
    rewrite Hs.
    destruct (IH k w Hnodup Hall' (Habs' w ltac:(done)))
      as (H1 & H2 & H3 & H4 & H5 & H6 & H7 & H8).
    split_and!; try done.
    - intros name' Hin. apply H4. by apply Hout'.
    - intros n Hn. destruct (H7 n Hn) as (Hc & Hk & Hout & Hfs).
      split_and!; [|
        rewrite filter_cons_False;
          [done|unfold to_change; rewrite Hread; cbv zeta; fold view;
                rewrite Hren;
                rewrite bool_decide_eq_false_2; [done|by intros []]]
        |done|done].
      intros name' original' Hin Hsome.
      apply elem_of_cons in Hin as [->|Hin]; [|by apply Hc].
      assert (original' = original) as -> by congruence.
      exists content. split; [done|].
      rewrite (H4 name Hname), Hread. unfold kept. fold view.
      rewrite bool_decide_eq_true_2 by done. by destruct dry_run.
    - intros Hok. apply H8. intros name' original' Hin.
      by apply Hok, Htail. }
  destruct Hs as [line Hs]. rewrite Hs.
  set (w1 := World _ _) in *.
  assert (forall other, other <> name ->
            IO.files_of w1 directory !! other
            = IO.files_of w directory !! other) as Hother.
  { intros other Hne. unfold w1, IO.files_of. cbn [fs].
    destruct dry_run; [done|]. rewrite lookup_insert_eq. cbn.
    by rewrite lookup_insert_ne. }
  assert (IO.files_of w1 directory !! name
          = Some (if dry_run then original else kept original content))
    as Hnew.
  { unfold kept. fold view. rewrite bool_decide_eq_false_2 by done.
    unfold w1, IO.files_of. cbn [fs].
    destruct dry_run; [done|]. rewrite lookup_insert_eq. cbn.
    by rewrite lookup_insert_eq. }
  assert (is_Some (fs w !! directory)) as Hdir.
  { unfold IO.files_of in Hread. destruct (fs w !! directory); [eauto|done]. }
  destruct (IH (S k) w1 Hnodup Hall' (Habs' w1 Hother))
    as (H1 & H2 & H3 & H4 & H5 & H6 & H7 & H8).
  split_and!.
  - intros d Hd. rewrite (H1 d Hd). unfold w1. cbn [fs].
    destruct dry_run; [done|]. by rewrite lookup_insert_ne.
  - rewrite H2. unfold w1, IO.files_of. cbn [fs].
    destruct dry_run; [done|]. rewrite lookup_insert_eq. cbn.
    rewrite dom_insert_L.
    assert (name ∈ dom (default ∅ (fs w !! directory))) as Hdom.
    { apply elem_of_dom. unfold IO.files_of in Hread. eauto. }
    apply set_eq. intros x. rewrite elem_of_union, elem_of_singleton.
    split; [intros [->|]; done|by right].
  - rewrite H3. unfold w1. cbn [fs]. destruct dry_run; [done|].
    rewrite lookup_insert_eq. split; [done|eauto].
  - intros name' Hin. destruct (Hout' name' Hin) as [Hin' Hne].
    rewrite (H4 name' Hin'). by apply Hother.
  - intros Hdry. rewrite (H5 Hdry). unfold w1. by rewrite Hdry.
  - done.
  - intros n Hn. destruct (H7 n Hn) as (Hc & Hk & (lines & Hout & Hlen) & Hfs).
    rewrite (Hfilter w1 Hother) in Hk.
    split_and!.
    + intros name' original' Hin Hsome.
      apply elem_of_cons in Hin as [->|Hin].
      * assert (original' = original) as -> by congruence.
        exists content. split; [done|].
        by rewrite (H4 name Hname), Hnew.
      * apply Hc; [done|]. rewrite Hother; [done|]. intros ->. done.
    + rewrite filter_cons_True.
      2:{ unfold to_change. rewrite Hread. cbv zeta. fold view.
          rewrite Hren. by rewrite bool_decide_eq_true_2. }
      simpl. lia.
    + exists (line :: lines). rewrite Hout. unfold w1. cbn [stdout].
      rewrite <- app_assoc. split; [done|]. simpl. lia.
    + lia.
  - intros Hok. apply H8. intros name' original' Hin Hsome.
    apply (Hok name' original' (Htail _ Hin)).
    rewrite <- Hother; [done|]. intros ->. done.
Qed.

End Loop.

Lemma to_change_true w directory name :
  to_change w directory name = true ->
  exists original content,
    IO.files_of w directory !! name = Some original
    /\ renewed name (Text.universal_newlines original) = Ok content
    /\ content <> Text.universal_newlines original.
Proof.
  unfold to_change.
  destruct (IO.files_of w directory !! name) as [original|]; [|done].
  cbv zeta.
  destruct (renewed name (Text.universal_newlines original))
    as [content|e] eqn:Hr; [|done].
  intros H%bool_decide_eq_true. by exists original, content.
Qed.

Lemma renewed_other name original :
  IO.per_house_name name = false -> name ∉ aggregate_names ->
  renewed name original = Ok original.
Proof.
  intros Hp Ha. unfold renewed. rewrite Hp.
  by rewrite bool_decide_eq_false_2.
Qed.

Lemma glob_per_house_run directory w :
  exists names,
    IO.glob_per_house directory w = (w, Ok names)
    /\ NoDup names
    /\ forall name,
         name ∈ names
         <-> IO.per_house_name name = true
             /\ is_Some (IO.files_of w directory !! name).
Proof.
  eexists. split; [reflexivity|]. split.
  - rewrite merge_sort_Permutation. apply NoDup_filter, NoDup_elements.
  - intros name. rewrite merge_sort_Permutation, list_elem_of_filter.
    by rewrite elem_of_elements, elem_of_dom.
Qed.

(** The whole of [process_directory], for both modes and every outcome. *)
Lemma process_directory_spec directory dry_run w :
  let w' := (process_directory directory dry_run w).1 in
  let r := (process_directory directory dry_run w).2 in
  (forall d, d <> directory -> fs w' !! d = fs w !! d)
  /\ dom (IO.files_of w' directory) = dom (IO.files_of w directory)
  /\ (is_Some (fs w' !! directory) <-> is_Some (fs w !! directory))
  /\ (forall name,
        IO.per_house_name name = false -> name ∉ aggregate_names ->
        IO.files_of w' directory !! name = IO.files_of w directory !! name)
  /\ (dry_run = true -> fs w' = fs w)
  /\ (forall e, r = Raise e -> e = ValueError)
  /\ (forall n, r = Ok n ->
        (forall name original,
           IO.files_of w directory !! name = Some original ->
           exists content,
             renewed name (Text.universal_newlines original) = Ok content
             /\ IO.files_of w' directory !! name
                = Some (if dry_run then original else kept original content))
        /\ n = size (filter (fun name => to_change w directory name = true)
                            (dom (IO.files_of w directory)))
        /\ (exists lines,
              stdout w' = stdout w ++ lines
              /\ length lines = Nat.max n 1)
        /\ (n = 0%nat ->
            fs w' = fs w
            /\ stdout w'
               = stdout w ++ [txt "  No changes needed in " ++ txt directory]))
  /\ ((forall name original,
         IO.files_of w directory !! name = Some original ->
         exists content, renewed name (Text.universal_newlines original) = Ok content) ->
      exists n, r = Ok n).
Proof.
  unfold process_directory. rewrite io_bind_run.
  destruct (glob_per_house_run directory w) as (names & -> & Hnodup & Hnames).
  rewrite io_bind_run.
  destruct (for_each_rewrites directory dry_run
              (patch_per_house directory dry_run) names) with
    (names := names) (k := 0%nat) (w := w)
    as (A1 & A2 & A3 & A4 & A5 & A6 & A7 & A8); [|done|done| |].
  { intros name k w0 original Hin Hread.
    apply patch_per_house_step; [done|]. by apply Hnames. }
  { intros name Hin Hnone. apply Hnames in Hin as [_ [? ?]]. congruence. }
  assert (forall name, name ∈ aggregate_names -> name ∉ names) as Hdisj.
  { intros name Ha Hin. apply Hnames in Hin as [Hp _].
    by rewrite (aggregate_not_per_house name Ha) in Hp. }
  destruct (for_each (patch_per_house directory dry_run) names 0%nat w)
    as [w1 [k1|e]]; cbn [fst snd] in *.
  2:{ split_and!; try done.
      - intros name Hp Ha. apply A4. intros Hin. apply Hnames in Hin as [? _].
        congruence.
      - intros Hok. apply A8. intros name original _. apply Hok. }
  destruct (A7 k1 eq_refl) as (Ac & Ak & (lines1 & Aout & Alen) & Afs).
  clear A6 A7 A8.
  rewrite io_bind_run.
  destruct (for_each_rewrites directory dry_run
              (patch_aggregate directory dry_run) aggregate_names) with
    (names := aggregate_names) (k := k1) (w := w1)
    as (B1 & B2 & B3 & B4 & B5 & B6 & B7 & B8); [| |done| |].
  { intros name k w0 original Hin Hread.
    pose proof (patch_aggregate_step directory dry_run name k w0 Hin) as H.
    by rewrite Hread in H. }
  { unfold aggregate_names. apply NoDup_cons. split; [|apply NoDup_singleton].
    intros ?%list_elem_of_singleton. done. }
  { intros name Hin _ k' w0 Hnone.
    pose proof (patch_aggregate_step directory dry_run name k' w0 Hin) as H.
    by rewrite Hnone in H. }
  change ["report.html"; "nan_comparison.html"] with aggregate_names.
  assert (forall name, IO.per_house_name name = false -> name ∉ names)
    as Hnot.
  { intros name Hp Hin. apply Hnames in Hin as [? _]. congruence. }
  destruct (for_each (patch_aggregate directory dry_run) aggregate_names
              k1 w1) as [w2 [n|e]]; cbn [fst snd] in *.
  2:{ split_and!; try done.
      - intros d Hd. by rewrite B1, A1.
      - by rewrite B2, A2.
      - by rewrite B3, A3.
      - intros name Hp Ha. rewrite B4 by done. apply A4. by apply Hnot.
      - intros Hdry. by rewrite B5, A5.
      - intros Hok. apply B8. intros name original Hin Hsome. apply Hok.
        rewrite <- Hsome. symmetry. by apply A4, Hdisj. }
  destruct (B7 n eq_refl) as (Bc & Bk & (lines2 & Bout & Blen) & Bfs).
  clear B6 B7 B8.
  assert (filter (fun name => to_change w1 directory name = true)
            aggregate_names
          = filter (fun name => to_change w directory name = true)
              aggregate_names) as Hsame.
  { apply filter_agree. intros name Hin. unfold to_change.
    by rewrite (A4 name (Hdisj name Hin)). }
  rewrite Hsame in Bk. clear Hsame.
  assert (forall w2' : world,
            fs w2' = fs w2 ->
            (forall d, d <> directory -> fs w2' !! d = fs w !! d)
            /\ dom (IO.files_of w2' directory) = dom (IO.files_of w directory)
            /\ (is_Some (fs w2' !! directory) <-> is_Some (fs w !! directory))
            /\ (forall name,
                  IO.per_house_name name = false -> name ∉ aggregate_names ->
                  IO.files_of w2' directory !! name
                  = IO.files_of w directory !! name)
            /\ (dry_run = true -> fs w2' = fs w)
            /\ (forall name original,
                  IO.files_of w directory !! name = Some original ->
                  exists content,
                    renewed name (Text.universal_newlines original) = Ok content
                    /\ IO.files_of w2' directory !! name
                       = Some (if dry_run then original else kept original content)))
    as Hfinal.
  { intros w2' Hfs2. unfold IO.files_of in *. rewrite Hfs2.
    split_and!.
    - intros d Hd. by rewrite B1, A1.
    - by rewrite B2, A2.
    - by rewrite B3, A3.
    - intros name Hp Ha. rewrite B4 by done. apply A4. by apply Hnot.
    - intros Hdry. by rewrite B5, A5.
    - intros name original Hsome.
      destruct (decide (name ∈ names)) as [Hin|Hout].
      + destruct (Ac name original Hin Hsome) as (content & Hren & Hnew).
        exists content. split; [done|]. rewrite B4; [done|].
        intros Ha. by apply (Hdisj name Ha).
      + destruct (decide (name ∈ aggregate_names)) as [Ha|Ha].
        * apply Bc; [done|]. by rewrite A4.
        * exists (Text.universal_newlines original). split.
          -- apply renewed_other; [|done].
             destruct (IO.per_house_name name) eqn:Hp; [|done].
             destruct Hout. apply Hnames. split; [done|].
             unfold IO.files_of. eauto.
          -- rewrite B4, A4 by done. rewrite Hsome. unfold kept.
             rewrite bool_decide_eq_true_2 by done. by destruct dry_run. }
  assert (n = size (filter (fun name => to_change w directory name = true)
                           (dom (IO.files_of w directory)))) as Hcount.
  { set (P := fun name => to_change w directory name = true) in *.
    assert (NoDup (filter P names ++ filter P aggregate_names)) as Hnd.
    { apply NoDup_app. split_and!.
      - by apply NoDup_filter.
      - intros name [_ Hin]%list_elem_of_filter [_ Ha]%list_elem_of_filter.
        by apply (Hdisj name Ha).
      - apply NoDup_filter. unfold aggregate_names.
        apply NoDup_cons. split; [|apply NoDup_singleton].
        intros ?%list_elem_of_singleton. done. }
    assert (filter P (dom (IO.files_of w directory))
            = list_to_set (filter P names ++ filter P aggregate_names))
      as ->.
    { apply set_eq. intros name.
      rewrite elem_of_filter, elem_of_list_to_set, elem_of_app,
        !list_elem_of_filter, elem_of_dom.
      split.
      - intros [HP Hdom].
        destruct (to_change_true _ _ _ HP) as (original & content & Hs & Hr & Hne).
        destruct (IO.per_house_name name) eqn:Hp.
        + left. split; [done|]. apply Hnames. done.
        + right. split; [done|].
          destruct (decide (name ∈ aggregate_names)) as [Ha|Ha]; [done|].
          rewrite (renewed_other name _ Hp Ha) in Hr. congruence.
      - intros [[HP _]|[HP _]]; (split; [done|]);
          destruct (to_change_true _ _ _ HP) as (original & ? & Hs & _);
          eauto. }
    rewrite size_list_to_set by done. rewrite length_app. lia. }
  rewrite io_bind_run.
  case_bool_decide as Hzero.
  - (* nothing was changed *)
    destruct n as [|n]; [|discriminate Hzero]. cbn [fst snd IO.print].
    assert (k1 = 0%nat) as Hk1 by lia. rewrite Hk1 in *.
    destruct (Hfinal (World (fs w2) (stdout w2 ++ [txt "  No changes needed in " ++ txt directory])) eq_refl)
      as (F1 & F2 & F3 & F4 & F5 & F6).
    assert (lines1 = [] /\ lines2 = []) as [-> ->].
    { split; apply nil_length_inv; lia. }
    rewrite !app_nil_r in *.
    split_and!; try done; [|by eauto].
    intros n [= <-]. split_and!; [done|done| |].
    + eexists. split; [by rewrite Bout, Aout|done].
    + intros _. cbn [fs stdout]. split; [|by rewrite Bout, Aout].
      by rewrite Bfs, Afs.
  - cbn [fst snd mret io_ret].
    destruct (Hfinal w2 eq_refl) as (F1 & F2 & F3 & F4 & F5 & F6).
    split_and!; try done; [|by eauto].
    intros n' [= <-]. split_and!; [done|done| |done].
    exists (lines1 ++ lines2). rewrite Bout, Aout, <- app_assoc.
    split; [done|]. rewrite length_app. lia.
Qed.

End Rewrites.

Section RewritesClaims.
Implicit Types (w : world) (directory name : string).











End RewritesClaims.

(** ** What [main] does to the files *)

Section MainFiles.
Implicit Types (w : world) (argv dirs : list string).

Lemma process_all_spec dry_run dirs total w :
  let w' := (process_all dry_run dirs total w).1 in
  (forall d, d ∉ dirs -> fs w' !! d = fs w !! d)
  /\ (forall d, is_Some (fs w' !! d) <-> is_Some (fs w !! d))
  /\ (forall d, dom (IO.files_of w' d) = dom (IO.files_of w d))
  /\ (forall d name,
        IO.per_house_name name = false -> name ∉ aggregate_names ->
        IO.files_of w' d !! name = IO.files_of w d !! name)
  /\ (dry_run = true -> fs w' = fs w)
  /\ (forall e, (process_all dry_run dirs total w).2 = Raise e ->
                e = ValueError).
Proof.
  revert total w. induction dirs as [|d dirs IH]; intros total w.
  { cbn. done. }
  cbn [process_all]. rewrite io_bind_run. unfold IO.isdir.
  destruct (bool_decide (is_Some (fs w !! d))); cbn [negb].
  - rewrite io_bind_run. cbn [IO.print].
    set (w0 := World (fs w) _).
    rewrite io_bind_run.
    destruct (process_directory_spec d dry_run w0)
      as (P1 & P2 & P3 & P4 & P5 & P6 & _).
    assert (forall d', dom (IO.files_of (process_directory d dry_run w0).1 d')
                       = dom (IO.files_of w d')) as Pdom.
    { intros d'. destruct (decide (d' = d)) as [->|Hne]; [done|].
      unfold IO.files_of. by rewrite (P1 d' Hne). }
    assert (forall d' name,
              IO.per_house_name name = false -> name ∉ aggregate_names ->
              IO.files_of (process_directory d dry_run w0).1 d' !! name
              = IO.files_of w d' !! name) as Pkeep.
    { intros d' name Hp Ha. destruct (decide (d' = d)) as [->|Hne].
      - by apply P4.
      - unfold IO.files_of. by rewrite (P1 d' Hne). }
    assert (forall d', is_Some (fs (process_directory d dry_run w0).1 !! d')
                       <-> is_Some (fs w !! d')) as Pdir.
    { intros d'. destruct (decide (d' = d)) as [->|Hne]; [done|].
      by rewrite (P1 d' Hne). }
    destruct (process_directory d dry_run w0) as [w1 [n|e]];
      cbn [fst snd] in *.
    + destruct (IH (total + n)%nat w1) as (H1 & H2 & H3 & H4 & H5 & H6).
      split_and!.
      * intros d' Hd'. rewrite H1 by (intros ?; apply Hd', elem_of_cons; by right).
        apply P1. intros ->. apply Hd', elem_of_cons. by left.
      * intros d'. by rewrite H2.
      * intros d'. by rewrite H3.
      * intros d' name Hp Ha. by rewrite H4, Pkeep.
      * intros Hdry. by rewrite H5, P5.
      * done.
    + split_and!; try done.
      intros d' Hd'. apply P1. intros ->. apply Hd', elem_of_cons. by left.
  - rewrite io_bind_run. cbn [IO.print].
    destruct (IH total (World (fs w) (stdout w ++
                [txt "Warning: " ++ txt d
                 ++ txt " is not a directory, skipping"])))
      as (H1 & H2 & H3 & H4 & H5 & H6).
    split_and!; try done.
    intros d' Hd'. apply H1. intros ?. apply Hd', elem_of_cons. by right.
Qed.

(** X12. With [--dry-run] anywhere on the command line, before or after
    the directories, [main] leaves every file of the machine as it was,
    however the run ends. *)
Theorem main_dry_run_keeps_files argv w :
  "--dry-run" ∈ argv -> fs (main argv w).1 = fs w.
Proof.
  intros Hflag. unfold main. case_bool_decide; [done|].
  rewrite (bool_decide_eq_true_2 _ Hflag). rewrite io_bind_run.
  destruct (process_all_spec true (dirs_of argv) 0%nat w)
    as (_ & _ & _ & _ & Hfs & _).
  destruct (process_all true (dirs_of argv) 0%nat w) as [w' [total|e]];
    cbn [fst snd] in *; by apply Hfs.
Qed.

(** The flag after the directory: the sample reports stay as they are. *)
Lemma main_dry_run_keeps_files_witness :
  fs (main ["patch_efficiency_cap.py"; "reports"; "--dry-run"]
        Machine.reports).1
  = fs Machine.reports.
Proof.
  apply main_dry_run_keeps_files. apply elem_of_cons. right.
  apply elem_of_cons. right. apply elem_of_cons. by left.
Defined.




End MainFiles.

(** ** The total [main] reports *)

Section MainTotal.
Implicit Types (w : world) (argv dirs : list string).






End MainTotal.

(** ** The tolerance of the guard *)

Section Guard.
Implicit Types (x y z : PyFloat.float).

(** The exponent of a difference of two finite numbers. *)
Lemma sub_finite_shape sx mx ex sy my ey lo hi :
  -1074 <= ex -> -1074 <= ey -> - scale <= lo <= hi -> hi <= 900 ->
  let x := S754_finite sx mx ex in
  let y := S754_finite sy my ey in
  2 ^ (lo + scale) <= Z.abs (units x - units y) < 2 ^ (hi + scale) ->
  (exists s, PyFloat.sub x y = S754_zero s)
  \/ exists s m e,
       PyFloat.sub x y = S754_finite s m e
       /\ fexp 53 1024 (lo + 1) <= e <= fexp 53 1024 hi + 1.
Proof.
  intros Hex Hey Hlo Hhi x y Hmag. unfold PyFloat.sub, x, y.
  cbn [SFsub]. cbv zeta.
  destruct (shl_align_spec mx ex (Z.min ex ey)) as (_ & Ex & _).
  destruct (shl_align_spec my ey (Z.min ex ey)) as (_ & Ey & _).
  fold PyFloat.prec PyFloat.emax.
  change (SpecFloat.binary_normalize PyFloat.prec PyFloat.emax)
    with (binary_normalize 53 1024).
  rewrite Ex, Ey.
  replace (Z.min ey (Z.min ex ey)) with (Z.min ex ey) by lia.
  replace (Z.min ex (Z.min ex ey)) with (Z.min ex ey) by lia.
  set (ez := Z.min ex ey).
  assert (units x - units y
          = (cond_Zopp sx (Z.pos mx * 2 ^ (ex - ez))
             - cond_Zopp sy (Z.pos my * 2 ^ (ey - ez)))
            * 2 ^ (ez + scale)) as E.
  { unfold x, y. cbn [units].
    rewrite (units_aligned sx mx ex ez), (units_aligned sy my ey ez)
      by (unfold ez, scale; lia). lia. }
  fold x y in Hmag. rewrite E in Hmag. clear E.
  set (D := cond_Zopp sx (Z.pos mx * 2 ^ (ex - ez))
            - cond_Zopp sy (Z.pos my * 2 ^ (ey - ez))) in *.
  assert (0 < 2 ^ (ez + scale)) as HU
    by (apply Z.pow_pos_nonneg; unfold ez, scale; lia).
  assert (0 < 2 ^ (lo + scale)) as HL by (apply Z.pow_pos_nonneg; lia).
  rewrite Z.abs_mul, (Z.abs_eq (2 ^ _)) in Hmag by lia.
  assert (forall s d, Z.abs D = Zpos d ->
            (exists s', binary_round 53 1024 s d ez = S754_zero s')
            \/ exists s' m e,
                 binary_round 53 1024 s d ez = S754_finite s' m e
                 /\ fexp 53 1024 (lo + 1) <= e <= fexp 53 1024 hi + 1)
    as Hround.
  { intros s d Habs. rewrite Habs in Hmag.
    pose proof (digits_bounds d) as [Hdlo Hdhi].
    assert (lo + 1 <= Zpos (digits2_pos d) + ez <= hi) as Hdig.
    { split.
      - assert (2 ^ (lo + scale) < 2 ^ (Z.pos (digits2_pos d) + (ez + scale)))
          as Hlt.
        { rewrite (Z.pow_add_r 2 (Z.pos (digits2_pos d)) (ez + scale))
            by (unfold ez, scale; lia).
          clear - Hmag Hdhi HU. nia. }
        apply pow2_lt_inv in Hlt; unfold ez, scale in *; lia.
      - assert (2 ^ (Z.pos (digits2_pos d) - 1 + (ez + scale))
                < 2 ^ (hi + scale)) as Hlt.
        { rewrite (Z.pow_add_r 2 (Z.pos (digits2_pos d) - 1) (ez + scale))
            by (unfold ez, scale; lia).
          clear - Hmag Hdlo HU. nia. }
        apply pow2_lt_inv in Hlt; unfold ez, scale in *; lia. }
    destruct (binary_round_coarse s d ez) as [Hshape _];
      [unfold ez, scale; lia|lia|lia|].
    destruct Hshape as [->|(m' & e' & -> & He')]; [left; by eexists|].
    right. exists s, m', e'. split; [done|].
    pose proof (fexp_mono _ _ (proj1 Hdig)).
    pose proof (fexp_mono _ _ (proj2 Hdig)). lia. }
  destruct D as [|d|d] eqn:ED; cbn [binary_normalize].
  - simpl in Hmag. lia.
  - by apply Hround.
  - by apply Hround.
Qed.

(** A finite number compared with one half. *)
Lemma lt_half s m e :
  PyFloat.lt (PyFloat.abs (S754_finite s m e)) PyFloat.fhalf
  = match e ?= -53 with
    | Lt => true
    | Eq => bool_decide (Zpos m < 2 ^ 52)
    | Gt => false
    end.
Proof.
  unfold PyFloat.lt, PyFloat.abs, PyFloat.fhalf, SFltb. cbn [SFabs SFcompare].
  destruct (e ?= -53); try done.
  rewrite Pos.compare_cont_spec.
  change (2 ^ 52) with (Zpos 4503599627370496).
  destruct (Pos.compare_spec m 4503599627370496) as [H|H|H];
    cbn [Pos.switch_Eq]; symmetry.
  - apply bool_decide_eq_false_2. subst m. apply Z.lt_irrefl.
  - apply bool_decide_eq_true_2. exact H.
  - apply bool_decide_eq_false_2. apply Z.lt_asymm. exact H.
Qed.

Lemma pow2_base k :
  -54 <= k -> 2 ^ (k + scale) = 2 ^ (k + 54) * 2 ^ (scale - 54).
Proof.
  intros Hk. rewrite <- Z.pow_add_r by (unfold scale; lia). f_equal; lia.
Qed.

Lemma ulp7_base : ulp7 = 256 * 2 ^ (scale - 54).
Proof.
  unfold ulp7. replace (scale - 46) with (-46 + scale) by lia.
  by rewrite (pow2_base (-46)) by lia.
Qed.

Lemma pow2_scale : 2 ^ scale = 18014398509481984 * 2 ^ (scale - 54).
Proof.
  replace scale with (0 + scale) at 1 by lia. by rewrite (pow2_base 0) by lia.
Qed.

(** A float that [units] measures and that is not worth zero is finite. *)
Lemma has_units_finite x :
  has_units x -> units x <> 0 -> exists s m e, x = S754_finite s m e /\ -1074 <= e.
Proof. destruct x as [| | |s m e]; try done. intros He _. by exists s, m, e. Qed.

(** The sum of three shares with one decimal, each at most 100. *)
Lemma total_decimal a b c :
  (a <= 1000)%N -> (b <= 1000)%N -> (c <= 1000)%N ->
  let total := PyFloat.add (PyFloat.add (PyFloat.of_decimal a 1)
                                        (PyFloat.of_decimal b 1))
                           (PyFloat.of_decimal c 1) in
  has_units total
  /\ Z.abs (10 * units total
            - (Z.of_N a + Z.of_N b + Z.of_N c) * 2 ^ scale)
     <= 65536 * 2 ^ (scale - 54).
Proof.
  intros Ha Hb Hc total. subst total.
  destruct (of_decimal_ulp7 a Ha) as (Hwa & Hpa & Hna & _).
  destruct (of_decimal_ulp7 b Hb) as (Hwb & Hpb & Hnb & _).
  destruct (of_decimal_ulp7 c Hc) as (Hwc & Hpc & Hnc & _).
  cbv zeta in *.
  set (e := PyFloat.of_decimal a 1) in *.
  set (bg := PyFloat.of_decimal b 1) in *.
  set (u := PyFloat.of_decimal c 1) in *.
  rewrite ulp7_base in *. rewrite pow2_scale.
  assert (0 < 2 ^ (scale - 54)) as HV
    by (apply Z.pow_pos_nonneg; unfold scale; lia).
  assert (2 ^ (9 + scale) = 9223372036854775808 * 2 ^ (scale - 54)) as E9.
  { rewrite (pow2_base 9) by lia. reflexivity. }
  assert (2 * 2 ^ (fexp 53 1024 9 + scale) = 2048 * 2 ^ (scale - 54)) as Eerr.
  { change (fexp 53 1024 9) with (-44). rewrite (pow2_base (-44)) by lia.
    change (2 ^ (-44 + 54)) with 1024. lia. }
  set (V := 2 ^ (scale - 54)) in *.
  assert (0 <= Z.of_N a * V <= 1000 * V /\ 0 <= Z.of_N b * V <= 1000 * V
          /\ 0 <= Z.of_N c * V <= 1000 * V) as (HA & HB & HC).
  { clear - Ha Hb Hc HV. split_and!; nia. }
  replace ((Z.of_N a + Z.of_N b + Z.of_N c) * (18014398509481984 * V))
    with (18014398509481984 * (Z.of_N a * V)
          + 18014398509481984 * (Z.of_N b * V)
          + 18014398509481984 * (Z.of_N c * V)) by ring.
  replace (70368744177664 * (Z.of_N a * (256 * V)))
    with (18014398509481984 * (Z.of_N a * V)) in Hna by ring.
  replace (70368744177664 * (Z.of_N b * (256 * V)))
    with (18014398509481984 * (Z.of_N b * V)) in Hnb by ring.
  replace (70368744177664 * (Z.of_N c * (256 * V)))
    with (18014398509481984 * (Z.of_N c * V)) in Hnc by ring.
  set (A := Z.of_N a * V) in *. set (B := Z.of_N b * V) in *.
  set (C := Z.of_N c * V) in *.
  destruct (add_coarse e bg 9 Hwa Hwb ltac:(unfold scale; lia)) as [Hws Hs].
  { rewrite E9. clearbody A B C V. lia. }
  rewrite Eerr in Hs.
  change (SFadd 53 1024 e bg) with (PyFloat.add e bg) in Hws, Hs.
  set (s1 := PyFloat.add e bg) in *.
  destruct (add_coarse s1 u 9 Hws Hwc ltac:(unfold scale; lia)) as [Hwt Ht].
  { rewrite E9. clearbody A B C V. lia. }
  rewrite Eerr in Ht.
  change (SFadd 53 1024 s1 u) with (PyFloat.add s1 u) in Hwt, Ht.
  split; [done|]. clearbody A B C V. lia.
Qed.

(** A finite difference below one half in size passes the comparison of
    line 47 when its exponent is the one of a number below one half. *)
Lemma lt_half_small s m e :
  e <= -53 ->
  Z.pos m * 2 ^ (e + scale) < 9007199254740992 * 2 ^ (scale - 54) ->
  -1074 <= e ->
  PyFloat.lt (PyFloat.abs (S754_finite s m e)) PyFloat.fhalf = true.
Proof.
  intros He Hm Hemin. rewrite lt_half.
  destruct (Z.compare_spec e (-53)) as [->|Hlt|Hgt]; [|done|lia].
  apply bool_decide_eq_true_2.
  rewrite (pow2_base (-53)) in Hm by lia. change (2 ^ (-53 + 54)) with 2 in Hm.
  assert (0 < 2 ^ (scale - 54)) as HV
    by (apply Z.pow_pos_nonneg; unfold scale; lia).
  change (2 ^ 52) with 4503599627370496.
  set (V := 2 ^ (scale - 54)) in *. set (M := Z.pos m) in *.
  clearbody V M. clear - Hm HV. nia.
Qed.

Lemma lt_half_large s m e :
  -53 <= e ->
  9007199254740992 * 2 ^ (scale - 54) <= Z.pos m * 2 ^ (e + scale) ->
  PyFloat.lt (PyFloat.abs (S754_finite s m e)) PyFloat.fhalf = false.
Proof.
  intros He Hm. rewrite lt_half.
  destruct (Z.compare_spec e (-53)) as [->|Hlt|Hgt]; [|lia|done].
  apply bool_decide_eq_false_2.
  rewrite (pow2_base (-53)) in Hm by lia. change (2 ^ (-53 + 54)) with 2 in Hm.
  assert (0 < 2 ^ (scale - 54)) as HV
    by (apply Z.pow_pos_nonneg; unfold scale; lia).
  change (2 ^ 52) with 4503599627370496.
  set (V := 2 ^ (scale - 54)) in *. set (M := Z.pos m) in *.
  clearbody V M. clear - Hm HV. nia.
Qed.

Lemma units_abs s m e :
  Z.abs (units (S754_finite s m e)) = Z.pos m * 2 ^ (e + scale).
Proof.
  cbn [units]. rewrite Z.abs_mul.
  rewrite (Z.abs_eq (2 ^ _)) by (apply Z.pow_nonneg; lia).
  by destruct s.
Qed.

(** The guard of lines 46 and 47 on shares with one decimal: a total
    within 0.4 of 100 passes, a total 0.6 or more away does not. *)
Lemma already_correct_decimal a b c :
  (a <= 1000)%N -> (b <= 1000)%N -> (c <= 1000)%N ->
  let off := Z.abs (Z.of_N a + Z.of_N b + Z.of_N c - 1000) in
  let ok := already_correct (PyFloat.of_decimal a 1) (PyFloat.of_decimal b 1)
                            (PyFloat.of_decimal c 1) in
  (off <= 4 -> ok = true) /\ (6 <= off -> ok = false).
Proof.
  intros Ha Hb Hc off ok. subst ok. unfold already_correct.
  destruct (total_decimal a b c Ha Hb Hc) as [Hwt Ht]. cbv zeta in Hwt, Ht.
  set (total := PyFloat.add _ _) in *.
  assert (has_units PyFloat.f100) as Hw100 by (cbn; lia).
  pose proof units_f100 as H100.
  rewrite pow2_scale in Ht, H100.
  assert (0 < 2 ^ (scale - 54)) as HV
    by (apply Z.pow_pos_nonneg; unfold scale; lia).
  assert (2 ^ (-1 + scale) = 9007199254740992 * 2 ^ (scale - 54)) as Ehalf.
  { rewrite (pow2_base (-1)) by lia. reflexivity. }
  assert (2 ^ (8 + scale) = 4611686018427387904 * 2 ^ (scale - 54)) as E8.
  { rewrite (pow2_base 8) by lia. reflexivity. }
  assert (2 * 2 ^ (fexp 53 1024 (-1) + scale) = 2 * 2 ^ (scale - 54)) as Eerr1.
  { change (fexp 53 1024 (-1)) with (-54).
    rewrite (pow2_base (-54)) by lia. change (2 ^ (-54 + 54)) with 1. lia. }
  assert (2 * 2 ^ (fexp 53 1024 8 + scale) = 1024 * 2 ^ (scale - 54)) as Eerr8.
  { change (fexp 53 1024 8) with (-45).
    rewrite (pow2_base (-45)) by lia. change (2 ^ (-45 + 54)) with 512. lia. }
  set (S := Z.of_N a + Z.of_N b + Z.of_N c) in *.
  assert (0 <= S <= 3000) as HS by (unfold S; lia).
  assert (10 * (units total - units PyFloat.f100)
          = 10 * units total - S * (18014398509481984 * 2 ^ (scale - 54))
            + 18014398509481984 * ((S - 1000) * 2 ^ (scale - 54))) as Ediff.
  { rewrite H100. ring. }
  set (V := 2 ^ (scale - 54)) in *.
  set (diff := units total - units PyFloat.f100) in *.
  assert (Z.abs ((S - 1000) * V) = off * V) as Eoff.
  { rewrite Z.abs_mul, (Z.abs_eq V) by lia. done. }
  assert (off * V <= 2000 * V) as Hoffmax.
  { clearbody V. unfold off. fold S. clear - HS HV. nia. }
  set (SV := (S - 1000) * V) in *.
  split.
  - (* within 0.4 *)
    intros Hoff.
    assert (off * V <= 4 * V) as Hoff' by (clearbody V; clear - Hoff HV; nia).
    assert (Z.abs diff < 7500000000000000 * V) as Hsmall.
    { clearbody V diff SV. clear - Ediff Ht Hoff' Eoff HV. lia. }
    destruct (sub_coarse total PyFloat.f100 (-1) Hwt Hw100
                ltac:(unfold scale; lia)) as [Hwd Hd].
    { rewrite Ehalf. fold diff. clearbody V diff. lia. }
    rewrite Eerr1 in Hd. fold diff in Hd.
    change (SFsub 53 1024 total PyFloat.f100)
      with (PyFloat.sub total PyFloat.f100) in Hwd, Hd.
    destruct (PyFloat.sub total PyFloat.f100) as [sd| | |sd md ed] eqn:Ed;
      [reflexivity|destruct Hwd|destruct Hwd|].
    cbn [has_units] in Hwd.
    pose proof (units_abs sd md ed) as Habs.
    apply lt_half_small; [|fold V; clearbody V diff; lia|done].
    destruct (decide (diff = 0)) as [Hz|Hnz].
    + (* the difference is zero *)
      destruct (decide (ed <= -53)) as [|Hbig]; [done|exfalso].
      assert (2 ^ (-52 + scale) <= 2 ^ (ed + scale)) as Hge
        by (apply Z.pow_le_mono_r; lia).
      rewrite (pow2_base (-52)) in Hge by lia.
      change (2 ^ (-52 + 54)) with 4 in Hge. fold V in Hge.
      rewrite Hz in Hd.
      assert (1 <= Z.pos md) as Hmd by lia.
      set (M := Z.pos md) in *. set (P := 2 ^ (ed + scale)) in *.
      clearbody V M P. clear - Hd Habs Hge Hmd HV. nia.
    + (* the difference is not zero *)
      destruct (has_units_finite total Hwt) as (st & mt & et & Et & Het).
      { clearbody V SV. clear - Ht Hoff' Eoff HV Hoff HS.
        unfold off in Hoff. intros Hu. rewrite Hu in Ht.
        assert (996 * V <= S * V) by nia. lia. }
      assert (1 <= Z.abs diff) as Hone by lia.
      rewrite Et in Ed.
      destruct (sub_finite_shape st mt et false 7036874417766400 (-46)
                  (- scale) (-1)) as [[s' E']|(s' & m' & e' & E' & He')];
        [done|lia|unfold scale; lia|lia| | |].
      * rewrite <- Et. change (S754_finite false 7036874417766400 (-46))
          with PyFloat.f100. fold diff.
        rewrite Z.add_opp_diag_l. change (2 ^ 0) with 1.
        rewrite Ehalf. fold V. clearbody V diff. lia.
      * change (S754_finite false 7036874417766400 (-46))
          with PyFloat.f100 in E'. congruence.
      * change (S754_finite false 7036874417766400 (-46))
          with PyFloat.f100 in E'.
        change (fexp 53 1024 (-1)) with (-54) in He'.
        assert (ed = e') as -> by congruence. lia.
  - (* 0.6 away or more *)
    intros Hoff.
    assert (6 * V <= off * V) as Hoff' by (clearbody V; clear - Hoff HV; nia).
    assert (10000000000000000 * V <= Z.abs diff
            < 4611686018427387904 * V) as Hlarge.
    { clearbody V diff SV. clear - Ediff Ht Hoff' Hoffmax Eoff HV. lia. }
    destruct (sub_coarse total PyFloat.f100 8 Hwt Hw100
                ltac:(unfold scale; lia)) as [Hwd Hd].
    { rewrite E8. fold V diff. clearbody V diff. lia. }
    rewrite Eerr8 in Hd. fold V diff in Hd.
    change (SFsub 53 1024 total PyFloat.f100)
      with (PyFloat.sub total PyFloat.f100) in Hwd, Hd.
    destruct total as [st| | |st mt et] eqn:Et;
      [reflexivity|destruct Hwt|destruct Hwt|].
    cbn [has_units] in Hwt.
    destruct (sub_finite_shape st mt et false 7036874417766400 (-46)
                (-1) 8) as [[s' E']|(s' & m' & e' & E' & He')];
      [done|lia|unfold scale; lia|lia| | |].
    + change (S754_finite false 7036874417766400 (-46)) with PyFloat.f100.
      fold diff. rewrite Ehalf, E8. fold V. clearbody V diff. lia.
    + change (S754_finite false 7036874417766400 (-46))
        with PyFloat.f100 in E'.
      rewrite E' in Hd. cbn [units] in Hd. clearbody V diff. lia.
    + change (S754_finite false 7036874417766400 (-46))
        with PyFloat.f100 in E'.
      rewrite E' in *. change (fexp 53 1024 (-1 + 1)) with (-53) in He'.
      pose proof (units_abs s' m' e') as Habs.
      apply lt_half_large; [lia|]. fold V. clearbody V diff. lia.
Qed.

End Guard.

Section GuardClaims.
Implicit Types (html pre post : text) (m : Re.pieces).

(** X16. The tolerance of lines 46 and 47, in decimal. When the formula
    bar shows three shares with one decimal, none above 100: a total
    within 0.4 of 100 leaves the document as it is, a total 0.6 or more
    away from 100 has it corrected. *)
Theorem guard_tolerance html pre m post a b c :
  Re.search formula_pattern html = Some (pre, m, post) ->
  PyFloat.of_text (formula_explained m) = Ok (PyFloat.of_decimal a 1) ->
  PyFloat.of_text (formula_background m) = Ok (PyFloat.of_decimal b 1) ->
  PyFloat.of_text (formula_unmatched m) = Ok (PyFloat.of_decimal c 1) ->
  (a <= 1000)%N -> (b <= 1000)%N -> (c <= 1000)%N ->
  let off := Z.abs (Z.of_N a + Z.of_N b + Z.of_N c - 1000) in
  let e := PyFloat.of_decimal a 1 in
  let bg := PyFloat.of_decimal b 1 in
  let u := PyFloat.of_decimal c 1 in
  (off <= 4 -> already_correct e bg u = true /\ patch_report html = Ok html)
  /\ (6 <= off ->
      already_correct e bg u = false
      /\ patch_report html
         = fix_displays e
             (Text.replace (unmatched_label u)
                (unmatched_label (new_unmatched e bg)) html)).
Proof.
  intros Hs He Hb Hu Ha Hb' Hc off e bg u.
  destruct (already_correct_decimal a b c Ha Hb' Hc) as [Hin Hout].
  split.
  - intros Hoff. specialize (Hin Hoff). split; [done|].
    unfold patch_report. rewrite Hs, He. simpl. rewrite Hb. simpl.
    rewrite Hu. simpl. by rewrite Hin.
  - intros Hoff. specialize (Hout Hoff). split; [done|].
    by rewrite (patch_report_corrects _ _ _ _ _ _ _ Hs He Hb Hu Hout).
Qed.

(** The faulty report: 40.0 + 30.0 + 45.0 is 15 away from 100. *)
Lemma guard_tolerance_witness :
  already_correct (PyFloat.of_decimal 400 1) (PyFloat.of_decimal 300 1)
                  (PyFloat.of_decimal 450 1) = false.
Proof.
  edestruct (guard_tolerance Sample.faulty_report) with
    (a := 400%N) (b := 300%N) (c := 450%N) as [_ H].
  - vm_compute. reflexivity.
  - vm_compute. reflexivity.
  - vm_compute. reflexivity.
  - vm_compute. reflexivity.
  - lia.
  - lia.
  - lia.
  - apply H. simpl. lia.
Defined.

(** X17. The correction establishes what the guard tests. With Explained
    and Background read from numerals with one decimal that do not exceed
    100 together, the three shares with the recomputed Unmatched pass the
    check of lines 46 and 47. *)
Theorem corrected_passes_guard a b :
  (a + b <= 1000)%N ->
  let e := PyFloat.of_decimal a 1 in
  let bg := PyFloat.of_decimal b 1 in
  already_correct e bg (new_unmatched e bg) = true.
Proof.
  intros Hab e bg.
  destruct (already_correct_decimal a b (1000 - a - b))
    as [Hin _]; [lia|lia|lia|].
  specialize (Hin ltac:(lia)). cbv zeta in Hin. fold e bg in Hin.
  destruct (new_unmatched_decimal a b Hab) as [E|[Eab E]];
    fold e bg in E; rewrite E; [done|].
  replace (1000 - a - b)%N with 0%N in Hin by lia.
  destruct (total_decimal a b 0) as [Hwt Ht]; [lia|lia|lia|].
  cbv zeta in Hwt, Ht. fold e bg in Hwt, Ht.
  rewrite <- Hin. unfold already_correct.
  assert (0 < 2 ^ (scale - 54)) as HV
    by (apply Z.pow_pos_nonneg; unfold scale; lia).
  rewrite pow2_scale in Ht.
  assert (units (PyFloat.add (PyFloat.add e bg) (PyFloat.of_decimal 0 1))
          <> 0) as Hnz.
  { intros Hz. rewrite Hz in Ht.
    replace (Z.of_N a + Z.of_N b + Z.of_N 0) with 1000 in Ht by lia.
    set (V := 2 ^ (scale - 54)) in *. clearbody V. lia. }
  destruct (PyFloat.add e bg) as [s| | |s m ex]; try done.
  by destruct s.
Qed.

(** 64.4 and 35.6 leave nothing: the corrected shares pass the check. *)
Lemma corrected_passes_guard_witness :
  already_correct (PyFloat.of_decimal 644 1) (PyFloat.of_decimal 356 1)
    (new_unmatched (PyFloat.of_decimal 644 1) (PyFloat.of_decimal 356 1))
  = true.
Proof. apply (corrected_passes_guard 644 356). lia. Defined.

End GuardClaims.

(** ** The pass over the chart data *)

Section DonutClaims.
#[local] Arguments txt : simpl never.
Implicit Types (html out s r : text) (m : Re.pieces).

(** X18. The pass of lines 126 to 130, when it returns: going through the
    document from left to right, every pair of chart values that the
    pattern matches has been replaced by what [fix_donut] makes of it and
    every other character has been copied; and [fix_donut] turns a pair
    whose first value exceeds 100 into [100.0, 0] and returns any other
    pair as it stands. *)
Theorem donut_pass_caps html out :
  ReSub.sub donut_pattern fix_donut html = Ok out ->
  rewritten donut_pattern fix_donut html out
  /\ forall s m r v,
       Re.match_here donut_pattern s = Some (m, r) ->
       PyFloat.of_text (donut_value m) = Ok v ->
       fix_donut m
       = Ok (if PyFloat.lt PyFloat.f100 v
             then dq :: txt "values" ++ dq :: txt ": [100.0, 0]"
             else Re.whole m).
Proof.
  intros Hout. split; [by apply donut_pass_rewritten|].
  intros s m r v Hm Hv. by destruct (fix_donut_match s m r v Hm Hv).
Qed.

(** The chart of the scenario: 114.3 and 0 become 100.0 and 0. *)
Lemma donut_pass_caps_witness :
  rewritten donut_pattern fix_donut
    (Sample.donut "114.3" "0") (Sample.donut "100.0" "0").
Proof.
  apply (donut_pass_caps (Sample.donut "114.3" "0")).
  vm_compute. reflexivity.
Defined.

End DonutClaims.
